(** * Layered resource resolution and safe deletion (lcagents)

    A shallow embedding of [LayerManager] and [SafeDeleteManager] together
    with the pieces of the Node run time they rely on: POSIX [path]
    functions, a handful of [String.prototype] methods and the [fs-extra]
    calls, the latter over an explicit store of files.

    Asynchronous methods are modelled as state-passing computations that
    either return a value or throw; every [await] is sequential. *)

From Stdlib Require Import String Ascii List Bool Arith Lia.
From stdpp Require Import base option list gmap strings fin_maps.
Import ListNotations.

Local Open Scope string_scope.
Local Open Scope list_scope.

(** ** JavaScript strings *)

Module Js.

Definition is_slash (c : ascii) : bool := Ascii.eqb c "/"%char.

Fixpoint startsWith (s p : string) : bool :=
  match p, s with
  | EmptyString, _ => true
  | String a p', String b s' => Ascii.eqb a b && startsWith s' p'
  | String _ _, EmptyString => false
  end.

(** [s.includes(needle)] *)
Fixpoint includes (s needle : string) : bool :=
  startsWith s needle ||
  match s with
  | EmptyString => false
  | String _ s' => includes s' needle
  end.

Fixpoint drop_chars (n : nat) (s : string) : string :=
  match n, s with
  | O, _ => s
  | S n', String _ s' => drop_chars n' s'
  | S _, EmptyString => EmptyString
  end.

(** [s.replace(pat, rep)] with a string pattern: the first occurrence only. *)
Fixpoint replace (s pat rep : string) : string :=
  if startsWith s pat then rep +:+ drop_chars (String.length pat) s
  else match s with
       | EmptyString => EmptyString
       | String c s' => String c (replace s' pat rep)
       end.

Definition string_rev (s : string) : string :=
  string_of_list_ascii (rev (list_ascii_of_string s)).

(** [s.endsWith(suffix)] *)
Definition endsWith (s suffix : string) : bool :=
  startsWith (string_rev s) (string_rev suffix).

(** [s.replace(/[:.]/g, '-')] *)
Fixpoint replace_colon_dot (s : string) : string :=
  match s with
  | EmptyString => EmptyString
  | String c s' =>
      String (if Ascii.eqb c ":"%char || Ascii.eqb c "."%char then "-"%char else c)
             (replace_colon_dot s')
  end.

(** [parts.join(sep)] *)
Fixpoint join (sep : string) (parts : list string) : string :=
  match parts with
  | [] => EmptyString
  | [x] => x
  | x :: r => x +:+ sep +:+ join sep r
  end.

(** Truthiness of a possibly absent string: [undefined], [null] and the
    empty string are falsy. *)
Definition truthy (v : option string) : option string :=
  match v with
  | Some EmptyString => None
  | other => other
  end.

(** [a || b] on possibly absent strings. *)
Definition or (a b : option string) : option string :=
  match truthy a with
  | Some s => Some s
  | None => b
  end.

End Js.

(** ** POSIX paths, after Node's [path.posix] *)

Module Path.

(** [s.split('/')] *)
Fixpoint split (s : string) : list string :=
  match s with
  | EmptyString => [EmptyString]
  | String c s' =>
      if Js.is_slash c then EmptyString :: split s'
      else match split s' with
           | [] => [String c EmptyString]
           | x :: r => String c x :: r
           end
  end.

Fixpoint has_slash (s : string) : bool :=
  match s with
  | EmptyString => false
  | String c s' => Js.is_slash c || has_slash s'
  end.

(** An ordinary path segment: not empty, not [.] or [..], no separator. *)
Definition segmentb (s : string) : bool :=
  negb (String.eqb s "") && negb (String.eqb s ".") &&
  negb (String.eqb s "..") && negb (has_slash s).

Definition is_segment (s : string) : Prop := segmentb s = true.

(** One round of [normalizeString]: [res] holds the segments kept so far,
    innermost first. *)
Definition norm_step (allowAboveRoot : bool) (res : list string) (seg : string)
  : list string :=
  if String.eqb seg "" || String.eqb seg "." then res
  else if String.eqb seg ".." then
    match res with
    | [] => if allowAboveRoot then [".."] else []
    | top :: rest =>
        if String.eqb top ".." then (if allowAboveRoot then ".." :: res else res)
        else rest
    end
  else seg :: res.

Definition norm_segments (allowAboveRoot : bool) (segs acc : list string)
  : list string :=
  fold_left (norm_step allowAboveRoot) segs acc.

Definition isAbsolute (p : string) : bool :=
  match p with
  | String c _ => Js.is_slash c
  | EmptyString => false
  end.

Definition trailing_slash (p : string) : bool :=
  match rev (list_ascii_of_string p) with
  | c :: _ => Js.is_slash c
  | [] => false
  end.

Definition render (absolute : bool) (segs : list string) (trailing : bool) : string :=
  match segs with
  | [] => if absolute then "/" else if trailing then "./" else "."
  | _ => (if absolute then "/" else "") +:+ Js.join "/" segs
           +:+ (if trailing then "/" else "")
  end.

(** [path.normalize(p)] *)
Definition normalize (p : string) : string :=
  match p with
  | EmptyString => "."
  | _ =>
      render (isAbsolute p)
             (rev (norm_segments (negb (isAbsolute p)) (split p) []))
             (trailing_slash p)
  end.

(** [path.join(...args)]: empty arguments are skipped. *)
Definition join (args : list string) : string :=
  match List.filter (fun a => negb (String.eqb a "")) args with
  | [] => "."
  | parts => normalize (Js.join "/" parts)
  end.

Fixpoint drop_slashes (l : list ascii) : list ascii :=
  match l with
  | c :: r => if Js.is_slash c then drop_slashes r else l
  | [] => []
  end.

Fixpoint take_name (l : list ascii) : list ascii :=
  match l with
  | c :: r => if Js.is_slash c then [] else c :: take_name r
  | [] => []
  end.

Fixpoint drop_name (l : list ascii) : list ascii :=
  match l with
  | c :: r => if Js.is_slash c then l else drop_name r
  | [] => []
  end.

(** [path.basename(p)]: the last portion, trailing separators ignored. *)
Definition basename (p : string) : string :=
  string_of_list_ascii
    (rev (take_name (drop_slashes (rev (list_ascii_of_string p))))).

(** [path.dirname(p)] *)
Definition dirname (p : string) : string :=
  match p with
  | EmptyString => "."
  | String c0 rest =>
      (* the scan runs from the end down to index 1 *)
      match drop_name (drop_slashes (rev (list_ascii_of_string rest))) with
      | [] => if Js.is_slash c0 then "/" else "."
      | _ :: before =>
          match before, Js.is_slash c0 with
          | [], true => "//"
          | _, _ => String c0 (string_of_list_ascii (rev before))
          end
      end
  end.

End Path.

(** ** Errors, JSON values and the store of files *)

(** What a [throw] carries: [new Error(message)], a [TypeError] raised by
    the run time, a [SyntaxError] of [JSON.parse], or an error of the
    operating system ([code] is [ENOENT], [EISDIR], ...). *)
Inductive error : Type :=
| Error (message : string)
| TypeError (message : string)
| SyntaxError (message : string)
| SystemError (code : string) (path : string).

Definition error_message (e : error) : string :=
  match e with
  | Error m | TypeError m | SyntaxError m => m
  | SystemError code p => code +:+ ": " +:+ p
  end.

Inductive result (A : Type) : Type :=
| OK (a : A)
| Err (e : error).
Arguments OK {A} a.
Arguments Err {A} e.

#[warnings="-register-all"]
Inductive json : Type :=
| JNull
| JBool (b : bool)
| JStr (s : string)
| JArr (items : list json)
| JObj (fields : list (string * json)).

Definition json_is_str (s : string) (j : json) : bool :=
  match j with
  | JStr s' => String.eqb s s'
  | _ => false
  end.

(** [obj[key]]; [None] stands for [undefined]. *)
Fixpoint field_lookup (key : string) (fields : list (string * json)) : option json :=
  match fields with
  | [] => None
  | (k, v) :: r => if String.eqb k key then Some v else field_lookup key r
  end.

Definition json_get (key : string) (j : json) : option json :=
  match j with
  | JObj fields => field_lookup key fields
  | _ => None
  end.

(** A resolved location: the segments below the root. *)
Abbreviation fpath := (list string).

Inductive entry : Type :=
| File (content : string)
| Dir.

Definition is_dir (e : entry) : bool :=
  match e with Dir => true | File _ => false end.

Definition same_kind (a b : entry) : bool := Bool.eqb (is_dir a) (is_dir b).

Abbreviation store := (gmap fpath entry).

Fixpoint strip_prefix (p k : fpath) : option fpath :=
  match p, k with
  | [], _ => Some k
  | a :: p', b :: k' => if String.eqb a b then strip_prefix p' k' else None
  | _ :: _, [] => None
  end.

Definition under (p k : fpath) : bool :=
  match strip_prefix p k with Some _ => true | None => false end.

Module Fs.

(** Names directly below [p], in the order the store enumerates them. *)
Definition children (fs : store) (p : fpath) : list string :=
  omap (fun kv => match strip_prefix p (fst kv) with
                  | Some [n] => Some n
                  | _ => None
                  end) (map_to_list fs).

(** The entries at and below [p], keyed by what follows [p]. *)
Definition subtree (fs : store) (p : fpath) : list (fpath * entry) :=
  omap (fun kv => match strip_prefix p (fst kv) with
                  | Some s => Some (s, snd kv)
                  | None => None
                  end) (map_to_list fs).

Definition parent (p : fpath) : fpath := removelast p.

Definition readdir (shown : string) (p : fpath) (fs : store) : result (list string) :=
  match fs !! p with
  | Some Dir => OK (children fs p)
  | Some (File _) => Err (SystemError "ENOTDIR" shown)
  | None => Err (SystemError "ENOENT" shown)
  end.

Definition readFile (shown : string) (p : fpath) (fs : store) : result string :=
  match fs !! p with
  | Some (File c) => OK c
  | Some Dir => Err (SystemError "EISDIR" shown)
  | None => Err (SystemError "ENOENT" shown)
  end.

Definition writeFile (shown : string) (p : fpath) (content : string) (fs : store)
  : result store :=
  match p with
  | [] => Err (SystemError "EISDIR" shown)
  | _ =>
      match fs !! parent p with
      | Some Dir =>
          match fs !! p with
          | Some Dir => Err (SystemError "EISDIR" shown)
          | _ => OK (<[p := File content]> fs)
          end
      | Some (File _) => Err (SystemError "ENOTDIR" shown)
      | None => Err (SystemError "ENOENT" shown)
      end
  end.

(** [mkdir -p]: every missing directory from the root down to [p] is
    created; a regular file on the way is an error ([EEXIST] when it is at
    [p] itself). *)
Fixpoint mkdirs (shown : string) (done todo : fpath) (fs : store) : result store :=
  match fs !! done with
  | Some (File _) =>
      Err (SystemError match todo with [] => "EEXIST" | _ => "ENOTDIR" end shown)
  | here =>
      let fs' := match here with None => <[done := Dir]> fs | Some _ => fs end in
      match todo with
      | [] => OK fs'
      | s :: todo' => mkdirs shown (done ++ [s]) todo' fs'
      end
  end.

Definition ensureDir (shown : string) (p : fpath) (fs : store) : result store :=
  mkdirs shown [] p fs.

(** [fs.remove]: the entry and everything below it; a missing entry is
    not an error. *)
Definition remove (p : fpath) (fs : store) : store :=
  filter (fun kv => under p (fst kv) = false) fs.

Definition graft (dst : fpath) (tree : list (fpath * entry)) (fs : store) : store :=
  list_to_map (map (fun se => (dst ++ fst se, snd se)) tree) ∪ fs.

Definition clash (fs : store) (dst : fpath) (se : fpath * entry) : bool :=
  match fs !! (dst ++ fst se) with
  | Some e => negb (same_kind e (snd se))
  | None => false
  end.

(** [fs.copy(src, dst)] of fs-extra with its default options: files are
    overwritten, directories merged; the parent of [dst] is created when
    missing.  Its checks come first, in its order: source and destination
    are the same, a directory meets a file at [dst], [dst] lies inside
    [src].  A file meeting a directory further down is an error too; the
    copy is then not started at all. *)
Definition copy (shown_src shown_dst : string) (src dst : fpath) (fs : store)
  : result store :=
  match fs !! src with
  | None => Err (SystemError "ENOENT" shown_src)
  | Some e =>
      if bool_decide (src = dst) then
        Err (Error "Source and destination must not be the same.")
      else if match fs !! dst with
              | Some d => is_dir e && negb (is_dir d)
              | None => false
              end then
        Err (Error ("Cannot overwrite non-directory '" +:+ shown_dst
                      +:+ "' with directory '" +:+ shown_src +:+ "'."))
      else if match fs !! dst with
              | Some d => negb (is_dir e) && is_dir d
              | None => false
              end then
        Err (Error ("Cannot overwrite directory '" +:+ shown_dst
                      +:+ "' with non-directory '" +:+ shown_src +:+ "'."))
      else if is_dir e && under src dst then
        Err (Error ("Cannot copy '" +:+ shown_src +:+ "' to a subdirectory of itself, '"
                      +:+ shown_dst +:+ "'."))
      else if existsb (clash fs dst) (subtree fs src) then
        Err (Error ("Cannot overwrite '" +:+ shown_dst +:+ "' with '" +:+ shown_src +:+ "'."))
      else
        match ensureDir (Path.dirname shown_dst) (parent dst) fs with
        | Err e' => Err e'
        | OK fs' => OK (graft dst (subtree fs src) fs')
        end
  end.

End Fs.

(** ** The world around the program *)

(** What [ResourceResolver.getResourceMetadata] yields for a resource. *)
Record ResourceMetadata : Type := {
  meta_dependencies : option (list string)
}.

(** [call] names the collaborators [safeDelete] invokes; the sequence of
    calls of a run is recorded in the state. *)
Inductive call : Type :=
| CallCheckDependencies
| CallCreateBackup
| CallRemove (resourcePath : string)
| CallUpdateDependencies
| CallRestoreBackup (backupPath : string).

Record state : Type := {
  files : store;
  (** number of file-system calls made so far *)
  ticks : nat;
  calls : list call;
  (** lines written by [console.warn] *)
  console : list string
}.

Record Env : Type := {
  (** [process.cwd()] *)
  cwd : fpath;
  (** [CoreSystemManager.getActiveCoreSystem()], a read-only oracle *)
  activeCoreSystem : option string;
  (** [ResourceResolver.getResourceMetadata(type, name)]: a query of the
      store; [None] stands for [undefined] *)
  getResourceMetadata : store -> string -> string -> option ResourceMetadata;
  (** [new Date().toISOString()] *)
  now : string;
  (** the text [fs.writeJSON] writes for a value and what [fs.readJSON]
      makes of a text *)
  JSON_stringify : json -> string;
  JSON_parse : string -> option json;
  (** the operating system refusing the n-th file-system call of a run *)
  io_fault : nat -> option error
}.

(** ** Data of the program *)

Inductive LayerType : Type := core | org | custom.

Definition layer_name (l : LayerType) : string :=
  match l with core => "core" | org => "org" | custom => "custom" end.

Record AgentResolutionPath : Type := {
  agentId : string;
  coreSystem : string;
  corePath : string;
  finalPath : string;
  layerSources : list LayerType
}.

Record ResourceWithSource : Type := {
  rws_name : string;
  rws_path : string;
  rws_source : LayerType
}.

Inductive DependencyKind : Type := agent | resource.

Definition kind_name (k : DependencyKind) : string :=
  match k with agent => "agent" | resource => "resource" end.

Record ResourceDependency : Type := {
  dep_type : DependencyKind;
  dep_name : string;
  dep_path : string
}.

Record DependencyCheckResult : Type := {
  hasActive : bool;
  dependencies : list ResourceDependency;
  isCore : bool
}.

Record BackupMetadata : Type := {
  bm_timestamp : string;
  bm_resourceName : string;
  bm_resourceType : string;
  bm_dependencies : list ResourceDependency;
  bm_originalPath : string
}.

Record DeleteOptions : Type := {
  force : bool;
  updateDeps : bool;
  skipBackup : bool
}.

(** [{ ...defaultOptions, ...options }]: an option left out is [false]. *)
Record PartialDeleteOptions : Type := {
  opt_force : option bool;
  opt_updateDeps : option bool;
  opt_skipBackup : option bool
}.

Definition fullOptions (options : PartialDeleteOptions) : DeleteOptions :=
  {| force := default false (opt_force options);
     updateDeps := default false (opt_updateDeps options);
     skipBackup := default false (opt_skipBackup options) |}.

(** The object [loadAgent] hands out is untyped; [agent_dependencies] and
    [agent_definition] are the properties its users read from it. *)
Record AgentDefinition : Type := {
  def_dependencies : option json
}.

Record Agent : Type := {
  agent_name : string;
  agent_content : string;
  agent_path : option AgentResolutionPath;
  agent_dependencies : option json;
  agent_definition : option AgentDefinition
}.

Definition dependency_json (d : ResourceDependency) : json :=
  JObj [("type", JStr (kind_name (dep_type d)));
        ("name", JStr (dep_name d));
        ("path", JStr (dep_path d))].

Definition metadata_json (m : BackupMetadata) : json :=
  JObj [("timestamp", JStr (bm_timestamp m));
        ("resourceName", JStr (bm_resourceName m));
        ("resourceType", JStr (bm_resourceType m));
        ("dependencies", JArr (map dependency_json (bm_dependencies m)));
        ("originalPath", JStr (bm_originalPath m))].

(** [Object.values(obj)] *)
Definition object_values (j : json) : list json :=
  match j with
  | JObj fields => map snd fields
  | _ => []
  end.

(** [Array.isArray(deps) && deps.includes(name)] *)
Definition array_includes (name : string) (j : json) : bool :=
  match j with
  | JArr items => existsb (json_is_str name) items
  | _ => false
  end.

(** [i = deps.indexOf(name); if (i > -1) deps.splice(i, 1)] *)
Fixpoint remove_first (name : string) (items : list json) : list json :=
  match items with
  | [] => []
  | x :: r => if json_is_str name x then r else x :: remove_first name r
  end.

Definition splice_name (name : string) (j : json) : json :=
  match j with
  | JArr items => JArr (remove_first name items)
  | other => other
  end.

Definition splice_all (name : string) (deps : json) : json :=
  match deps with
  | JObj fields => JObj (map (fun kv => (fst kv, splice_name name (snd kv))) fields)
  | other => other
  end.

(** ** Computations *)

Definition M (A : Type) : Type := state -> result A * state.

Definition ret {A} (a : A) : M A := fun st => (OK a, st).

Definition throw {A} (e : error) : M A := fun st => (Err e, st).

Definition bind {A B} (m : M A) (k : A -> M B) : M B :=
  fun st =>
    match m st with
    | (OK a, st') => k a st'
    | (Err e, st') => (Err e, st')
    end.

(** [try { body } catch (e) { handler }] *)
Definition try_catch {A} (body : M A) (handler : error -> M A) : M A :=
  fun st =>
    match body st with
    | (OK a, st') => (OK a, st')
    | (Err e, st') => handler e st'
    end.

Notation "'let*' x ':=' m 'in' k" := (bind m (fun x => k))
  (at level 10, x name, m at level 100, k at level 200).

(** [for (const x of xs) { acc = body(acc, x) }] *)
Fixpoint for_of {A B} (xs : list A) (body : B -> A -> M B) (acc : B) : M B :=
  match xs with
  | [] => ret acc
  | x :: r => let* acc' := body acc x in for_of r body acc'
  end.

Definition set_files (fs : store) (st : state) : state :=
  {| files := fs; ticks := ticks st; calls := calls st; console := console st |}.

Definition tick (st : state) : state :=
  {| files := files st; ticks := S (ticks st); calls := calls st; console := console st |}.

Definition record (c : call) : M unit :=
  fun st => (OK tt, {| files := files st; ticks := ticks st;
                       calls := calls st ++ [c]; console := console st |}).

Definition console_warn (line : string) : M unit :=
  fun st => (OK tt, {| files := files st; ticks := ticks st;
                       calls := calls st; console := console st ++ [line] |}).

Section Program.

Context (E : Env).

(** *** File-system calls

    A path string is resolved against the working directory; the empty
    path names nothing. *)

Definition resolve (p : string) : option fpath :=
  match p with
  | EmptyString => None
  | _ => Some (rev (Path.norm_segments false (Path.split p)
                      (if Path.isAbsolute p then [] else rev (cwd E))))
  end.

(** A call that reads: the operating system may refuse it. *)
Definition fs_read {A} (shown : string) (op : fpath -> store -> result A) : M A :=
  fun st =>
    match io_fault E (ticks st) with
    | Some e => (Err e, tick st)
    | None =>
        match resolve shown with
        | Some p => (op p (files st), tick st)
        | None => (Err (SystemError "ENOENT" shown), tick st)
        end
    end.

(** A call that writes: on success the store is replaced, on failure it
    is left as it was. *)
Definition fs_write (shown : string) (op : fpath -> store -> result store) : M unit :=
  fun st =>
    match io_fault E (ticks st) with
    | Some e => (Err e, tick st)
    | None =>
        match resolve shown with
        | Some p =>
            match op p (files st) with
            | OK fs' => (OK tt, set_files fs' (tick st))
            | Err e => (Err e, tick st)
            end
        | None => (Err (SystemError "ENOENT" shown), tick st)
        end
    end.

(** [fs.pathExists] never rejects. *)
Definition fs_pathExists (p : string) : M bool :=
  fun st =>
    (OK match resolve p with
        | Some q => bool_decide (is_Some (files st !! q))
        | None => false
        end, st).

Definition fs_readdir (p : string) : M (list string) := fs_read p (Fs.readdir p).

Definition fs_readFile (p : string) : M string := fs_read p (Fs.readFile p).

Definition fs_writeFile (p content : string) : M unit :=
  fs_write p (fun q => Fs.writeFile p q content).

Definition fs_ensureDir (p : string) : M unit := fs_write p (Fs.ensureDir p).

Definition fs_remove (p : string) : M unit :=
  fs_write p (fun q fs => OK (Fs.remove q fs)).

Definition fs_copy (src dst : string) : M unit :=
  fs_write src (fun s fs =>
    match resolve dst with
    | Some d => Fs.copy src dst s d fs
    | None => Err (SystemError "ENOENT" dst)
    end).

Definition fs_writeJSON (p : string) (value : json) : M unit :=
  fs_write p (fun q => Fs.writeFile p q (JSON_stringify E value)).

Definition fs_readJSON (p : string) : M json :=
  let* text := fs_readFile p in
  match JSON_parse E text with
  | Some j => ret j
  | None => throw (SyntaxError ("Unexpected token in JSON: " +:+ p))
  end.

(** *** LayerManager *)

Record LayerManager : Type := {
  lcagentsPath : string
}.

Definition LayerManager_new (basePath : string) : LayerManager :=
  {| lcagentsPath := Path.join [basePath; ".lcagents"] |}.

Definition getActiveCoreSystem : M (option string) := ret (activeCoreSystem E).

Definition unresolved (id : string) : AgentResolutionPath :=
  {| agentId := id; coreSystem := ""; corePath := ""; finalPath := "";
     layerSources := [] |}.

Definition resolveAgent (this : LayerManager) (id : string) (coreSystem : option string)
  : M AgentResolutionPath :=
  let* active := getActiveCoreSystem in
  let activeCore :=
    default "bmad-core" (Js.or (Js.or coreSystem active) (Some "bmad-core")) in
  let* activeCoreSystem := getActiveCoreSystem in
  match Js.truthy activeCoreSystem with
  | None => ret (unresolved id)
  | Some activeCoreSystem =>
      let corePath := Path.join [lcagentsPath this; "core"; "." +:+ activeCoreSystem;
                                 "agents"; id +:+ ".md"] in
      let orgOverridePath := Path.join [lcagentsPath this; "org"; "agents";
                                        "overrides"; id +:+ ".yaml"] in
      let customOverridePath := Path.join [lcagentsPath this; "custom"; "agents";
                                           "overrides"; id +:+ ".yaml"] in
      let layerSources := [core] in
      let finalPath := corePath in
      let* orgExists := fs_pathExists orgOverridePath in
      let layerSources := if orgExists then layerSources ++ [org] else layerSources in
      let* customExists := fs_pathExists customOverridePath in
      let layerSources := if customExists then layerSources ++ [custom] else layerSources in
      ret {| agentId := id; coreSystem := activeCore; corePath := corePath;
             finalPath := finalPath; layerSources := layerSources |}
  end.

Definition listAgents (this : LayerManager) : M (list string) :=
  let* activeCore := getActiveCoreSystem in
  match Js.truthy activeCore with
  | None => ret []
  | Some activeCore =>
      let agentsPath := Path.join [lcagentsPath this; "core"; "." +:+ activeCore; "agents"] in
      let* present := fs_pathExists agentsPath in
      if negb present then ret []
      else
        let* files := fs_readdir agentsPath in
        ret (map (fun file => Js.replace file ".md" "")
                 (List.filter (fun file => Js.endsWith file ".md") files))
  end.

Definition loadAgent (this : LayerManager) (agentName : string) : M Agent :=
  let* agentPath := resolveAgent this agentName None in
  let* present := fs_pathExists (corePath agentPath) in
  if negb present then throw (Error ("Agent " +:+ agentName +:+ " not found"))
  else
    let* agentContent := fs_readFile (corePath agentPath) in
    ret {| agent_name := agentName; agent_content := agentContent;
           agent_path := Some agentPath;
           agent_dependencies := None; agent_definition := None |}.

Definition saveAgent (this : LayerManager) (a : Agent) : M unit :=
  match agent_path a with
  | None => throw (Error "Invalid agent object - missing path information")
  | Some p =>
      match corePath p with
      | EmptyString => throw (Error "Invalid agent object - missing path information")
      | target =>
          let dirPath := Path.dirname target in
          let* _ := fs_ensureDir dirPath in
          fs_writeFile target (agent_content a)
      end
  end.

Definition list_layer (dir : string) (source : LayerType) (all : list ResourceWithSource)
  : M (list ResourceWithSource) :=
  let* present := fs_pathExists dir in
  if present then
    let* files := fs_readdir dir in
    ret (all ++ map (fun file => {| rws_name := file;
                                    rws_path := Path.join [dir; file];
                                    rws_source := source |}) files)
  else ret all.

Definition listResources (this : LayerManager) (resourceType : string)
  : M (list ResourceWithSource) :=
  let* activeCore := getActiveCoreSystem in
  match Js.truthy activeCore with
  | None => ret []
  | Some activeCore =>
      let allResources := [] in
      let coreResourcePath :=
        Path.join [lcagentsPath this; "core"; "." +:+ activeCore; resourceType] in
      let* allResources := list_layer coreResourcePath core allResources in
      let orgResourcePath := Path.join [lcagentsPath this; "org"; resourceType] in
      let* allResources := list_layer orgResourcePath org allResources in
      let customResourcePath := Path.join [lcagentsPath this; "custom"; resourceType] in
      let* allResources := list_layer customResourcePath custom allResources in
      ret allResources
  end.

Definition getResourcePath (this : LayerManager) (resourceType resourceName : string)
  : M (option string) :=
  let* activeCore := getActiveCoreSystem in
  match Js.truthy activeCore with
  | None => ret None
  | Some activeCore =>
      let resourcePath := Path.join [lcagentsPath this; "core"; "." +:+ activeCore;
                                     resourceType; resourceName] in
      let* present := fs_pathExists resourcePath in
      ret (if present then Some resourcePath else None)
  end.

Definition templatePath (this : LayerManager) (activeCore : string) (layer : LayerType)
           (templateName : string) : string :=
  match layer with
  | core => Path.join [lcagentsPath this; layer_name layer; "." +:+ activeCore;
                       "templates"; templateName]
  | _ => Path.join [lcagentsPath this; layer_name layer; "templates"; templateName]
  end.

Fixpoint resolveTemplate_loop (this : LayerManager) (activeCore : string)
         (layers : list LayerType) (templateName : string) : M ResourceWithSource :=
  match layers with
  | [] => throw (Error ("Template " +:+ templateName +:+ " not found in any layer"))
  | layer :: rest =>
      let* present := fs_pathExists (templatePath this activeCore layer templateName) in
      if present then
        ret {| rws_name := templateName;
               rws_path := templatePath this activeCore layer templateName;
               rws_source := layer |}
      else resolveTemplate_loop this activeCore rest templateName
  end.

Definition resolveTemplate (this : LayerManager) (templateName : string)
  : M ResourceWithSource :=
  let* activeCore := getActiveCoreSystem in
  match Js.truthy activeCore with
  | None => throw (Error "No active core system found")
  | Some activeCore =>
      resolveTemplate_loop this activeCore [custom; org; core] templateName
  end.

(** *** SafeDeleteManager

    The object is modelled once its [initialize] has completed: the
    resolver and the layer manager are in place. *)

Record SafeDeleteManager : Type := {
  backupDir : string;
  basePath : string;
  layerManager : LayerManager
}.

Definition SafeDeleteManager_new (basePath : string) : SafeDeleteManager :=
  {| backupDir := ".lcagents/backups";
     basePath := basePath;
     layerManager := LayerManager_new basePath |}.

(** The error kinds of the deletion workflow, by the message thrown. *)
Definition NotFound (resourceName : string) : error :=
  Error ("Resource not found: " +:+ resourceName).

Definition CoreResourceProtected : error :=
  Error "Cannot delete core system resources. These resources are immutable.".

Definition DependenciesExist (depList : string) : error :=
  Error ("Resource has active dependencies: " +:+ depList +:+ ". Use --force to override.").

Definition InvalidBackup : error := Error "Invalid backup: metadata not found".

Definition StaleLocation : error := Error "Original resource location no longer exists".

Definition isCoreResource (resourcePath : string) : bool :=
  Js.includes resourcePath ".lcagents/core/".

Definition createBackup (this : SafeDeleteManager) (resourceName resourceType : string)
           (dependencies : list ResourceDependency) : M string :=
  let timestamp := Js.replace_colon_dot (now E) in
  let backupName := resourceName +:+ "-" +:+ timestamp in
  let backupPath := Path.join [backupDir this; backupName] in
  let* originalPath := getResourcePath (layerManager this) resourceType resourceName in
  match originalPath with
  | None => throw (NotFound resourceName)
  | Some originalPath =>
      let metadata := {| bm_timestamp := timestamp;
                         bm_resourceName := resourceName;
                         bm_resourceType := resourceType;
                         bm_dependencies := dependencies;
                         bm_originalPath := originalPath |} in
      let* _ := fs_ensureDir backupPath in
      let* _ := fs_copy originalPath
                  (Path.join [backupPath; Path.basename originalPath]) in
      let* _ := fs_writeJSON (Path.join [backupPath; "metadata.json"])
                  (metadata_json metadata) in
      ret backupPath
  end.

(** One round of the loop over the agents: the body of the [try] and its
    [catch], which only warns. *)
Definition scan_agent (this : SafeDeleteManager) (resourceName : string)
           (dependencies : list ResourceDependency) (agentName : string)
  : M (list ResourceDependency) :=
  try_catch
    (let* a := loadAgent (layerManager this) agentName in
     let agentDeps := default (JObj []) (agent_dependencies a) in
     let allDeps := object_values agentDeps in
     if existsb (array_includes resourceName) allDeps then
       match agent_path a with
       | Some p => ret (dependencies ++
                          [{| dep_type := agent; dep_name := agentName;
                              dep_path := corePath p |}])
       | None => throw (TypeError "Cannot read properties of undefined (reading 'corePath')")
       end
     else ret dependencies)
    (fun error =>
       let* _ := console_warn ("Failed to check dependencies for agent " +:+ agentName
                                 +:+ ": " +:+ error_message error) in
       ret dependencies).

Definition resourceResolver_getResourceMetadata (resourceType resourceName : string)
  : M (option ResourceMetadata) :=
  fun st => (OK (getResourceMetadata E (files st) resourceType resourceName), st).

(** One round of the loop over the resources of the same type. *)
Definition scan_resource (this : SafeDeleteManager) (resourceType resourceName : string)
           (dependencies : list ResourceDependency) (r : ResourceWithSource)
  : M (list ResourceDependency) :=
  if String.eqb (rws_name r) resourceName then ret dependencies
  else
    let* metadata := resourceResolver_getResourceMetadata resourceType (rws_name r) in
    match metadata with
    | Some {| meta_dependencies := Some declared |} =>
        if existsb (String.eqb resourceName) declared then
          ret (dependencies ++
                 [{| dep_type := resource; dep_name := rws_name r;
                     dep_path := rws_path r |}])
        else ret dependencies
    | _ => ret dependencies
    end.

Definition checkDependencies (this : SafeDeleteManager)
           (resourceName resourceType : string) : M DependencyCheckResult :=
  let dependencies := [] in
  let* resourcePath := getResourcePath (layerManager this) resourceType resourceName in
  match resourcePath with
  | None => throw (NotFound resourceName)
  | Some resourcePath =>
      let isCore := isCoreResource resourcePath in
      let* agents := listAgents (layerManager this) in
      let* dependencies := for_of agents (scan_agent this resourceName) dependencies in
      let* resources := listResources (layerManager this) resourceType in
      let* dependencies :=
        for_of resources (scan_resource this resourceType resourceName) dependencies in
      ret {| hasActive := (0 <? length dependencies)%nat;
             dependencies := dependencies;
             isCore := isCore |}
  end.

Definition restoreBackup (this : SafeDeleteManager) (backupPath : string) : M unit :=
  let metadataPath := Path.join [backupPath; "metadata.json"] in
  let* present := fs_pathExists metadataPath in
  if negb present then throw InvalidBackup
  else
    let* metadata := fs_readJSON metadataPath in
    match json_get "originalPath" metadata with
    | Some (JStr originalPath) =>
        let parentDir := Path.dirname originalPath in
        let* parentPresent := fs_pathExists parentDir in
        if negb parentPresent then throw StaleLocation
        else
          let backupFile := Path.join [backupPath; Path.basename originalPath] in
          fs_copy backupFile originalPath
    | _ => throw (TypeError "The path argument must be of type string")
    end.

Definition updateDependencies (this : SafeDeleteManager) (resourceName : string)
           (dependencies : list ResourceDependency) : M unit :=
  for_of dependencies
    (fun _ dep =>
       match dep_type dep with
       | agent =>
           let* a := loadAgent (layerManager this) (dep_name dep) in
           (* [if (agent)]: an object is truthy *)
           match agent_definition a with
           | None =>
               throw (TypeError "Cannot read properties of undefined (reading 'dependencies')")
           | Some definition =>
               let spliced :=
                 {| def_dependencies :=
                      option_map (splice_all resourceName) (def_dependencies definition) |} in
               saveAgent (layerManager this)
                 {| agent_name := agent_name a; agent_content := agent_content a;
                    agent_path := agent_path a;
                    agent_dependencies := agent_dependencies a;
                    agent_definition := Some spliced |}
           end
       | resource => ret tt
       end) tt.

Definition depList (dependencies : list ResourceDependency) : string :=
  Js.join ", " (map (fun d => kind_name (dep_type d) +:+ " " +:+ dep_name d) dependencies).

(** Steps 5 to 7 of [safeDelete], the body of its [try]. *)
Definition deleteAndUpdate (this : SafeDeleteManager) (resourceName resourceType : string)
           (options : DeleteOptions) (dependencies : list ResourceDependency) : M unit :=
  let* resourcePath := getResourcePath (layerManager this) resourceType resourceName in
  match resourcePath with
  | None => throw (NotFound resourceName)
  | Some resourcePath =>
      let* _ := record (CallRemove resourcePath) in
      let* _ := fs_remove resourcePath in
      if updateDeps options then
        let* _ := record CallUpdateDependencies in
        updateDependencies this resourceName dependencies
      else ret tt
  end.

(** Step 8, the [catch]. *)
Definition rollback (this : SafeDeleteManager) (backupPath : option string)
           (error : error) : M unit :=
  let* _ := match Js.truthy backupPath with
            | Some b =>
                let* _ := record (CallRestoreBackup b) in
                restoreBackup this b
            | None => ret tt
            end in
  throw error.

Definition safeDelete (this : SafeDeleteManager) (resourceName resourceType : string)
           (options : PartialDeleteOptions) : M unit :=
  let fullOptions := fullOptions options in
  let* _ := record CallCheckDependencies in
  let* dependencyCheck := checkDependencies this resourceName resourceType in
  if isCore dependencyCheck then throw CoreResourceProtected
  else if hasActive dependencyCheck && negb (force fullOptions) then
    throw (DependenciesExist (depList (dependencies dependencyCheck)))
  else
    let* backupPath :=
      if negb (skipBackup fullOptions) then
        let* _ := record CallCreateBackup in
        let* b := createBackup this resourceName resourceType
                    (dependencies dependencyCheck) in
        ret (Some b)
      else ret None in
    try_catch
      (deleteAndUpdate this resourceName resourceType fullOptions
         (dependencies dependencyCheck))
      (rollback this backupPath).

End Program.

(** * What the properties are stated with *)

(** Whether the store holds something at path [p]. *)
Definition present (E : Env) (st : state) (p : string) : bool :=
  match resolve E p with
  | Some q => bool_decide (is_Some (files st !! q))
  | None => false
  end.

(** The state once call [c] has been recorded. *)
Definition logged (c : call) (st : state) : state := snd (record c st).

(** [keeps_calls m]: [m] records no call. *)
Definition keeps_calls {A} (m : M A) : Prop :=
  forall st, calls (snd (m st)) = calls st.

(** [reads_only m]: [m] records no call and leaves every file as it is. *)
Definition reads_only {A} (m : M A) : Prop :=
  forall st, files (snd (m st)) = files st /\ calls (snd (m st)) = calls st.

(** [p] lies in the core layer of the tree [lm] manages. *)
Definition under_core (lm : LayerManager) (p : string) : Prop :=
  exists rest, p = lcagentsPath lm +:+ "/core/" +:+ rest.

(** The entry recorded for a resource that depends on the target. *)
Definition resource_dependency (r : ResourceWithSource) : ResourceDependency :=
  {| dep_type := resource; dep_name := rws_name r; dep_path := rws_path r |}.

(** [r] is another resource whose metadata declares [name]. *)
Definition depends_on (E : Env) (fs : store) (type name : string)
           (r : ResourceWithSource) : bool :=
  negb (String.eqb (rws_name r) name) &&
  match getResourceMetadata E fs type (rws_name r) with
  | Some {| meta_dependencies := Some declared |} => existsb (String.eqb name) declared
  | _ => false
  end.

(** The metadata document [createBackup] writes. *)
Definition backup_document (E : Env) (name type : string)
           (deps : list ResourceDependency) (originalPath : string) : json :=
  metadata_json {| bm_timestamp := Js.replace_colon_dot (now E);
                   bm_resourceName := name; bm_resourceType := type;
                   bm_dependencies := deps; bm_originalPath := originalPath |}.

(** The shape of what [normalizeString] keeps: ordinary segments, below
    them (for a relative path only) a run of [..]. *)
Inductive stack_ok (above : bool) : list string -> Prop :=
| stack_nil : stack_ok above []
| stack_seg s stk : Path.is_segment s -> stack_ok above stk -> stack_ok above (s :: stk)
| stack_up stk :
    above = true -> Forall (eq "..") stk -> stack_ok above stk ->
    stack_ok above (".." :: stk).

(** No call to the file system is refused. *)
Definition undisturbed (E : Env) : Prop := forall n, io_fault E n = None.

(** [dir] can be listed: it is no regular file. *)
Definition listable (E : Env) (fs : store) (dir : string) : Prop :=
  forall q c, resolve E dir = Some q -> fs !! q <> Some (File c).

(** The directories the dependency scan lists. *)
Definition scanned (lm : LayerManager) (ac type : string) : list string :=
  [ Path.join [lcagentsPath lm; "core"; "." +:+ ac; "agents"];
    Path.join [lcagentsPath lm; "core"; "." +:+ ac; type];
    Path.join [lcagentsPath lm; "org"; type];
    Path.join [lcagentsPath lm; "custom"; type] ].

(** ** A project tree to run the program on *)

Module Scenario.

(** A small JSON printer, and a reader that knows the documents it is
    given: it maps the text of each back to the document. *)
Definition quote (s : string) : string :=
  String (ascii_of_nat 34) (s +:+ String (ascii_of_nat 34) EmptyString).

Fixpoint print (j : json) : string :=
  match j with
  | JNull => "null"
  | JBool b => if b then "true" else "false"
  | JStr s => quote s
  | JArr items => "[" +:+ Js.join "," (map print items) +:+ "]"
  | JObj fields =>
      "{" +:+ Js.join "," (map (fun kv => let (k, v) := kv : string * json in
                                         quote k +:+ ":" +:+ print v) fields) +:+ "}"
  end.

Definition read (known : list json) (text : string) : option json :=
  List.find (fun j => String.eqb (print j) text) known.

Definition project : fpath := ["home"; "u"; "proj"].
Definition lcagents : fpath := project ++ [".lcagents"].
Definition coreDir : fpath := lcagents ++ ["core"; ".bmad-core"].

Definition pm_content : string :=
  "dependencies: { templates: [story.md, arch.md, foo.md] }".

(** The core system [bmad-core] with two agents (one of them a directory
    by mistake) and three templates; an override of [story.md] in the
    org layer; a template [foo.md] of the custom layer only. *)
Definition tree : store :=
  list_to_map
    [([], Dir); (["home"], Dir); (["home"; "u"], Dir); (project, Dir);
     (lcagents, Dir);
     (lcagents ++ ["core"], Dir); (coreDir, Dir);
     (coreDir ++ ["agents"], Dir);
     (coreDir ++ ["agents"; "pm.md"], File pm_content);
     (coreDir ++ ["agents"; "broken.md"], Dir);
     (coreDir ++ ["templates"], Dir);
     (coreDir ++ ["templates"; "story.md"], File "core story");
     (coreDir ++ ["templates"; "arch.md"], File "core arch");
     (coreDir ++ ["templates"; "prd.md"], File "core prd");
     (lcagents ++ ["org"], Dir); (lcagents ++ ["org"; "templates"], Dir);
     (lcagents ++ ["org"; "templates"; "story.md"], File "org story");
     (lcagents ++ ["custom"], Dir); (lcagents ++ ["custom"; "templates"], Dir);
     (lcagents ++ ["custom"; "templates"; "foo.md"], File "custom foo");
     (lcagents ++ ["backups"], Dir)].

(** [prd.md] declares that it depends on [story.md]. *)
Definition metadata (fs : store) (type name : string) : option ResourceMetadata :=
  if String.eqb type "templates" && String.eqb name "prd.md"
  then Some {| meta_dependencies := Some ["story.md"] |}
  else None.

Definition foo_name : string := "../../../custom/templates/foo.md".
Definition foo_path : string := "/home/u/proj/.lcagents/custom/templates/foo.md".

Definition foo_document : json :=
  metadata_json {| bm_timestamp := "2024-01-02T03-04-05-678Z";
                   bm_resourceName := foo_name; bm_resourceType := "templates";
                   bm_dependencies := []; bm_originalPath := foo_path |}.

Definition world (active : option string) (fault : nat -> option error) : Env :=
  {| cwd := project;
     activeCoreSystem := active;
     getResourceMetadata := metadata;
     now := "2024-01-02T03:04:05.678Z";
     JSON_stringify := print;
     JSON_parse := read [foo_document];
     io_fault := fault |}.

Definition no_fault : nat -> option error := fun _ => None.

(** The operating system refuses the removal (the tenth call of the run
    below), and, in the second variant, also the copy back from the
    backup (the twelfth). *)
Definition removal_refused (n : nat) : option error :=
  if Nat.eqb n 9 then Some (SystemError "EACCES" foo_path) else None.


(** Every call goes through. *)
Definition calm : Env := world (Some "bmad-core") no_fault.

(** No core system is active. *)
Definition unconfigured : Env := world None no_fault.

(** The removal fails; the removal and the copy back fail. *)
Definition stormy : Env := world (Some "bmad-core") removal_refused.


Definition start : state := {| files := tree; ticks := 0; calls := []; console := [] |}.

Definition manager : SafeDeleteManager := SafeDeleteManager_new "/home/u/proj".

Definition defaults : PartialDeleteOptions :=
  {| opt_force := None; opt_updateDeps := None; opt_skipBackup := None |}.

Definition forced : PartialDeleteOptions :=
  {| opt_force := Some true; opt_updateDeps := None; opt_skipBackup := None |}.

Definition foo_backup : string := "../custom/templates/foo.md-2024-01-02T03-04-05-678Z".

Definition nothing_found : DependencyCheckResult :=
  {| hasActive := false; dependencies := []; isCore := false |}.

End Scenario.

Import Scenario.

Definition story_path : string :=
  "/home/u/proj/.lcagents/core/.bmad-core/templates/story.md".



(** The states a deletion of the custom template [foo.md] (under the name
    that climbs out of the core layer) goes through: after the check,
    after the backup, after the guarded deletion. *)
Definition checked (E : Env) : state :=
  snd (checkDependencies E manager foo_name "templates"
         (logged CallCheckDependencies start)).

Definition backed (E : Env) : state :=
  snd (createBackup E manager foo_name "templates" []
         (logged CallCreateBackup (checked E))).

Definition deleted (E : Env) : state :=
  snd (deleteAndUpdate E manager foo_name "templates" (fullOptions defaults) []
         (backed E)).

Definition restored (E : Env) : state :=
  snd (restoreBackup E manager foo_backup (logged (CallRestoreBackup foo_backup) (deleted E))).



Definition foo_location : fpath := lcagents ++ ["custom"; "templates"; "foo.md"].

Definition foo_backup_location : fpath :=
  ["home"; "u"; "custom"; "templates"; "foo.md-2024-01-02T03-04-05-678Z"].

(** * The rest of the program *)

(** ** LayerManager: reading and scaffolding *)

Section Scaffolding.

Context (E : Env).

Definition readResource (this : LayerManager) (resourceType resourceName : string)
  : M string :=
  let* resourcePath := getResourcePath E this resourceType resourceName in
  match Js.truthy resourcePath with
  | None => throw (Error ("Resource " +:+ resourceName +:+ " of type " +:+ resourceType
                            +:+ " not found"))
  | Some resourcePath => fs_readFile E resourcePath
  end.

Definition resourceTypes : list string :=
  ["agents"; "tasks"; "templates"; "workflows"; "utils"; "data"].

Definition createLayeredStructure (this : LayerManager) : M unit :=
  let layers := ["core"; "org"; "custom"] in
  for_of layers
    (fun _ layer =>
       let layerPath := Path.join [lcagentsPath this; layer] in
       let* _ := fs_ensureDir E layerPath in
       for_of resourceTypes
         (fun _ type =>
            let* _ := fs_ensureDir E (Path.join [layerPath; type]) in
            if negb (String.eqb layer "core") then
              fs_ensureDir E (Path.join [layerPath; type; "overrides"])
            else ret tt) tt) tt.

Definition createVirtualResolutionSystem (this : LayerManager) (coreSystemName : string)
  : M unit :=
  let vrPath := Path.join [lcagentsPath this; "virtual"] in
  let* _ := fs_ensureDir E vrPath in
  let coreSystemPath := Path.join [lcagentsPath this; "core"; "." +:+ coreSystemName] in
  let* present := fs_pathExists E coreSystemPath in
  if negb present then throw (Error ("Core system " +:+ coreSystemName +:+ " not found"))
  else
    for_of resourceTypes
      (fun _ type => fs_ensureDir E (Path.join [vrPath; type])) tt.

End Scaffolding.

(** ** Stores that are trees *)

(** Every entry but the root sits in a directory. *)
Definition well_formed (fs : store) : Prop :=
  forall p e, fs !! p = Some e -> p <> [] -> fs !! Fs.parent p = Some Dir.

(** Every name on the way to an entry is an ordinary path segment. *)
Definition well_named (fs : store) : Prop :=
  forall p e, fs !! p = Some e -> Forall Path.is_segment p.

(** The directories [createLayeredStructure] makes, below [.lcagents]. *)
Definition layered_dirs : list fpath :=
  flat_map (fun layer =>
              [layer] ::
              flat_map (fun type =>
                          [layer; type] ::
                          (if String.eqb layer "core" then [] else [[layer; type; "overrides"]]))
                       resourceTypes)
           ["core"; "org"; "custom"].

(** [fs'] has every entry of [fs] as it was, and besides them only
    directories. *)
Definition only_adds_dirs (fs fs' : store) : Prop :=
  (forall k e, fs !! k = Some e -> fs' !! k = Some e) /\
  (forall k e, fs' !! k = Some e -> fs !! k = None -> e = Dir).

(** No regular file is at [p] or on the way to it. *)
Definition clear_way (fs : store) (p : fpath) : Prop :=
  forall k c, under k p = true -> fs !! k <> Some (File c).

(** [p] and everything on the way to it are directories. *)
Definition settled (fs : store) (p : fpath) : Prop :=
  forall k, under k p = true -> fs !! k = Some Dir.

(** A computation that, however it ends, leaves every entry as it was
    and adds only directories. *)
Definition builds {A} (m : M A) : Prop :=
  forall st, only_adds_dirs (files st) (files (snd (m st))).

(** [clear_way], decided. *)
Definition clear_wayb (fs : store) (p : fpath) : bool :=
  forallb (fun i => match fs !! firstn i p with
                    | Some (File _) => false
                    | _ => true
                    end) (seq 0 (S (length p))).

(** [settled], decided. *)
Definition settledb (fs : store) (p : fpath) : bool :=
  forallb (fun i => match fs !! firstn i p with
                    | Some Dir => true
                    | _ => false
                    end) (seq 0 (S (length p))).

(** ** The layers of a resource type *)

(** The directory of resource type [type] in [layer], as the program
    names it and as the store has it below the location [L] of
    [.lcagents]. *)
Definition layer_dir (this : LayerManager) (ac type : string) (layer : LayerType) : string :=
  match layer with
  | core => Path.join [lcagentsPath this; "core"; "." +:+ ac; type]
  | org => Path.join [lcagentsPath this; "org"; type]
  | custom => Path.join [lcagentsPath this; "custom"; type]
  end.

Definition layer_location (L : fpath) (ac type : string) (layer : LayerType) : fpath :=
  match layer with
  | core => L ++ ["core"; "." +:+ ac; type]
  | org => L ++ ["org"; type]
  | custom => L ++ ["custom"; type]
  end.

(** [r] is what [listResources] reports for an entry of [layer]. *)
Definition listed_from (this : LayerManager) (L : fpath) (ac type : string) (fs : store)
           (layer : LayerType) (r : ResourceWithSource) : Prop :=
  exists n,
    fs !! layer_location L ac type layer = Some Dir /\
    is_Some (fs !! (layer_location L ac type layer ++ [n])) /\
    r = {| rws_name := n;
           rws_path := Path.join [layer_dir this ac type layer; n];
           rws_source := layer |}.

(** What [listResources] reports for [layer]: an entry for each name the
    directory of the type holds there, in the order the directory is
    listed; nothing where there is no such directory. *)
Definition layer_listing (this : LayerManager) (L : fpath) (ac type : string) (fs : store)
           (layer : LayerType) : list ResourceWithSource :=
  match fs !! layer_location L ac type layer with
  | Some Dir =>
      map (fun n => {| rws_name := n;
                       rws_path := Path.join [layer_dir this ac type layer; n];
                       rws_source := layer |})
          (Fs.children fs (layer_location L ac type layer))
  | _ => []
  end.

(** ** Text *)

(** The store holds the bytes of a file.  Read as [utf-8] they become
    text, and text written becomes bytes again: for well-formed UTF-8
    these are the bytes read, and the model reads and writes them as
    they are.  (For other bytes the text holds U+FFFD where nothing could
    be decoded; properties that depend on the bytes written back are
    stated for well-formed files.) *)
Module Utf8.

Definition within (lo hi : nat) (c : ascii) : bool :=
  Nat.leb lo (nat_of_ascii c) && Nat.leb (nat_of_ascii c) hi.

Definition continuation : ascii -> bool := within 128 191.

(** Well-formed UTF-8 byte sequences (the Unicode Standard, table 3-7). *)
Fixpoint valid (s : string) : bool :=
  match s with
  | EmptyString => true
  | String a r =>
      if within 0 127 a then valid r
      else
        match r with
        | EmptyString => false
        | String b r2 =>
            if within 194 223 a then continuation b && valid r2
            else
              match r2 with
              | EmptyString => false
              | String c r3 =>
                  if within 224 224 a && within 160 191 b
                     || within 225 236 a && continuation b
                     || within 237 237 a && within 128 159 b
                     || within 238 239 a && continuation b
                  then continuation c && valid r3
                  else
                    match r3 with
                    | EmptyString => false
                    | String d r4 =>
                        (within 240 240 a && within 144 191 b
                         || within 241 243 a && continuation b
                         || within 244 244 a && within 128 143 b)
                        && continuation c && continuation d && valid r4
                    end
              end
        end
  end.

End Utf8.

(** ** Backups *)

(** The original path a backup directory [b] records in its
    [metadata.json], read as [restoreBackup] reads it. *)
Definition recorded_original (E : Env) (b : string) (fs : store) : option string :=
  match resolve E (Path.join [b; "metadata.json"]) with
  | Some Mr =>
      match fs !! Mr with
      | Some (File text) =>
          match JSON_parse E text with
          | Some j =>
              match json_get "originalPath" j with
              | Some (JStr P) => Some P
              | _ => None
              end
          | None => None
          end
      | _ => None
      end
  | None => None
  end.

(** Options of a deletion without backup. *)
Definition unguarded : PartialDeleteOptions :=
  {| opt_force := None; opt_updateDeps := None; opt_skipBackup := Some true |}.

(** The manager of the project, used by a process started two
    directories above the project. *)
Definition away : Env :=
  {| cwd := ["home"];
     activeCoreSystem := Some "bmad-core";
     getResourceMetadata := Scenario.metadata;
     now := "2024-01-02T03:04:05.678Z";
     JSON_stringify := Scenario.print;
     JSON_parse := Scenario.read [Scenario.foo_document];
     io_fault := Scenario.no_fault |}.
(** ** The stand-alone uninstaller *)

(** The calls of Node's own [fs] the uninstaller makes.  The store holds
    regular files and directories; symbolic links, which [fs.stat]
    follows, are not part of it: what is proved of the uninstaller is
    proved of trees without them. *)
Module NodeFs.

(** The error for a path that names nothing: [ENOTDIR] where a regular
    file is on the way to it, [ENOENT] otherwise. *)
Definition missing (shown : string) (p : fpath) (fs : store) : error :=
  SystemError (if clear_wayb fs (Fs.parent p) then "ENOENT" else "ENOTDIR") shown.

(** [fs.stat]: what is at [p]. *)
Definition stat (shown : string) (p : fpath) (fs : store) : result entry :=
  match fs !! p with
  | Some e => OK e
  | None => Err (missing shown p fs)
  end.

(** [fs.rmdir]: an empty directory only. *)
Definition rmdir (shown : string) (p : fpath) (fs : store) : result store :=
  match fs !! p with
  | Some Dir =>
      match Fs.children fs p with
      | [] => OK (delete p fs)
      | _ => Err (SystemError "ENOTEMPTY" shown)
      end
  | Some (File _) => Err (SystemError "ENOTDIR" shown)
  | None => Err (missing shown p fs)
  end.

(** [fs.unlink]: a regular file only. *)
Definition unlink (shown : string) (p : fpath) (fs : store) : result store :=
  match fs !! p with
  | Some (File _) => OK (delete p fs)
  | Some Dir => Err (SystemError "EISDIR" shown)
  | None => Err (missing shown p fs)
  end.

End NodeFs.

(** [error.code] *)
Definition error_code (e : error) : option string :=
  match e with
  | SystemError code _ => Some code
  | _ => None
  end.

(** [error.code === code] *)
Definition code_is (e : error) (code : string) : bool :=
  match error_code e with
  | Some c => String.eqb c code
  | None => false
  end.

(** [s.split(sep)] for a separator of one character. *)
Fixpoint split_on (sep : ascii) (s : string) : list string :=
  match s with
  | EmptyString => [EmptyString]
  | String c s' =>
      if Ascii.eqb c sep then EmptyString :: split_on sep s'
      else match split_on sep s' with
           | [] => [String c EmptyString]
           | x :: r => String c x :: r
           end
  end.

Definition newline : ascii := ascii_of_nat 10.

Definition nl : string := String newline EmptyString.


(** What the process is started with. *)
Record Host : Type := {
  (** [os.homedir()] *)
  homedir : string;
  (** [process.env.SHELL] *)
  env_SHELL : option string;
  (** [process.argv] *)
  argv : list string;
  (** what [require('../../../config/repository.json').repository.url]
      evaluates to, as the text a template literal makes of it, or the
      error thrown on the way *)
  repoUrl : result string;
  (** a write refused at the [n]th call of the run: [None] when it is
      refused before the file is opened, and otherwise the number of
      characters that had reached the file, opened and so emptied, by
      then *)
  torn : nat -> option nat
}.

(** What [removeShellAlias] returns. *)
Record AliasResult : Type := {
  success : bool;
  message : string
}.

(** How a command ends: its action returns, or [process.exit(code)] is
    called. *)
Inductive outcome : Type :=
| Returned
| Exited (code : nat).

(** The lines written by [console.log] and by [console.error]. *)
Record terminal : Type := {
  stdout : list string;
  stderr : list string
}.

(** Computations that also write to the terminal. *)
Definition P (A : Type) : Type := terminal * state -> result A * (terminal * state).

Definition retP {A} (a : A) : P A := fun w => (OK a, w).

Definition bindP {A B} (m : P A) (k : A -> P B) : P B :=
  fun w =>
    match m w with
    | (OK a, w') => k a w'
    | (Err e, w') => (Err e, w')
    end.

Definition try_catchP {A} (body : P A) (handler : error -> P A) : P A :=
  fun w =>
    match body w with
    | (OK a, w') => (OK a, w')
    | (Err e, w') => handler e w'
    end.

Notation "'let+' x ':=' m 'in' k" := (bindP m (fun x => k))
  (at level 10, x name, m at level 100, k at level 200).

Fixpoint for_ofP {A B} (xs : list A) (body : B -> A -> P B) (acc : B) : P B :=
  match xs with
  | [] => retP acc
  | x :: r => let+ acc' := body acc x in for_ofP r body acc'
  end.

Definition liftP {A} (m : M A) : P A :=
  fun w => let (r, st') := m (snd w) in (r, (fst w, st')).

Definition console_log (line : string) : P unit :=
  fun w => (OK tt, ({| stdout := stdout (fst w) ++ [line]; stderr := stderr (fst w) |},
                    snd w)).

Definition console_error (line : string) : P unit :=
  fun w => (OK tt, ({| stdout := stdout (fst w); stderr := stderr (fst w) ++ [line] |},
                    snd w)).

Section Uninstaller.

Context (E : Env) (H : Host).

Definition fs_stat (p : string) : M entry := fs_read E p (NodeFs.stat p).

Definition fs_rmdir (p : string) : M unit := fs_write E p (NodeFs.rmdir p).

Definition fs_unlink (p : string) : M unit := fs_write E p (NodeFs.unlink p).

Definition esc : string := String (ascii_of_nat 27) EmptyString.

(** [colors[color]]; a name that is no key gives [undefined]. *)
Definition colors (color : string) : string :=
  if String.eqb color "reset" then esc +:+ "[0m"
  else if String.eqb color "bright" then esc +:+ "[1m"
  else if String.eqb color "red" then esc +:+ "[31m"
  else if String.eqb color "green" then esc +:+ "[32m"
  else if String.eqb color "yellow" then esc +:+ "[33m"
  else if String.eqb color "cyan" then esc +:+ "[36m"
  else if String.eqb color "gray" then esc +:+ "[90m"
  else "undefined".

Definition colorize (color text : string) : string :=
  colors color +:+ text +:+ colors "reset".

(** [removeRecursive].  The recursion follows the tree below
    [targetPath]; [fuel] bounds its depth, and [None] is returned when it
    runs out. *)
Fixpoint removeRecursive (fuel : nat) (targetPath : string) : M (option unit) :=
  match fuel with
  | O => ret None
  | S fuel' =>
      try_catch
        (let* stats := fs_stat targetPath in
         if is_dir stats then
           let* files := fs_readdir E targetPath in
           let* done :=
             for_of files
               (fun done file =>
                  match done with
                  | None => ret None
                  | Some _ => removeRecursive fuel' (Path.join [targetPath; file])
                  end) (Some tt) in
           match done with
           | None => ret None
           | Some _ =>
               let* _ := fs_rmdir targetPath in
               ret (Some tt)
           end
         else
           let* _ := fs_unlink targetPath in
           ret (Some tt))
        (fun error =>
           if negb (code_is error "ENOENT") then throw error else ret (Some tt))
  end.

(** [s.slice(0, n)] *)
Fixpoint take_chars (n : nat) (s : string) : string :=
  match n, s with
  | S n', String c s' => String c (take_chars n' s')
  | _, _ => EmptyString
  end.

(** [promisify(fs.writeFile)(p, content)]: the file is opened for
    writing, which creates or empties it, and the text is written.  A
    call refused once the file is open leaves in it what had been written
    by then. *)
Definition node_writeFile (p content : string) : M unit :=
  fun st =>
    match io_fault E (ticks st) with
    | Some e =>
        (Err e,
         match torn H (ticks st), resolve E p with
         | Some n, Some q =>
             match Fs.writeFile p q (take_chars n content) (files st) with
             | OK fs' => set_files fs' (tick st)
             | Err _ => tick st
             end
         | _, _ => tick st
         end)
    | None => fs_writeFile E p content st
    end.

(** The uninstaller's own [pathExists]. *)
Definition pathExists (targetPath : string) : M bool :=
  try_catch (let* _ := fs_stat targetPath in ret true) (fun _ => ret false).

Definition aliased (line : string) : bool :=
  Js.includes line "alias lcagent=" || Js.includes line "# LCAgents alias for easy access".

(** The first part of [removeShellAlias]: the configuration file of the
    shell and the name of the shell, or nothing for a shell that is
    neither [zsh] nor [bash]. *)
Definition shellConfig : M (option (string * string)) :=
  let homeDir := homedir H in
  let shell := default "" (Js.truthy (env_SHELL H)) in
  if Js.includes shell "zsh" then
    ret (Some (Path.join [homeDir; ".zshrc"], "zsh"))
  else if Js.includes shell "bash" then
    let bashProfile := Path.join [homeDir; ".bash_profile"] in
    let bashrc := Path.join [homeDir; ".bashrc"] in
    let* profile := pathExists bashProfile in
    ret (Some (if profile then bashProfile else bashrc, "bash"))
  else ret None.

Definition removeShellAlias : M AliasResult :=
  try_catch
    (let* chosen := shellConfig in
     match chosen with
     | None =>
         ret {| success := false;
                message := "Unsupported shell detected - manually remove lcagent alias" |}
     | Some (configFile, shellName) =>
         let* present := pathExists configFile in
         if negb present then
           ret {| success := true; message := "No shell configuration file found" |}
         else
           let* content := fs_readFile E configFile in
           if negb (Js.includes content "alias lcagent=") then
             ret {| success := true;
                    message := "No lcagent alias found in shell configuration" |}
           else
             let lines := split_on newline content in
             let filteredLines := List.filter (fun line => negb (aliased line)) lines in
             let* _ := node_writeFile configFile (Js.join nl filteredLines) in
             ret {| success := true;
                    message := "Alias removed from " +:+ shellName +:+ " configuration" |}
     end)
    (fun _ =>
       ret {| success := false;
              message := "Failed to remove shell alias - manually remove lcagent alias" |}).

(** [process.cwd()] *)
Definition process_cwd : string := Path.render true (cwd E) false.

(** [process.argv.includes('--force') || process.argv.includes('-f')] *)
Definition forceFlag : bool :=
  existsb (String.eqb "--force") (argv H) || existsb (String.eqb "-f") (argv H).

(** One round of the two loops of [main] over file names. *)
Definition remove_listed (fuel : nat) (dir : string) (done : option unit) (name : string)
  : P (option unit) :=
  match done with
  | None => retP None
  | Some _ =>
      let path := Path.join [dir; name] in
      let+ present := liftP (pathExists path) in
      if present then
        let+ removed := liftP (removeRecursive fuel path) in
        match removed with
        | None => retP None
        | Some _ =>
            let+ _ := console_log (colorize "gray" ("   ✓ Removed " +:+ name)) in
            retP (Some tt)
        end
      else retP (Some tt)
  end.

(** [main]; [None] when the fuel of a [removeRecursive] ran out.  Nothing
    outside its [try] throws, so that the handler the script attaches to
    the promise of [main] is never run. *)
Definition main (fuel : nat) : P (option outcome) :=
  let+ _ := console_log (colorize "cyan" "🔧 LCAgents Uninstaller") in
  let+ _ := console_log (colorize "gray" "github:jmaniLC/lcagents ver2.2") in
  let+ _ := console_log "" in
  let currentDir := process_cwd in
  let lcagentsDir := Path.join [currentDir; ".lcagents"] in
  let+ installed := liftP (pathExists lcagentsDir) in
  if negb installed then
    let+ _ := console_log (colorize "yellow" "LCAgents is not installed in this directory") in
    retP (Some Returned)
  else
    if negb forceFlag then
      let+ _ := console_log
                  (colorize "yellow"
                     "⚠️  This will remove LCAgents from the current directory") in
      let+ _ := console_log
                  (colorize "gray" "   To proceed without confirmation, use: --force") in
      let+ _ := console_log "" in
      let+ _ := console_log
                  (colorize "red" "❌ Uninstall cancelled (use --force to proceed)") in
      retP (Some Returned)
    else
      let+ _ := console_log (colorize "bright" "🗑️  Removing LCAgents...") in
      try_catchP
        (let+ removed := liftP (removeRecursive fuel lcagentsDir) in
         match removed with
         | None => retP None
         | Some _ =>
             let+ _ := console_log (colorize "gray" "   ✓ Removed .lcagents directory") in
             let githubWorkflowsDir := Path.join [currentDir; ".github"; "workflows"] in
             let lcagentsWorkflows := ["lcagents-validation.yml"; "lcagents-docs.yml"] in
             let+ done := for_ofP lcagentsWorkflows
                            (remove_listed fuel githubWorkflowsDir) (Some tt) in
             match done with
             | None => retP None
             | Some _ =>
                 let githubTemplatesDir :=
                   Path.join [currentDir; ".github"; "ISSUE_TEMPLATE"] in
                 let lcagentsTemplates := ["agent-request.md"; "bug-report.md"] in
                 let+ done := for_ofP lcagentsTemplates
                                (remove_listed fuel githubTemplatesDir) (Some tt) in
                 match done with
                 | None => retP None
                 | Some _ =>
                     let+ _ := console_log "" in
                     let+ _ := console_log
                                 (colorize "green" "✅ LCAgents completely removed") in
                     let+ _ := console_log "" in
                     let+ repoUrl := (fun w => (repoUrl H, w)) in
                     let+ _ := console_log
                                 (colorize "gray"
                                    ("To reinstall: npx git+" +:+ repoUrl +:+ " init")) in
                     retP (Some Returned)
                 end
             end
         end)
        (fun error =>
           let+ _ := console_log "" in
           let+ _ := console_log (colorize "red" "❌ Failed to remove LCAgents") in
           let+ _ := console_error (colorize "red" "Error:" +:+ " " +:+ error_message error) in
           retP (Some (Exited 1))).

End Uninstaller.

(** Whatever the store holds at or below [p] is at most [n] levels below
    it. *)
Definition shallow (fs : store) (p : fpath) (n : nat) : Prop :=
  forall k, under p k = true -> is_Some (fs !! k) -> length k <= length p + n.

(** [well_formed] and [well_named], as checks. *)
Definition well_formedb (fs : store) : bool :=
  forallb (fun pe : fpath * entry =>
             match fst pe with
             | [] => true
             | _ => match fs !! Fs.parent (fst pe) with
                    | Some Dir => true
                    | _ => false
                    end
             end) (map_to_list fs).

Definition well_namedb (fs : store) : bool :=
  forallb (fun pe : fpath * entry => forallb Path.segmentb (fst pe)) (map_to_list fs).

(** [fs'] is [fs] without some of what it holds in [region]. *)
Definition shrinks (region : fpath -> bool) (fs fs' : store) : Prop :=
  (forall k e, fs' !! k = Some e -> fs !! k = Some e) /\
  (forall k, region k = false -> fs' !! k = fs !! k).

(** A tree of plain names, of depth [n] at most. *)
Definition sound_tree (n : nat) (fs : store) : Prop :=
  well_formed fs /\ well_named fs /\ shallow fs [] n.

(** [m] takes nothing away but in [region], and adds nothing. *)
Definition confined {A} (region : fpath -> bool) (m : P A) : Prop :=
  forall w, well_named (files (snd w)) ->
            shrinks region (files (snd w)) (files (snd (snd (m w)))).

(** What [main] is written to remove: the installation and four files of
    [.github]. *)
Definition removed_by_main (E : Env) : list fpath :=
  [cwd E ++ [".lcagents"];
   cwd E ++ [".github"; "workflows"; "lcagents-validation.yml"];
   cwd E ++ [".github"; "workflows"; "lcagents-docs.yml"];
   cwd E ++ [".github"; "ISSUE_TEMPLATE"; "agent-request.md"];
   cwd E ++ [".github"; "ISSUE_TEMPLATE"; "bug-report.md"]].

Definition in_region (ps : list fpath) (k : fpath) : bool :=
  existsb (fun p => under p k) ps.

(** The project of the scenario with files of its own under [.github],
    beside two of those the installer put there. *)
Module Installed.

Import Scenario.

Definition github : fpath := project ++ [".github"].

Definition zshrc : string :=
  Js.join nl ["export EDITOR=vi"; "# LCAgents alias for easy access";
              "alias lcagent='npx lcagents'"; "export PAGER=less"].

Definition tree : store :=
  <[ ["home"; "u"; ".zshrc"] := File zshrc ]>
  (<[ github ++ ["workflows"; "lcagents-docs.yml"] := File "docs" ]>
  (<[ github ++ ["workflows"; "ci.yml"] := File "ci" ]>
  (<[ github ++ ["workflows"] := Dir ]>
  (<[ github ++ ["ISSUE_TEMPLATE"; "bug-report.md"] := File "bug" ]>
  (<[ github ++ ["ISSUE_TEMPLATE"] := Dir ]>
  (<[ github := Dir ]> Scenario.tree)))))).

Definition start : state := {| files := tree; ticks := 0; calls := []; console := [] |}.

(** The script run as [node uninstall.js args] from a [zsh]; the
    repository configuration it requires is not beside it. *)
Definition host (args : list string) : Host :=
  {| homedir := "/home/u";
     env_SHELL := Some "/bin/zsh";
     argv := "node" :: "uninstall.js" :: args;
     repoUrl := Err (Error "Cannot find module '../../../config/repository.json'");
     torn := fun _ => None |}.

Definition silent : terminal := {| stdout := []; stderr := [] |}.

End Installed.

(** * Properties *)

(** ** The run-time functions on examples *)

Example split_ex : Path.split "a//b/" = ["a"; ""; "b"; ""].
Proof. reflexivity. Qed.
Example join_ex1 : Path.join ["/foo"; "bar"; "baz/asdf"; "quux"; ".."] = "/foo/bar/baz/asdf".
Proof. reflexivity. Qed.
Example join_ex2 : Path.join [""; ".lcagents"] = ".lcagents".
Proof. reflexivity. Qed.
Example join_ex3 : Path.join ["a"; "../../b/"] = "../b/".
Proof. reflexivity. Qed.
Example dirname_ex1 : Path.dirname "/a/b/c.md" = "/a/b".
Proof. reflexivity. Qed.
Example dirname_ex2 : Path.dirname "/a" = "/".
Proof. reflexivity. Qed.
Example dirname_ex3 : Path.dirname "a//b" = "a/".
Proof. reflexivity. Qed.
Example dirname_ex4 : Path.dirname "//a" = "//".
Proof. reflexivity. Qed.
Example dirname_ex5 : Path.dirname "a" = ".".
Proof. reflexivity. Qed.
Example dirname_ex6 : Path.dirname "/a/b/" = "/a".
Proof. reflexivity. Qed.
Example basename_ex1 : Path.basename "/a/b/c.md" = "c.md".
Proof. reflexivity. Qed.
Example basename_ex2 : Path.basename "/a/b/" = "b".
Proof. reflexivity. Qed.
Example replace_ex : Js.replace "x.mdfoo.md" ".md" "" = "xfoo.md".
Proof. reflexivity. Qed.
Example endsWith_ex : Js.endsWith "pm.md" ".md" = true.
Proof. reflexivity. Qed.

(** ** Strings and paths *)

Lemma append_cons (c : ascii) (a b : string) : String c a +:+ b = String c (a +:+ b).
Proof. reflexivity. Qed.

Lemma append_empty_l (a : string) : "" +:+ a = a.
Proof. reflexivity. Qed.

Lemma append_assoc (a b c : string) : (a +:+ b) +:+ c = a +:+ (b +:+ c).
Proof.
  induction a as [| x a IH]; [reflexivity |].
  rewrite !append_cons. now f_equal.
Qed.

Lemma append_empty_r (a : string) : a +:+ "" = a.
Proof.
  induction a as [| x a IH]; [reflexivity |].
  rewrite append_cons. now f_equal.
Qed.

Lemma startsWith_append (s r : string) : Js.startsWith (s +:+ r) s = true.
Proof.
  induction s as [| x s IH]; [now destruct r |].
  rewrite append_cons. cbn [Js.startsWith]. now rewrite Ascii.eqb_refl, IH.
Qed.

Lemma includes_startsWith (s n : string) :
  Js.startsWith s n = true -> Js.includes s n = true.
Proof. intros H. destruct s; cbn [Js.includes]; now rewrite H. Qed.

Lemma includes_append (a n b : string) : Js.includes (a +:+ n +:+ b) n = true.
Proof.
  induction a as [| x a IH].
  - rewrite append_empty_l. apply includes_startsWith, startsWith_append.
  - rewrite append_cons. cbn [Js.includes]. rewrite IH. apply orb_true_r.
Qed.

Lemma split_not_nil (s : string) : Path.split s <> [].
Proof.
  destruct s as [| c s]; cbn; [discriminate |].
  destruct (Js.is_slash c); [discriminate |].
  destruct (Path.split s); discriminate.
Qed.

Lemma split_append_slash (a b : string) :
  Path.split (a +:+ "/" +:+ b) = Path.split a ++ Path.split b.
Proof.
  induction a as [| c a IH]; [reflexivity |].
  rewrite append_cons. cbn [Path.split]. rewrite IH.
  destruct (Js.is_slash c); [reflexivity |].
  destruct (Path.split a) eqn:Ha; [now apply split_not_nil in Ha | reflexivity].
Qed.

Lemma split_no_slash (s : string) : Path.has_slash s = false -> Path.split s = [s].
Proof.
  induction s as [| c s IH]; [reflexivity |].
  cbn. destruct (Js.is_slash c); [discriminate |]. cbn. intros H. now rewrite IH.
Qed.

Lemma split_has_no_slash (s : string) :
  Forall (fun x => Path.has_slash x = false) (Path.split s).
Proof.
  induction s as [| c s IH]; cbn.
  - repeat constructor.
  - destruct (Js.is_slash c) eqn:Hc.
    + constructor; [reflexivity | exact IH].
    + destruct (Path.split s) as [| y r].
      * repeat constructor. cbn. now rewrite Hc.
      * inversion IH as [| ? ? Hy Hr]; subst. constructor; [| exact Hr].
        cbn. now rewrite Hc.
Qed.

Lemma join_cons (x y : string) (r : list string) :
  Js.join "/" (x :: y :: r) = x +:+ "/" +:+ Js.join "/" (y :: r).
Proof. reflexivity. Qed.

Lemma join_app (l r : list string) :
  l <> [] -> r <> [] ->
  Js.join "/" (l ++ r) = Js.join "/" l +:+ "/" +:+ Js.join "/" r.
Proof.
  intros Hl Hr. induction l as [| x l IH]; [congruence |].
  destruct l as [| y l].
  - destruct r; [congruence | reflexivity].
  - change ((x :: y :: l) ++ r) with (x :: y :: (l ++ r)).
    rewrite (join_cons x y (l ++ r)), (join_cons x y l), !append_assoc.
    do 2 f_equal. apply IH. discriminate.
Qed.

Lemma split_join (l : list string) :
  l <> [] -> Forall (fun x => Path.has_slash x = false) l ->
  Path.split (Js.join "/" l) = l.
Proof.
  intros Hl Hall. induction Hall as [| x l Hx Hall IH]; [congruence |].
  destruct l as [| y l].
  - now apply split_no_slash.
  - rewrite join_cons, split_append_slash, split_no_slash by exact Hx.
    rewrite IH by discriminate. reflexivity.
Qed.

Lemma segment_inv (s : string) :
  Path.is_segment s ->
  s <> "" /\ s <> "." /\ s <> ".." /\ Path.has_slash s = false.
Proof.
  unfold Path.is_segment, Path.segmentb. intros H.
  apply andb_prop in H as [H H4]. apply andb_prop in H as [H H3].
  apply andb_prop in H as [H1 H2].
  apply negb_true_iff in H1, H2, H3, H4.
  apply String.eqb_neq in H1, H2, H3. auto.
Qed.

Lemma segment_intro (s : string) :
  s <> "" -> s <> "." -> s <> ".." -> Path.has_slash s = false -> Path.is_segment s.
Proof.
  intros H1 H2 H3 H4. unfold Path.is_segment, Path.segmentb.
  apply String.eqb_neq in H1, H2, H3. now rewrite H1, H2, H3, H4.
Qed.

Lemma norm_step_segment (above : bool) (res : list string) (s : string) :
  Path.is_segment s -> Path.norm_step above res s = s :: res.
Proof.
  intros H. apply segment_inv in H as (H1 & H2 & H3 & _).
  apply String.eqb_neq in H1, H2, H3. unfold Path.norm_step.
  now rewrite H1, H2, H3.
Qed.

Lemma norm_segments_segments (above : bool) (l acc : list string) :
  Forall Path.is_segment l -> Path.norm_segments above l acc = rev l ++ acc.
Proof.
  intros Hl. revert acc. induction Hl as [| x l Hx Hl IH]; intros acc; [reflexivity |].
  cbn [Path.norm_segments fold_left]. rewrite norm_step_segment by exact Hx.
  unfold Path.norm_segments in IH. rewrite IH. cbn [rev]. now rewrite <- app_assoc.
Qed.

Lemma norm_step_ok (above : bool) (stk : list string) (x : string) :
  Path.has_slash x = false -> stack_ok above stk ->
  stack_ok above (Path.norm_step above stk x).
Proof.
  intros Hx Hok. unfold Path.norm_step.
  destruct (String.eqb_spec x "") as [-> | H1]; [exact Hok |].
  destruct (String.eqb_spec x ".") as [-> | H2]; [exact Hok |]. cbn [orb].
  destruct (String.eqb_spec x "..") as [-> | H3].
  - destruct stk as [| top rest].
    + destruct above eqn:Ha; [| constructor].
      apply stack_up; [reflexivity | constructor | constructor].
    + destruct (String.eqb_spec top "..") as [-> | Htop].
      * destruct above eqn:Ha; [| exact Hok].
        inversion Hok as [| ? ? Hseg Hrest | ? _ Hups Hrest]; subst.
        -- now apply segment_inv in Hseg as (_ & _ & ? & _).
        -- apply stack_up; [reflexivity | now constructor | exact Hok].
      * inversion Hok as [| ? ? Hseg Hrest | ? _ Hups Hrest]; subst;
          [assumption | congruence].
  - apply stack_seg; [now apply segment_intro | exact Hok].
Qed.

Lemma norm_segments_ok (above : bool) (l stk : list string) :
  Forall (fun x => Path.has_slash x = false) l -> stack_ok above stk ->
  stack_ok above (Path.norm_segments above l stk).
Proof.
  intros Hl. revert stk. induction Hl as [| x l Hx Hl IH]; intros stk Hok; [exact Hok |].
  cbn. apply IH. now apply norm_step_ok.
Qed.

Lemma norm_segments_snoc (above : bool) (l acc : list string) (x : string) :
  Path.norm_segments above (l ++ [x]) acc =
  Path.norm_step above (Path.norm_segments above l acc) x.
Proof. unfold Path.norm_segments. now rewrite fold_left_app. Qed.

Lemma norm_segments_app (above : bool) (l r acc : list string) :
  Path.norm_segments above (l ++ r) acc =
  Path.norm_segments above r (Path.norm_segments above l acc).
Proof. unfold Path.norm_segments. now rewrite fold_left_app. Qed.

(** Normalising what was kept gives it back. *)
Lemma norm_segments_rev_id (above : bool) (stk : list string) :
  stack_ok above stk -> Path.norm_segments above (rev stk) [] = stk.
Proof.
  induction 1 as [| s stk Hs Hok IH | stk Ha Hups Hok IH].
  - reflexivity.
  - cbn [rev]. rewrite norm_segments_snoc, IH. now apply norm_step_segment.
  - cbn [rev]. rewrite norm_segments_snoc, IH. subst above.
    destruct Hups as [| t r Ht Hr]; [reflexivity |]. now subst t.
Qed.

(** Resolving a relative path against a directory gives the same place
    whether or not the path was normalised first. *)
Lemma absorb_step (stk base : list string) (x : string) :
  stack_ok true stk -> Path.has_slash x = false ->
  fold_left (Path.norm_step false) (rev (Path.norm_step true stk x)) base =
  Path.norm_step false (fold_left (Path.norm_step false) (rev stk) base) x.
Proof.
  intros Hok Hx.
  destruct (String.eqb_spec x "") as [-> | H1]; [reflexivity |].
  destruct (String.eqb_spec x ".") as [-> | H2]; [reflexivity |].
  destruct (String.eqb_spec x "..") as [-> | H3].
  - destruct stk as [| top rest]; [reflexivity |].
    destruct (String.eqb_spec top "..") as [-> | Htop].
    + change (Path.norm_step true (".." :: rest) "..") with (".." :: ".." :: rest).
      change (rev (".." :: ".." :: rest)) with (rev (".." :: rest) ++ [".."]).
      rewrite fold_left_app. reflexivity.
    + assert (Hseg : Path.is_segment top).
      { inversion Hok as [| ? ? Hs Hrest | ? _ Hups Hrest]; subst;
          [assumption | congruence]. }
      assert (Hstep : Path.norm_step true (top :: rest) ".." = rest).
      { unfold Path.norm_step. cbn. apply String.eqb_neq in Htop. now rewrite Htop. }
      rewrite Hstep. cbn [rev]. rewrite fold_left_app. cbn [fold_left].
      rewrite (norm_step_segment false _ top) by exact Hseg.
      unfold Path.norm_step. cbn. apply String.eqb_neq in Htop. now rewrite Htop.
  - rewrite (norm_step_segment true) by now apply segment_intro.
    cbn [rev]. rewrite fold_left_app. cbn [fold_left].
    now rewrite !norm_step_segment by now apply segment_intro.
Qed.

Lemma norm_segments_absorb (l stk base : list string) :
  stack_ok true stk ->
  Forall (fun x => Path.has_slash x = false) l ->
  Path.norm_segments false (rev (Path.norm_segments true l stk)) base =
  Path.norm_segments false l (Path.norm_segments false (rev stk) base).
Proof.
  intros Hok Hl. revert stk Hok. unfold Path.norm_segments.
  induction Hl as [| x l Hx Hl IH]; intros stk Hok; [reflexivity |].
  cbn [fold_left]. rewrite IH by now apply norm_step_ok. f_equal.
  now apply absorb_step.
Qed.

Lemma stack_ok_nonempty (above : bool) (stk : list string) :
  stack_ok above stk -> Forall (fun s => s <> "" /\ Path.has_slash s = false) stk.
Proof.
  induction 1 as [| s stk Hs Hok IH | stk Ha Hups Hok IH]; constructor; try assumption.
  - apply segment_inv in Hs. tauto.
  - split; [discriminate | reflexivity].
Qed.

Lemma isAbsolute_append (a b : string) : a <> "" -> Path.isAbsolute (a +:+ b) = Path.isAbsolute a.
Proof. destruct a; [congruence | reflexivity]. Qed.

Lemma list_ascii_append (a b : string) :
  list_ascii_of_string (a +:+ b) = list_ascii_of_string a ++ list_ascii_of_string b.
Proof.
  induction a as [| c a IH]; [reflexivity |].
  rewrite append_cons. cbn. now rewrite IH.
Qed.

Lemma trailing_slash_append (a b : string) :
  b <> "" -> Path.trailing_slash (a +:+ b) = Path.trailing_slash b.
Proof.
  intros Hb. unfold Path.trailing_slash. rewrite list_ascii_append, rev_app_distr.
  destruct b as [| c b]; [congruence |]. cbn [list_ascii_of_string rev].
  destruct (rev (list_ascii_of_string b)); reflexivity.
Qed.

Lemma has_slash_last (s : string) :
  Path.has_slash s = false -> Path.trailing_slash s = false.
Proof.
  unfold Path.trailing_slash. intros H.
  assert (Hall : Forall (fun c => Js.is_slash c = false) (list_ascii_of_string s)).
  { induction s as [| c s IH]; [constructor |].
    cbn in H. apply orb_false_iff in H as [Hc Hs]. constructor; auto. }
  apply Forall_rev in Hall. destruct (rev (list_ascii_of_string s)); [reflexivity |].
  now inversion Hall.
Qed.

Lemma segment_not_trailing (a s : string) :
  Path.is_segment s -> Path.trailing_slash (a +:+ s) = false.
Proof.
  intros Hs. apply segment_inv in Hs as (Hne & _ & _ & Hsl).
  rewrite trailing_slash_append by exact Hne. now apply has_slash_last.
Qed.

Lemma join_snoc (l : list string) (s : string) :
  Js.join "/" (l ++ [s]) = match l with [] => s | _ => Js.join "/" l +:+ "/" +:+ s end.
Proof.
  destruct l as [| x l]; [reflexivity |]. now rewrite join_app.
Qed.

Lemma render_not_empty (abs tr : bool) (segs : list string) :
  Forall (fun s => s <> "" /\ Path.has_slash s = false) segs ->
  Path.render abs segs tr <> "".
Proof.
  intros Hall. unfold Path.render. destruct segs as [| x segs].
  - destruct abs, tr; discriminate.
  - destruct abs; [discriminate |]. rewrite append_empty_l.
    inversion Hall as [| ? ? [Hx _] _]; subst.
    destruct x as [| c x]; [congruence |].
    destruct segs; cbn; discriminate.
Qed.

Lemma normalize_not_empty (p : string) : Path.normalize p <> "".
Proof.
  unfold Path.normalize. destruct p as [| c p]; [discriminate |].
  apply render_not_empty. apply Forall_rev.
  eapply stack_ok_nonempty, norm_segments_ok; [apply split_has_no_slash | constructor].
Qed.

Lemma join_not_empty (args : list string) : Path.join args <> "".
Proof.
  unfold Path.join. destruct (List.filter _ args); [discriminate |].
  apply normalize_not_empty.
Qed.

(** Joining an ordinary segment onto a non-empty path. *)
Lemma join_segment (a s : string) :
  a <> "" -> Path.is_segment s ->
  Path.join [a; s] =
  Path.render (Path.isAbsolute a)
    (rev (Path.norm_segments (negb (Path.isAbsolute a)) (Path.split a) []) ++ [s]) false.
Proof.
  intros Ha Hs. pose proof (segment_inv s Hs) as (Hs1 & _ & _ & Hs4).
  unfold Path.join. cbn [List.filter].
  apply String.eqb_neq in Ha as Ha', Hs1 as Hs1'. rewrite Ha', Hs1'. cbn [negb].
  change (Js.join "/" [a; s]) with (a +:+ "/" +:+ s).
  unfold Path.normalize.
  destruct (a +:+ "/" +:+ s) eqn:Heq; [destruct a; [congruence | discriminate] |].
  rewrite <- Heq. clear Heq.
  rewrite isAbsolute_append by exact Ha.
  rewrite <- append_assoc, segment_not_trailing by exact Hs. rewrite append_assoc.
  rewrite split_append_slash, (split_no_slash s) by exact Hs4.
  rewrite norm_segments_snoc, norm_step_segment by exact Hs. reflexivity.
Qed.

Lemma render_cons (abs tr : bool) (segs : list string) :
  segs <> [] ->
  Path.render abs segs tr =
  (if abs then "/" else "") +:+ Js.join "/" segs +:+ (if tr then "/" else "").
Proof. destruct segs; [congruence | reflexivity]. Qed.

Lemma no_slash_relative (s : string) : Path.has_slash s = false -> Path.isAbsolute s = false.
Proof. destruct s as [| c s]; [reflexivity |]. cbn. now intros [? ?]%orb_false_iff. Qed.

Lemma isAbsolute_render (abs tr : bool) (segs : list string) :
  Forall (fun s => s <> "" /\ Path.has_slash s = false) segs ->
  Path.isAbsolute (Path.render abs segs tr) = abs.
Proof.
  intros Hall. destruct segs as [| x segs].
  - destruct abs, tr; reflexivity.
  - rewrite render_cons by discriminate. destruct abs; [reflexivity |].
    rewrite append_empty_l. inversion Hall as [| ? ? [Hx Hsl] _]; subst.
    assert (Hj : exists r, Js.join "/" (x :: segs) = x +:+ r).
    { destruct segs; [exists ""; now rewrite append_empty_r | eexists; apply join_cons]. }
    destruct Hj as [r ->]. rewrite append_assoc, isAbsolute_append by exact Hx.
    now apply no_slash_relative.
Qed.

Lemma split_render (abs : bool) (segs : list string) :
  segs <> [] -> Forall (fun s => Path.has_slash s = false) segs ->
  Path.split (Path.render abs segs false) = (if abs then [""] else []) ++ segs.
Proof.
  intros Hne Hall. rewrite render_cons, append_empty_r by exact Hne.
  destruct abs.
  - rewrite append_cons, append_empty_l. cbn [Path.split Js.is_slash Ascii.eqb].
    change (Bool.eqb false false && _)%bool with true. cbn.
    now rewrite split_join.
  - rewrite append_empty_l. now apply split_join.
Qed.

Lemma norm_segments_skip_empty (above : bool) (l acc : list string) :
  Path.norm_segments above ((if above then [] else [""]) ++ l) acc =
  Path.norm_segments above l acc.
Proof. destruct above; reflexivity. Qed.

Lemma filter_nonempty (l : list string) :
  Forall (fun s => s <> "") l ->
  List.filter (fun a => negb (String.eqb a "")) l = l.
Proof.
  induction 1 as [| x l Hx Hl IH]; [reflexivity |].
  cbn. apply String.eqb_neq in Hx. now rewrite Hx, IH.
Qed.

Lemma join_segments_not_trailing (a : string) (l : list string) :
  l <> [] -> Forall Path.is_segment l ->
  Path.trailing_slash (a +:+ Js.join "/" l) = false.
Proof.
  intros Hne Hall. destruct (exists_last Hne) as (l' & z & ->).
  apply Forall_app in Hall as [_ Hz]. inversion Hz as [| ? ? Hz' _]; subst.
  rewrite join_snoc. destruct l'.
  - now apply segment_not_trailing.
  - rewrite <- !append_assoc. now apply segment_not_trailing.
Qed.

(** A path in normal form followed by ordinary segments is joined by
    plain concatenation. *)
Lemma join_normal_segments (abs : bool) (segs l : list string) :
  segs <> [] -> stack_ok (negb abs) (rev segs) ->
  l <> [] -> Forall Path.is_segment l ->
  Path.join (Path.render abs segs false :: l) =
  Path.render abs segs false +:+ "/" +:+ Js.join "/" l.
Proof.
  intros Hsegs Hok Hl Hall.
  pose proof (stack_ok_nonempty _ _ Hok) as Hne. apply Forall_rev in Hne.
  rewrite rev_involutive in Hne.
  assert (Hslash : Forall (fun s => Path.has_slash s = false) segs).
  { eapply Forall_impl; [exact Hne | now intros ? [_ ?]]. }
  assert (Hlslash : Forall (fun s => Path.has_slash s = false) l).
  { eapply Forall_impl; [exact Hall |]. intros s Hs. now apply segment_inv in Hs. }
  set (a := Path.render abs segs false).
  assert (Ha : a <> "") by now apply render_not_empty.
  unfold Path.join. rewrite filter_nonempty.
  2:{ constructor; [exact Ha |]. eapply Forall_impl; [exact Hall |].
      intros s Hs. now apply segment_inv in Hs. }
  assert (Hj : Js.join "/" (a :: l) = a +:+ "/" +:+ Js.join "/" l).
  { destruct l; [congruence | apply join_cons]. }
  rewrite Hj. unfold Path.normalize.
  destruct (a +:+ "/" +:+ Js.join "/" l) eqn:Heq; [destruct a; [congruence | discriminate] |].
  rewrite <- Heq. clear Heq.
  rewrite isAbsolute_append by exact Ha.
  rewrite <- append_assoc, join_segments_not_trailing by assumption.
  rewrite append_assoc, split_append_slash, split_join by assumption.
  unfold a at 1 2 3. rewrite isAbsolute_render by exact Hne.
  rewrite split_render by assumption.
  rewrite norm_segments_app.
  replace (Path.norm_segments (negb abs) ((if abs then [""] else []) ++ segs) [])
    with (rev segs).
  2:{ symmetry. rewrite <- (rev_involutive segs) at 1.
      rewrite <- (norm_segments_rev_id _ _ Hok) at 2.
      destruct abs; reflexivity. }
  rewrite norm_segments_segments by exact Hall.
  rewrite <- rev_app_distr, rev_involutive.
  rewrite !render_cons by (try exact Hsegs; destruct segs; [congruence | discriminate]).
  rewrite join_app by assumption. rewrite !append_empty_r.
  subst a. rewrite render_cons, append_empty_r by exact Hsegs.
  now rewrite !append_assoc.
Qed.

(** What [path.join(a, s)] looks like for an ordinary segment [s]: a path
    in normal form whose last segment is [s]. *)
Lemma join_segment_form (a s : string) :
  Path.is_segment s ->
  exists abs segs,
    stack_ok (negb abs) (rev (segs ++ [s])) /\
    Path.join [a; s] = Path.render abs (segs ++ [s]) false.
Proof.
  intros Hs. pose proof (segment_inv s Hs) as (Hs1 & _ & _ & Hs4).
  destruct (String.eqb_spec a "") as [-> | Ha].
  - exists false, []. split.
    + cbn. apply stack_seg; [exact Hs | constructor].
    + unfold Path.join. cbn [List.filter String.eqb negb].
      apply String.eqb_neq in Hs1 as Hs1'. rewrite Hs1'. cbn [negb Js.join].
      unfold Path.normalize. destruct s as [| c s'] eqn:Heq; [congruence |].
      rewrite <- Heq in *. clear Heq.
      rewrite no_slash_relative, has_slash_last, split_no_slash by exact Hs4.
      cbn [negb Path.norm_segments fold_left]. now rewrite norm_step_segment.
  - exists (Path.isAbsolute a),
      (rev (Path.norm_segments (negb (Path.isAbsolute a)) (Path.split a) [])).
    split.
    + rewrite rev_app_distr, rev_involutive. cbn [rev app].
      apply stack_seg; [exact Hs |].
      apply norm_segments_ok; [apply split_has_no_slash | constructor].
    + now apply join_segment.
Qed.

Lemma join_segment_suffix (a s : string) :
  Path.is_segment s -> exists x, Path.join [a; s] = x +:+ s.
Proof.
  intros Hs. destruct (join_segment_form a s Hs) as (abs & segs & _ & ->).
  rewrite render_cons by (destruct segs; discriminate).
  rewrite join_snoc, append_empty_r. destruct segs.
  - now eexists.
  - eexists. now rewrite <- !append_assoc.
Qed.

Lemma resolve_not_empty (E : Env) (p : string) :
  p <> "" ->
  resolve E p = Some (rev (Path.norm_segments false (Path.split p)
                             (if Path.isAbsolute p then [] else rev (cwd E)))).
Proof. destruct p; [congruence | reflexivity]. Qed.

(** The store location of [path.join(b, s)] is that of [b] followed by [s]. *)
Lemma resolve_join_segment (E : Env) (b s : string) :
  b <> "" -> Path.is_segment s ->
  resolve E (Path.join [b; s]) = (fun q => q ++ [s]) <$> resolve E b.
Proof.
  intros Hb Hs. pose proof (segment_inv s Hs) as (Hs1 & _ & _ & Hs4).
  rewrite (resolve_not_empty E b Hb), (resolve_not_empty E _ (join_not_empty _)).
  cbn [fmap option_fmap option_map]. f_equal.
  rewrite join_segment by assumption.
  set (abs := Path.isAbsolute b).
  set (S := Path.norm_segments (negb abs) (Path.split b) []).
  assert (Hok : stack_ok (negb abs) S).
  { apply norm_segments_ok; [apply split_has_no_slash | constructor]. }
  assert (Hne : Forall (fun x => x <> "" /\ Path.has_slash x = false) (rev S ++ [s])).
  { apply Forall_app. split; [apply Forall_rev; eapply stack_ok_nonempty; exact Hok |].
    repeat constructor; assumption. }
  rewrite isAbsolute_render by exact Hne.
  rewrite split_render.
  2:{ destruct (rev S); discriminate. }
  2:{ eapply Forall_impl; [exact Hne | now intros ? [_ ?]]. }
  set (base := if abs then [] else rev (cwd E)).
  rewrite app_assoc, norm_segments_snoc, norm_step_segment by exact Hs.
  cbn [rev]. f_equal.
  assert (Hskip : forall l, Path.norm_segments false ((if abs then [""] else []) ++ l) base
                            = Path.norm_segments false l base).
  { intros l. destruct abs; reflexivity. }
  rewrite Hskip. f_equal. subst S base. destruct abs eqn:Habs; cbn [negb] in *.
  - now apply norm_segments_rev_id.
  - rewrite norm_segments_absorb; [reflexivity | constructor | apply split_has_no_slash].
Qed.

(** ** The store *)

Lemma strip_prefix_app (p s : fpath) : strip_prefix p (p ++ s) = Some s.
Proof.
  induction p as [| a p IH]; [reflexivity |].
  cbn. now rewrite String.eqb_refl.
Qed.

Lemma strip_prefix_Some (p k s : fpath) : strip_prefix p k = Some s <-> k = p ++ s.
Proof.
  split; [| intros ->; apply strip_prefix_app].
  revert k. induction p as [| a p IH]; intros k; cbn.
  - now intros [= ->].
  - destruct k as [| b k]; [discriminate |].
    destruct (String.eqb_spec a b) as [-> | Hne]; [| discriminate].
    intros H. now rewrite (IH _ H).
Qed.

Lemma under_true (p k : fpath) : under p k = true <-> exists s, k = p ++ s.
Proof.
  unfold under. destruct (strip_prefix p k) as [s |] eqn:Hs.
  - apply strip_prefix_Some in Hs. split; eauto.
  - split; [discriminate |]. intros [s ->]. now rewrite strip_prefix_app in Hs.
Qed.

Lemma under_app (p s : fpath) : under p (p ++ s) = true.
Proof. apply under_true. eauto. Qed.

Lemma under_refl (p : fpath) : under p p = true.
Proof. apply under_true. exists []. now rewrite app_nil_r. Qed.

Lemma under_trans (p q k : fpath) : under p q = true -> under q k = true -> under p k = true.
Proof.
  rewrite !under_true. intros [s ->] [t ->]. exists (s ++ t). now rewrite app_assoc.
Qed.

Lemma lookup_remove (p k : fpath) (fs : store) :
  Fs.remove p fs !! k = if under p k then None else fs !! k.
Proof.
  unfold Fs.remove. destruct (under p k) eqn:Hu.
  - apply map_lookup_filter_None. right. intros x _. cbn. congruence.
  - destruct (fs !! k) as [e |] eqn:Hk.
    + now apply map_lookup_filter_Some.
    + apply map_lookup_filter_None. now left.
Qed.

Lemma elem_of_subtree (fs : store) (src s : fpath) (e : entry) :
  (s, e) ∈ Fs.subtree fs src <-> fs !! (src ++ s) = Some e.
Proof.
  unfold Fs.subtree. rewrite list_elem_of_omap. split.
  - intros [[k x] [Hin Hk]]. cbn in Hk.
    destruct (strip_prefix src k) as [s' |] eqn:Hs; [| discriminate].
    injection Hk as -> ->. apply strip_prefix_Some in Hs as ->.
    now apply elem_of_map_to_list.
  - intros H. exists (src ++ s, e). split; [now apply elem_of_map_to_list |].
    cbn. now rewrite strip_prefix_app.
Qed.

Lemma lookup_graft (fs fs' : store) (src dst k : fpath) :
  Fs.graft dst (Fs.subtree fs src) fs' !! k =
  match strip_prefix dst k with
  | Some s => match fs !! (src ++ s) with
              | Some e => Some e
              | None => fs' !! k
              end
  | None => fs' !! k
  end.
Proof.
  unfold Fs.graft.
  assert (Hin : forall y, (k, y) ∈ map (fun se => (dst ++ se.1, se.2)) (Fs.subtree fs src) <->
                          exists s, k = dst ++ s /\ fs !! (src ++ s) = Some y).
  { intros y. rewrite list_elem_of_In, in_map_iff. split.
    - intros [[s e] [Heq Hse]]. cbn in Heq. injection Heq as <- <-.
      exists s. split; [reflexivity |]. now apply elem_of_subtree, list_elem_of_In.
    - intros (s & -> & Hs). exists (s, y). split; [reflexivity |].
      now apply list_elem_of_In, elem_of_subtree. }
  destruct (strip_prefix dst k) as [s |] eqn:Hs.
  - apply strip_prefix_Some in Hs as ->.
    destruct (fs !! (src ++ s)) as [e |] eqn:He.
    + apply lookup_union_Some_raw. left. apply elem_of_list_to_map_1'.
      * intros y (s' & Heq & Hy)%Hin. apply app_inv_head in Heq as <-. congruence.
      * apply Hin. eauto.
    + apply lookup_union_r, not_elem_of_list_to_map_1.
      rewrite list_elem_of_fmap. intros [[k' y] [Hk Hky]]. cbn in Hk. subst k'.
      apply Hin in Hky as (s' & Heq & Hy). apply app_inv_head in Heq as <-. congruence.
  - apply lookup_union_r, not_elem_of_list_to_map_1.
    rewrite list_elem_of_fmap. intros [[k' y] [Hk Hky]]. cbn in Hk. subst k'.
    apply Hin in Hky as (s' & -> & _). now rewrite strip_prefix_app in Hs.
Qed.

Lemma mkdirs_lookup (shown : string) (todo done : fpath) (fs fs' : store) (k : fpath) :
  Fs.mkdirs shown done todo fs = OK fs' ->
  fs' !! k = match fs !! k with
             | Some e => Some e
             | None => if under done k && under k (done ++ todo) then Some Dir else None
             end.
Proof.
  revert done fs. induction todo as [| s todo IH]; intros done fs; cbn [Fs.mkdirs].
  - rewrite app_nil_r.
    assert (Hk : under done k && under k done = bool_decide (k = done)).
    { destruct (under done k) eqn:H1, (under k done) eqn:H2; cbn;
        try (rewrite bool_decide_eq_false_2; [reflexivity |]; intros ->;
             rewrite under_refl in *; discriminate).
      apply under_true in H1 as [a ->], H2 as [b H2].
      rewrite <- app_assoc in H2. rewrite <- (app_nil_r done) in H2 at 1.
      apply app_inv_head in H2. symmetry in H2. apply app_eq_nil in H2 as [-> _].
      rewrite app_nil_r. now rewrite bool_decide_eq_true_2. }
    rewrite Hk.
    destruct (fs !! done) as [[c |] |] eqn:Hd; intros [= <-].
    + destruct (fs !! k) eqn:Hfk; [reflexivity |]. case_bool_decide; [congruence | reflexivity].
    + rewrite lookup_insert. destruct (decide (done = k)) as [Heq | Heq].
      * subst k. rewrite Hd. now rewrite bool_decide_eq_true_2.
      * destruct (fs !! k); [reflexivity |]. now rewrite bool_decide_eq_false_2 by congruence.
  - destruct (fs !! done) as [[c |] |] eqn:Hd; [discriminate | |]; intros H;
      apply IH in H; rewrite H, <- app_assoc; cbn [app].
    + destruct (fs !! k) eqn:Hfk; [reflexivity |].
      destruct (under k (done ++ s :: todo)) eqn:Hu; [| now rewrite !andb_false_r].
      rewrite !andb_true_r.
      destruct (under (done ++ [s]) k) eqn:H1, (under done k) eqn:H2; try reflexivity.
      * apply under_true in H1 as [a ->]. rewrite <- app_assoc, under_app in H2. discriminate.
      * exfalso. apply under_true in H2 as [a ->], Hu as [b Hu].
        rewrite <- app_assoc in Hu. apply app_inv_head in Hu.
        destruct a as [| x a]; [rewrite app_nil_r in Hfk; congruence |].
        injection Hu as <- _.
        replace (done ++ s :: a) with ((done ++ [s]) ++ a) in H1
          by (now rewrite <- app_assoc). rewrite under_app in H1. discriminate.
    + rewrite lookup_insert. destruct (decide (done = k)) as [Heq | Heq].
      * subst k. rewrite Hd. now rewrite under_refl, under_app.
      * destruct (fs !! k) eqn:Hfk; [reflexivity |].
        destruct (under k (done ++ s :: todo)) eqn:Hu; [| now rewrite !andb_false_r].
        rewrite !andb_true_r.
        destruct (under (done ++ [s]) k) eqn:H1, (under done k) eqn:H2; try reflexivity.
        -- apply under_true in H1 as [a ->]. rewrite <- app_assoc, under_app in H2. discriminate.
        -- exfalso. apply under_true in H2 as [a ->], Hu as [b Hu].
           rewrite <- app_assoc in Hu. apply app_inv_head in Hu.
           destruct a as [| x a]; [rewrite app_nil_r in Heq; congruence |].
           injection Hu as <- _.
           replace (done ++ s :: a) with ((done ++ [s]) ++ a) in H1
             by (now rewrite <- app_assoc). rewrite under_app in H1. discriminate.
Qed.

(** ** Sequencing *)

Lemma bind_OK {A B} (m : M A) (k : A -> M B) st a st' :
  m st = (OK a, st') -> bind m k st = k a st'.
Proof. intros H. unfold bind. now rewrite H. Qed.

Lemma bind_Err {A B} (m : M A) (k : A -> M B) st e st' :
  m st = (Err e, st') -> bind m k st = (Err e, st').
Proof. intros H. unfold bind. now rewrite H. Qed.

Lemma bind_inv_OK {A B} (m : M A) (k : A -> M B) st b st'' :
  bind m k st = (OK b, st'') ->
  exists a st', m st = (OK a, st') /\ k a st' = (OK b, st'').
Proof.
  unfold bind. destruct (m st) as [[a | e] st'] eqn:Hm; intros H.
  - eauto.
  - discriminate.
Qed.

Lemma bind_inv_Err {A B} (m : M A) (k : A -> M B) st e st'' :
  bind m k st = (Err e, st'') ->
  m st = (Err e, st'') \/ exists a st', m st = (OK a, st') /\ k a st' = (Err e, st'').
Proof.
  unfold bind. destruct (m st) as [[a | e'] st'] eqn:Hm; intros H.
  - right. eauto.
  - left. congruence.
Qed.

(** ** The layer resolver without and with an active core system *)

Section LayerResolver.

Context (E : Env).

Lemma fs_pathExists_eq p st : fs_pathExists E p st = (OK (present E st p), st).
Proof. reflexivity. Qed.

Lemma resolveTemplate_loop_spec this ac name st layers :
  resolveTemplate_loop E this ac layers name st =
  (match find (fun l => present E st (templatePath this ac l name)) layers with
   | Some l => OK {| rws_name := name; rws_path := templatePath this ac l name;
                     rws_source := l |}
   | None => Err (Error ("Template " +:+ name +:+ " not found in any layer"))
   end, st).
Proof.
  induction layers as [| l rest IH]; [reflexivity |].
  cbn [resolveTemplate_loop find].
  rewrite (bind_OK _ _ _ _ _ (fs_pathExists_eq _ st)).
  destruct (present E st (templatePath this ac l name)) eqn:Hp.
  - reflexivity.
  - exact IH.
Qed.

(** C7. With no active core system, [listAgents] yields the empty
    sequence and [resolveAgent], for every agent id and whatever core
    system the caller names, yields the unresolved value, whose
    [coreSystem], [corePath] and [finalPath] are empty strings and whose
    [layerSources] is empty; neither call throws or touches the state. *)
Theorem no_active_core_unresolved this st :
  Js.truthy (activeCoreSystem E) = None ->
  listAgents E this st = (OK [], st) /\
  forall id override,
    exists r, resolveAgent E this id override st = (OK r, st) /\
              agentId r = id /\ coreSystem r = "" /\ corePath r = "" /\
              finalPath r = "" /\ layerSources r = [].
Proof.
  intros Hnone. split.
  - unfold listAgents, getActiveCoreSystem, bind, ret. now rewrite Hnone.
  - intros id override. exists (unresolved id).
    unfold resolveAgent, getActiveCoreSystem, bind, ret. rewrite Hnone.
    repeat split.
Qed.

(** With no active core system [resolveTemplate] throws before it looks
    at any layer. *)
Lemma resolveTemplate_unconfigured this name st :
  Js.truthy (activeCoreSystem E) = None ->
  resolveTemplate E this name st = (Err (Error "No active core system found"), st).
Proof.
  intros Hnone. unfold resolveTemplate, getActiveCoreSystem, bind, ret, throw.
  now rewrite Hnone.
Qed.

(** C6, as the code has it. With an active core system [ac],
    [resolveTemplate] looks at the custom, org and core layers in that
    order and returns the first copy it finds, tagged with its layer; it
    throws the not-found error when no layer holds the template. *)
Theorem resolveTemplate_precedence this name st ac :
  Js.truthy (activeCoreSystem E) = Some ac ->
  let copy l := {| rws_name := name; rws_path := templatePath this ac l name;
                   rws_source := l |} in
  let held l := present E st (templatePath this ac l name) in
  (held custom = true -> resolveTemplate E this name st = (OK (copy custom), st)) /\
  (held custom = false -> held org = true ->
   resolveTemplate E this name st = (OK (copy org), st)) /\
  (held custom = false -> held org = false -> held core = true ->
   resolveTemplate E this name st = (OK (copy core), st)) /\
  (held custom = false -> held org = false -> held core = false ->
   resolveTemplate E this name st =
   (Err (Error ("Template " +:+ name +:+ " not found in any layer")), st)).
Proof.
  intros Hac copy held.
  assert (Hrun : resolveTemplate E this name st =
                 resolveTemplate_loop E this ac [custom; org; core] name st).
  { unfold resolveTemplate, getActiveCoreSystem, bind, ret. now rewrite Hac. }
  rewrite Hrun, resolveTemplate_loop_spec. cbn [find]. fold (held custom) (held org) (held core).
  repeat split; intros; repeat match goal with H : held _ = _ |- _ => rewrite H end;
    reflexivity.
Qed.

End LayerResolver.

(** ** What a computation leaves alone *)

Lemma reads_only_keeps_calls {A} (m : M A) : reads_only m -> keeps_calls m.
Proof. intros H st. apply H. Qed.

Lemma reads_only_ret {A} (a : A) : reads_only (ret a).
Proof. now intros st. Qed.

Lemma reads_only_throw {A} (e : error) : reads_only (@throw A e).
Proof. now intros st. Qed.

Lemma reads_only_bind {A B} (m : M A) (k : A -> M B) :
  reads_only m -> (forall a, reads_only (k a)) -> reads_only (bind m k).
Proof.
  intros Hm Hk st. unfold bind. specialize (Hm st).
  destruct (m st) as [[a | e] st1]; cbn in *; [| exact Hm].
  specialize (Hk a st1). destruct Hm as [<- <-]. exact Hk.
Qed.

Lemma reads_only_try_catch {A} (m : M A) (h : error -> M A) :
  reads_only m -> (forall e, reads_only (h e)) -> reads_only (try_catch m h).
Proof.
  intros Hm Hh st. unfold try_catch. specialize (Hm st).
  destruct (m st) as [[a | e] st1]; cbn in *; [exact Hm |].
  specialize (Hh e st1). destruct Hm as [<- <-]. exact Hh.
Qed.

Lemma reads_only_for_of {A B} (xs : list A) (body : B -> A -> M B) (acc : B) :
  (forall b a, reads_only (body b a)) -> reads_only (for_of xs body acc).
Proof.
  intros Hb. revert acc. induction xs as [| x xs IH]; intros acc; cbn.
  - apply reads_only_ret.
  - apply reads_only_bind; [apply Hb | intros b; apply IH].
Qed.

Lemma reads_only_console_warn (line : string) : reads_only (console_warn line).
Proof. now intros st. Qed.

Lemma keeps_calls_ret {A} (a : A) : keeps_calls (ret a).
Proof. now intros st. Qed.

Lemma keeps_calls_throw {A} (e : error) : keeps_calls (@throw A e).
Proof. now intros st. Qed.

Lemma keeps_calls_bind {A B} (m : M A) (k : A -> M B) :
  keeps_calls m -> (forall a, keeps_calls (k a)) -> keeps_calls (bind m k).
Proof.
  intros Hm Hk st. unfold bind. specialize (Hm st).
  destruct (m st) as [[a | e] st1]; cbn in *; [| exact Hm].
  specialize (Hk a st1). now rewrite Hk.
Qed.

Lemma keeps_calls_for_of {A B} (xs : list A) (body : B -> A -> M B) (acc : B) :
  (forall b a, keeps_calls (body b a)) -> keeps_calls (for_of xs body acc).
Proof.
  intros Hb. revert acc. induction xs as [| x xs IH]; intros acc; cbn.
  - apply keeps_calls_ret.
  - apply keeps_calls_bind; [apply Hb | intros b; apply IH].
Qed.

Section Frames.

Context (E : Env).

Lemma reads_only_fs_pathExists (p : string) : reads_only (fs_pathExists E p).
Proof. now intros st. Qed.

Lemma reads_only_fs_read {A} (shown : string) (op : fpath -> store -> result A) :
  reads_only (fs_read E shown op).
Proof.
  intros st. unfold fs_read.
  destruct (io_fault E (ticks st)); [now cbn |].
  destruct (resolve E shown); now cbn.
Qed.

Lemma keeps_calls_fs_write (shown : string) op : keeps_calls (fs_write E shown op).
Proof.
  intros st. unfold fs_write.
  destruct (io_fault E (ticks st)); [now cbn |].
  destruct (resolve E shown) as [p |]; [| now cbn].
  destruct (op p (files st)); now cbn.
Qed.

Lemma reads_only_getActiveCoreSystem : reads_only (getActiveCoreSystem E).
Proof. apply reads_only_ret. Qed.

Ltac frame :=
  repeat first
    [ apply reads_only_ret | apply reads_only_throw
    | apply reads_only_fs_pathExists | apply reads_only_fs_read
    | apply reads_only_console_warn | apply reads_only_getActiveCoreSystem
    | apply reads_only_bind; [| intros ?]
    | apply reads_only_try_catch; [| intros ?]
    | apply reads_only_for_of; intros ? ?
    | match goal with
      | |- reads_only (match ?x with _ => _ end) => destruct x
      end ].

Lemma reads_only_resolveAgent this id cs : reads_only (resolveAgent E this id cs).
Proof. unfold resolveAgent. frame. Qed.

Lemma reads_only_listAgents this : reads_only (listAgents E this).
Proof. unfold listAgents, fs_readdir. frame. Qed.

Lemma reads_only_loadAgent this id : reads_only (loadAgent E this id).
Proof.
  unfold loadAgent, fs_readFile.
  apply reads_only_bind; [apply reads_only_resolveAgent | intros ?]. frame.
Qed.

Lemma reads_only_listResources this type : reads_only (listResources E this type).
Proof. unfold listResources, list_layer, fs_readdir. frame. Qed.

Lemma reads_only_getResourcePath this type name :
  reads_only (getResourcePath E this type name).
Proof. unfold getResourcePath. frame. Qed.

Lemma reads_only_scan_agent this name deps id :
  reads_only (scan_agent E this name deps id).
Proof.
  unfold scan_agent. apply reads_only_try_catch; [| intros ?; frame].
  apply reads_only_bind; [apply reads_only_loadAgent | intros ?]. frame.
Qed.

Lemma reads_only_scan_resource this type name deps r :
  reads_only (scan_resource E this type name deps r).
Proof.
  unfold scan_resource. destruct (String.eqb _ _); [frame |].
  apply reads_only_bind; [now intros st | intros ?]. frame.
Qed.

Lemma reads_only_checkDependencies this name type :
  reads_only (checkDependencies E this name type).
Proof.
  unfold checkDependencies.
  apply reads_only_bind; [apply reads_only_getResourcePath | intros [p |]]; [| frame].
  apply reads_only_bind; [apply reads_only_listAgents | intros agents].
  apply reads_only_bind;
    [apply reads_only_for_of; intros; apply reads_only_scan_agent | intros deps].
  apply reads_only_bind; [apply reads_only_listResources | intros resources].
  apply reads_only_bind;
    [apply reads_only_for_of; intros; apply reads_only_scan_resource | intros deps'].
  frame.
Qed.

Ltac quiet :=
  repeat first
    [ apply keeps_calls_ret | apply keeps_calls_throw
    | apply keeps_calls_fs_write
    | apply reads_only_keeps_calls, reads_only_fs_pathExists
    | apply reads_only_keeps_calls, reads_only_fs_read
    | apply reads_only_keeps_calls, reads_only_getResourcePath
    | apply reads_only_keeps_calls, reads_only_loadAgent
    | apply keeps_calls_bind; [| intros ?]
    | apply keeps_calls_for_of; intros ? ?
    | match goal with
      | |- keeps_calls (match ?x with _ => _ end) => destruct x
      end ].

Lemma keeps_calls_createBackup this name type deps :
  keeps_calls (createBackup E this name type deps).
Proof.
  unfold createBackup, fs_ensureDir, fs_copy, fs_writeJSON. quiet.
Qed.

Lemma keeps_calls_restoreBackup this b : keeps_calls (restoreBackup E this b).
Proof.
  unfold restoreBackup, fs_readJSON, fs_readFile, fs_copy. quiet.
Qed.

Lemma keeps_calls_saveAgent this a : keeps_calls (saveAgent E this a).
Proof. unfold saveAgent, fs_ensureDir, fs_writeFile. quiet. Qed.

Lemma keeps_calls_updateDependencies this name deps :
  keeps_calls (updateDependencies E this name deps).
Proof.
  unfold updateDependencies. apply keeps_calls_for_of. intros [] dep.
  destruct (dep_type dep); [| quiet].
  apply keeps_calls_bind; [apply reads_only_keeps_calls, reads_only_loadAgent | intros a].
  destruct (agent_definition a); [apply keeps_calls_saveAgent | quiet].
Qed.

End Frames.

(** ** The deletion workflow, step by step *)

Section Workflow.

Context (E : Env) (this : SafeDeleteManager).

Lemma getResourcePath_eq lm type name st :
  getResourcePath E lm type name st =
  (OK match Js.truthy (activeCoreSystem E) with
      | None => None
      | Some ac =>
          let p := Path.join [lcagentsPath lm; "core"; "." +:+ ac; type; name] in
          if present E st p then Some p else None
      end, st).
Proof.
  unfold getResourcePath, getActiveCoreSystem, bind, ret.
  destruct (Js.truthy (activeCoreSystem E)); reflexivity.
Qed.

(** The path lookup only depends on the files. *)
Lemma getResourcePath_files lm type name st st' :
  files st = files st' ->
  fst (getResourcePath E lm type name st) = fst (getResourcePath E lm type name st').
Proof.
  intros Hf. rewrite !getResourcePath_eq. cbn [fst]. unfold present. now rewrite Hf.
Qed.

Lemma getResourcePath_run lm type name st found :
  fst (getResourcePath E lm type name st) = OK found ->
  getResourcePath E lm type name st = (OK found, st).
Proof. rewrite getResourcePath_eq. cbn [fst]. now intros ->. Qed.

(** What the [catch] of [safeDelete] makes of a failure. *)
Lemma rollback_eq backupPath e0 st :
  rollback E this backupPath e0 st =
  match Js.truthy backupPath with
  | Some b =>
      match restoreBackup E this b (logged (CallRestoreBackup b) st) with
      | (OK _, st') => (Err e0, st')
      | (Err e1, st') => (Err e1, st')
      end
  | None => (Err e0, st)
  end.
Proof.
  unfold rollback, bind, throw, ret, logged, record.
  destruct (Js.truthy backupPath) as [b |]; [| reflexivity]. cbn [snd].
  destruct (restoreBackup E this b _) as [[u | e1] st']; reflexivity.
Qed.

(** [safeDelete], run: check, core test, gate, backup, the guarded
    deletion, and the roll-back. *)
Lemma safeDelete_eq name type options st :
  safeDelete E this name type options st =
  match checkDependencies E this name type (logged CallCheckDependencies st) with
  | (Err e, st1) => (Err e, st1)
  | (OK dc, st1) =>
      if isCore dc then (Err CoreResourceProtected, st1)
      else if hasActive dc && negb (force (fullOptions options)) then
        (Err (DependenciesExist (depList (dependencies dc))), st1)
      else
        match (if negb (skipBackup (fullOptions options)) then
                 match createBackup E this name type (dependencies dc)
                         (logged CallCreateBackup st1) with
                 | (OK b, st2) => (OK (Some b), st2)
                 | (Err e, st2) => (Err e, st2)
                 end
               else (OK None, st1)) with
        | (Err e, st2) => (Err e, st2)
        | (OK backupPath, st2) =>
            match deleteAndUpdate E this name type (fullOptions options)
                    (dependencies dc) st2 with
            | (OK u, st3) => (OK u, st3)
            | (Err e0, st3) => rollback E this backupPath e0 st3
            end
        end
  end.
Proof.
  unfold safeDelete, logged. unfold bind at 1. cbn [record snd].
  unfold bind at 1.
  destruct (checkDependencies _ _ _ _ _) as [[dc | e] st1]; [| reflexivity].
  destruct (isCore dc); [reflexivity |].
  destruct (hasActive dc && negb (force (fullOptions options))); [reflexivity |].
  unfold bind at 1.
  destruct (negb (skipBackup (fullOptions options))).
  - unfold bind at 1. cbn [record snd]. unfold bind at 1.
    destruct (createBackup _ _ _ _ _ _) as [[b | e] st2]; reflexivity.
  - reflexivity.
Qed.

End Workflow.

(** ** Core resources *)

Lemma lcagents_segment : Path.is_segment ".lcagents".
Proof. reflexivity. Qed.

Lemma under_core_isCore (basePath p : string) :
  under_core (LayerManager_new basePath) p -> isCoreResource p = true.
Proof.
  intros [rest ->]. unfold LayerManager_new. cbn [lcagentsPath].
  destruct (join_segment_suffix basePath ".lcagents" lcagents_segment) as [x ->].
  unfold isCoreResource.
  replace ((x +:+ ".lcagents") +:+ "/core/" +:+ rest)
    with (x +:+ ".lcagents/core/" +:+ rest).
  - apply includes_append.
  - rewrite append_assoc. reflexivity.
Qed.

Section Checks.

Context (E : Env) (this : SafeDeleteManager).

Lemma checkDependencies_inv name type st dc st' :
  checkDependencies E this name type st = (OK dc, st') ->
  exists p agents st2 found st3 resources st4,
    getResourcePath E (layerManager this) type name st = (OK (Some p), st) /\
    listAgents E (layerManager this) st = (OK agents, st2) /\
    for_of agents (scan_agent E this name) [] st2 = (OK found, st3) /\
    listResources E (layerManager this) type st3 = (OK resources, st4) /\
    for_of resources (scan_resource E this type name) found st4
      = (OK (dependencies dc), st') /\
    hasActive dc = (0 <? length (dependencies dc))%nat /\
    isCore dc = isCoreResource p.
Proof.
  unfold checkDependencies. intros H.
  apply bind_inv_OK in H as (op & s1 & Hp & H).
  assert (Hget : getResourcePath E (layerManager this) type name st = (OK op, st)).
  { rewrite getResourcePath_eq in Hp |- *. congruence. }
  assert (s1 = st) as -> by (rewrite Hget in Hp; congruence). clear Hp.
  destruct op as [p |]; [| discriminate].
  apply bind_inv_OK in H as (agents & st2 & Hagents & H).
  apply bind_inv_OK in H as (found & st3 & Hfound & H).
  apply bind_inv_OK in H as (resources & st4 & Hres & H).
  apply bind_inv_OK in H as (deps & st5 & Hdeps & H).
  injection H as <- <-. cbn.
  exists p, agents, st2, found, st3, resources, st4. auto 10.
Qed.

End Checks.

(** ** The dependency scan *)

Section Scan.

Context (E : Env) (this : SafeDeleteManager).

(** One agent adds at most one entry, of kind [agent] and under its own
    name; the round never throws. *)
Lemma scan_agent_shape name deps id st :
  exists st',
    scan_agent E this name deps id st = (OK deps, st') \/
    exists path,
      scan_agent E this name deps id st =
      (OK (deps ++ [{| dep_type := agent; dep_name := id; dep_path := path |}]), st').
Proof.
  unfold scan_agent, try_catch, bind.
  destruct (loadAgent E (layerManager this) id st) as [[a | e] st1].
  - destruct (existsb _ _).
    + destruct (agent_path a) as [p |].
      * exists st1. right. exists (corePath p). reflexivity.
      * eexists. left. reflexivity.
    + exists st1. left. reflexivity.
  - eexists. left. reflexivity.
Qed.


Lemma scan_agents_shape name agents acc st :
  exists found st',
    for_of agents (scan_agent E this name) acc st = (OK (acc ++ found), st') /\
    Forall (fun d => dep_type d = agent) found /\
    map dep_name found `sublist_of` agents.
Proof.
  revert acc st. induction agents as [| id agents IH]; intros acc st.
  - exists [], st. rewrite app_nil_r. repeat split; constructor.
  - cbn [for_of]. destruct (scan_agent_shape name acc id st) as [st1 [H | [path H]]].
    + destruct (IH acc st1) as (found & st' & Hrun & Hkind & Hsub).
      exists found, st'. rewrite (bind_OK _ _ _ _ _ H).
      repeat split; [exact Hrun | exact Hkind | now apply sublist_cons].
    + destruct (IH (acc ++ [{| dep_type := agent; dep_name := id; dep_path := path |}]) st1)
        as (found & st' & Hrun & Hkind & Hsub).
      exists ({| dep_type := agent; dep_name := id; dep_path := path |} :: found), st'.
      rewrite (bind_OK _ _ _ _ _ H), Hrun, <- app_assoc.
      repeat split; [now constructor | now apply sublist_skip].
Qed.

Lemma scan_resource_eq type name deps r st :
  scan_resource E this type name deps r st =
  (OK (if depends_on E (files st) type name r
       then deps ++ [resource_dependency r] else deps), st).
Proof.
  unfold scan_resource, depends_on, bind, resourceResolver_getResourceMetadata, ret.
  destruct (String.eqb (rws_name r) name); [reflexivity |]. cbn [negb andb].
  destruct (getResourceMetadata E (files st) type (rws_name r)) as [[[declared |]] |];
    try reflexivity.
  destruct (existsb _ declared); reflexivity.
Qed.

Lemma scan_resources_eq type name resources acc st :
  for_of resources (scan_resource E this type name) acc st =
  (OK (acc ++ map resource_dependency
                (List.filter (depends_on E (files st) type name) resources)), st).
Proof.
  revert acc. induction resources as [| r resources IH]; intros acc; cbn [for_of].
  - unfold ret. now rewrite app_nil_r.
  - rewrite (bind_OK _ _ _ _ _ (scan_resource_eq type name acc r st)), IH.
    cbn [List.filter]. destruct (depends_on E (files st) type name r); [| reflexivity].
    cbn [map]. now rewrite <- app_assoc.
Qed.

End Scan.

Section Completion.

Context (E : Env) (this : SafeDeleteManager).
Hypothesis quiet_io : undisturbed E.

Lemma fs_readdir_completes dir st :
  listable E (files st) dir -> present E st dir = true ->
  exists names st', fs_readdir E dir st = (OK names, st') /\ files st' = files st.
Proof.
  intros Hlist Hpresent. unfold fs_readdir, fs_read, present in *. rewrite quiet_io.
  destruct (resolve E dir) as [q |] eqn:Hq; [| discriminate].
  apply bool_decide_eq_true in Hpresent as [e He].
  unfold Fs.readdir. rewrite He. destruct e as [c |].
  - now destruct (Hlist q c).
  - eexists _, _. split; reflexivity.
Qed.

Lemma list_layer_completes dir source all st :
  listable E (files st) dir ->
  exists found st', list_layer E dir source all st = (OK found, st') /\ files st' = files st.
Proof.
  intros Hlist. unfold list_layer. rewrite (bind_OK _ _ _ _ _ (fs_pathExists_eq E dir st)).
  destruct (present E st dir) eqn:Hpresent.
  - destruct (fs_readdir_completes dir st Hlist Hpresent) as (names & st' & Hrun & Hfiles).
    rewrite (bind_OK _ _ _ _ _ Hrun). eexists _, _. split; [reflexivity | exact Hfiles].
  - eexists _, _. split; reflexivity.
Qed.

Lemma listAgents_completes st :
  (forall ac, Js.truthy (activeCoreSystem E) = Some ac ->
     listable E (files st)
       (Path.join [lcagentsPath (layerManager this); "core"; "." +:+ ac; "agents"])) ->
  exists agents st', listAgents E (layerManager this) st = (OK agents, st').
Proof.
  intros Hlist. unfold listAgents.
  rewrite (bind_OK (getActiveCoreSystem E) _ st (activeCoreSystem E) st eq_refl).
  destruct (Js.truthy (activeCoreSystem E)) as [ac |]; [| eexists _, _; reflexivity].
  rewrite (bind_OK _ _ _ _ _ (fs_pathExists_eq E _ st)).
  destruct (present E st _) eqn:Hpresent; cbn [negb]; [| eexists _, _; reflexivity].
  destruct (fs_readdir_completes _ st (Hlist ac eq_refl) Hpresent) as (names & st' & Hrun & _).
  rewrite (bind_OK _ _ _ _ _ Hrun). eexists _, _. reflexivity.
Qed.

Lemma listResources_completes type st :
  (forall ac, Js.truthy (activeCoreSystem E) = Some ac ->
     Forall (listable E (files st)) (scanned (layerManager this) ac type)) ->
  exists resources st', listResources E (layerManager this) type st = (OK resources, st').
Proof.
  intros Hlist. unfold listResources.
  rewrite (bind_OK (getActiveCoreSystem E) _ st (activeCoreSystem E) st eq_refl).
  destruct (Js.truthy (activeCoreSystem E)) as [ac |]; [| eexists _, _; reflexivity].
  specialize (Hlist ac eq_refl). unfold scanned in Hlist.
  apply Forall_cons_1 in Hlist as [_ Hlist].
  apply Forall_cons_1 in Hlist as [Hcore Hlist].
  apply Forall_cons_1 in Hlist as [Horg Hlist].
  apply Forall_cons_1 in Hlist as [Hcustom _].
  destruct (list_layer_completes _ core [] st Hcore) as (r1 & st1 & Hrun1 & Hf1).
  rewrite (bind_OK _ _ _ _ _ Hrun1). rewrite <- Hf1 in Horg, Hcustom.
  destruct (list_layer_completes _ org r1 st1 Horg) as (r2 & st2 & Hrun2 & Hf2).
  rewrite (bind_OK _ _ _ _ _ Hrun2). rewrite <- Hf2 in Hcustom.
  destruct (list_layer_completes _ custom r2 st2 Hcustom) as (r3 & st3 & Hrun3 & _).
  rewrite (bind_OK _ _ _ _ _ Hrun3). eexists _, _. reflexivity.
Qed.

(** The dependency check of a resource that [getResourcePath] finds
    completes, when no call is refused and none of the directories it
    lists is a regular file. *)
Lemma checkDependencies_completes name type st p :
  fst (getResourcePath E (layerManager this) type name st) = OK (Some p) ->
  (forall ac, Js.truthy (activeCoreSystem E) = Some ac ->
     Forall (listable E (files st)) (scanned (layerManager this) ac type)) ->
  exists dc st', checkDependencies E this name type st = (OK dc, st').
Proof.
  intros Hp Hlist. unfold checkDependencies.
  rewrite (bind_OK _ _ _ _ _ (getResourcePath_run E _ _ _ _ _ Hp)).
  destruct (listAgents_completes st) as (agents & st1 & Hagents).
  { intros ac Hac. specialize (Hlist ac Hac). now apply Forall_cons_1 in Hlist as [H _]. }
  rewrite (bind_OK _ _ _ _ _ Hagents).
  pose proof (reads_only_listAgents E (layerManager this) st) as [Hf1 _].
  rewrite Hagents in Hf1. cbn [snd] in Hf1.
  destruct (scan_agents_shape E this name agents [] st1) as (found & st2 & Hscan & _).
  rewrite (bind_OK _ _ _ _ _ Hscan).
  pose proof (reads_only_for_of agents (scan_agent E this name) []
                (fun b a => reads_only_scan_agent E this name b a) st1) as [Hf2 _].
  rewrite Hscan in Hf2. cbn [snd] in Hf2.
  destruct (listResources_completes type st2) as (resources & st3 & Hres).
  { intros ac Hac. rewrite Hf2, Hf1. now apply Hlist. }
  rewrite (bind_OK _ _ _ _ _ Hres).
  rewrite (bind_OK _ _ _ _ _ (scan_resources_eq E this type name resources _ st3)).
  eexists _, _. reflexivity.
Qed.

End Completion.

(** C1. A resource whose resolved path lies under the core layer cannot
    be deleted: whatever the options, [safeDelete] throws, no file is
    changed, and after the dependency check no further step is taken.
    What is thrown is [CoreResourceProtected] whenever the dependency
    check completes, and it completes when no call to the file system is
    refused and none of the directories it lists is a regular file. *)
Theorem core_resources_protected (E : Env) (basePath name type : string)
        (options : PartialDeleteOptions) (st : state) (p : string) :
  let this := SafeDeleteManager_new basePath in
  fst (getResourcePath E (layerManager this) type name st) = OK (Some p) ->
  under_core (layerManager this) p ->
  exists e st',
    safeDelete E this name type options st = (Err e, st') /\
    files st' = files st /\
    calls st' = calls st ++ [CallCheckDependencies] /\
    (forall dc st1,
        checkDependencies E this name type (logged CallCheckDependencies st) = (OK dc, st1) ->
        e = CoreResourceProtected) /\
    (undisturbed E ->
     (forall ac, Js.truthy (activeCoreSystem E) = Some ac ->
        Forall (listable E (files st)) (scanned (layerManager this) ac type)) ->
     e = CoreResourceProtected).
Proof.
  intros this Hp Hcore. rewrite safeDelete_eq.
  pose proof (reads_only_checkDependencies E this name type
                (logged CallCheckDependencies st)) as [Hfiles Hcalls].
  pose proof (getResourcePath_files E (layerManager this) type name
                (logged CallCheckDependencies st) st eq_refl) as Hsame.
  destruct (checkDependencies E this name type (logged CallCheckDependencies st))
    as [[dc | e] st1] eqn:Hcheck; cbn [snd] in Hfiles, Hcalls.
  - apply checkDependencies_inv in Hcheck as Hinv.
    destruct Hinv as (p' & _ & _ & _ & _ & _ & _ & Hp' & _ & _ & _ & _ & _ & HisCore).
    assert (p' = p) as ->.
    { rewrite Hp', Hp in Hsame. cbn in Hsame. congruence. }
    rewrite HisCore, (under_core_isCore basePath p Hcore).
    exists CoreResourceProtected, st1. repeat split; assumption.
  - exists e, st1. repeat split; try assumption.
    + intros dc' st1' [=].
    + intros Hquiet Hlist. exfalso.
      destruct (checkDependencies_completes E this Hquiet name type
                  (logged CallCheckDependencies st) p) as (dc & st2 & Hrun).
      * now rewrite Hsame.
      * exact Hlist.
      * congruence.
Qed.


Lemma core_segment : Path.is_segment "core".
Proof. reflexivity. Qed.

(** The path [getResourcePath] builds from ordinary segments. *)
Lemma resource_path_plain (basePath ac type name : string) :
  Path.is_segment ("." +:+ ac) -> Path.is_segment type -> Path.is_segment name ->
  Path.join [lcagentsPath (LayerManager_new basePath); "core"; "." +:+ ac; type; name] =
  lcagentsPath (LayerManager_new basePath)
    +:+ "/core/" +:+ ("." +:+ ac) +:+ "/" +:+ type +:+ "/" +:+ name.
Proof.
  intros Hac Htype Hname. unfold LayerManager_new. cbn [lcagentsPath].
  destruct (join_segment_form basePath ".lcagents" lcagents_segment)
    as (abs & segs & Hok & ->).
  rewrite join_normal_segments.
  - reflexivity.
  - destruct segs; discriminate.
  - exact Hok.
  - discriminate.
  - repeat constructor; assumption || exact core_segment.
Qed.

(** C10, as the code has it. When the resource type, the resource name
    and the dotted name of the active core system are ordinary path
    segments, every path [getResourcePath] returns is the core-layer path
    of the resource, and [checkDependencies] reports [isCore] for every
    resource it resolves. *)
Theorem getResourcePath_in_core (E : Env) (basePath type name ac : string)
        (st : state) (p : string) :
  let lm := LayerManager_new basePath in
  Js.truthy (activeCoreSystem E) = Some ac ->
  Path.is_segment ("." +:+ ac) -> Path.is_segment type -> Path.is_segment name ->
  fst (getResourcePath E lm type name st) = OK (Some p) ->
  p = lcagentsPath lm +:+ "/core/" +:+ ("." +:+ ac) +:+ "/" +:+ type +:+ "/" +:+ name /\
  under_core lm p /\
  isCoreResource p = true /\
  (forall dc st',
      checkDependencies E (SafeDeleteManager_new basePath) name type st = (OK dc, st') ->
      isCore dc = true).
Proof.
  intros lm Hactive Hac Htype Hname Hget. subst lm.
  set (lm := LayerManager_new basePath) in *.
  assert (Hp : p = lcagentsPath lm +:+ "/core/" +:+ ("." +:+ ac) +:+ "/" +:+ type
                     +:+ "/" +:+ name).
  { rewrite getResourcePath_eq, Hactive in Hget. cbn [fst] in Hget.
    cbv zeta in Hget. subst lm. rewrite resource_path_plain in Hget by assumption.
    destruct (present E st _); congruence. }
  assert (Hcore : under_core lm p) by (subst p; eexists; reflexivity).
  repeat split; try assumption.
  - now apply (under_core_isCore basePath).
  - intros dc st' Hcheck.
    apply checkDependencies_inv in Hcheck
      as (p' & _ & _ & _ & _ & _ & _ & Hp' & _ & _ & _ & _ & _ & HisCore).
    cbn [layerManager SafeDeleteManager_new] in Hp'. fold lm in Hp'.
    rewrite Hp' in Hget. cbn in Hget. injection Hget as ->.
    rewrite HisCore. now apply (under_core_isCore basePath).
Qed.

(** ** The order of the steps *)

Section Order.

Context (E : Env) (this : SafeDeleteManager).

Lemma logged_calls c st : calls (logged c st) = calls st ++ [c].
Proof. reflexivity. Qed.

Lemma logged_files c st : files (logged c st) = files st.
Proof. reflexivity. Qed.

Lemma bind_record {B} c (k : unit -> M B) st :
  bind (record c) k st = k tt (logged c st).
Proof. reflexivity. Qed.

(** The calls the guarded part of [safeDelete] records. *)
Lemma deleteAndUpdate_calls name type options deps st :
  exists made,
    calls (snd (deleteAndUpdate E this name type options deps st)) = calls st ++ made /\
    (made = [] \/
     exists p, made = [CallRemove p] \/ made = [CallRemove p; CallUpdateDependencies]).
Proof.
  unfold deleteAndUpdate.
  rewrite (bind_OK _ _ _ _ _ (getResourcePath_eq E _ type name st)).
  destruct (match Js.truthy (activeCoreSystem E) with Some _ => _ | None => _ end)
    as [p |].
  2:{ exists []. cbn. rewrite app_nil_r. auto. }
  rewrite bind_record.
  pose proof (keeps_calls_fs_write E p (fun q fs => OK (Fs.remove q fs))
                (logged (CallRemove p) st)) as Hrm.
  fold (fs_remove E p) in Hrm.
  destruct (fs_remove E p (logged (CallRemove p) st)) as [[u | e] st1] eqn:Hremove;
    cbn [snd] in Hrm.
  2:{ exists [CallRemove p]. rewrite (bind_Err _ _ _ _ _ Hremove). cbn [snd].
      rewrite Hrm. eauto. }
  rewrite (bind_OK _ _ _ _ _ Hremove).
  destruct (updateDeps options).
  - rewrite bind_record.
    pose proof (keeps_calls_updateDependencies E this name deps
                  (logged CallUpdateDependencies st1)) as Hup.
    exists [CallRemove p; CallUpdateDependencies].
    rewrite Hup, logged_calls, Hrm, logged_calls, <- app_assoc. eauto.
  - exists [CallRemove p]. cbn [snd ret]. rewrite Hrm. eauto.
Qed.

Lemma rollback_calls backupPath e st :
  calls (snd (rollback E this backupPath e st)) =
  calls st ++ match Js.truthy backupPath with
              | Some b => [CallRestoreBackup b]
              | None => []
              end.
Proof.
  rewrite rollback_eq. destruct (Js.truthy backupPath) as [b |].
  - pose proof (keeps_calls_restoreBackup E this b (logged (CallRestoreBackup b) st)) as H.
    destruct (restoreBackup E this b _) as [[u | e1] st']; exact H.
  - cbn. now rewrite app_nil_r.
Qed.

End Order.

(** The calls of a run of [safeDelete], in their order; a failing backup;
    where the roll-back comes from. *)
Lemma safeDelete_calls (E : Env) (this : SafeDeleteManager)
      (name type : string) (options : PartialDeleteOptions) (st : state) :
  exists tail,
    calls (snd (safeDelete E this name type options st))
      = calls st ++ CallCheckDependencies :: tail /\
    (exists p b,
        tail `sublist_of`
          [CallCreateBackup; CallRemove p; CallUpdateDependencies; CallRestoreBackup b]) /\
    (forall dc st1 e st2,
        checkDependencies E this name type (logged CallCheckDependencies st) = (OK dc, st1) ->
        isCore dc = false ->
        hasActive dc && negb (force (fullOptions options)) = false ->
        skipBackup (fullOptions options) = false ->
        createBackup E this name type (dependencies dc) (logged CallCreateBackup st1)
          = (Err e, st2) ->
        safeDelete E this name type options st = (Err e, st2) /\
        tail = [CallCreateBackup]) /\
    (forall b,
        In (CallRestoreBackup b) tail ->
        exists dc st1 st2 e0 st3,
          checkDependencies E this name type (logged CallCheckDependencies st) = (OK dc, st1) /\
          createBackup E this name type (dependencies dc) (logged CallCreateBackup st1)
            = (OK b, st2) /\
          deleteAndUpdate E this name type (fullOptions options) (dependencies dc) st2
            = (Err e0, st3)).
Proof.
  rewrite safeDelete_eq.
  pose proof (reads_only_checkDependencies E this name type
                (logged CallCheckDependencies st)) as [_ Hcalls1].
  destruct (checkDependencies E this name type (logged CallCheckDependencies st))
    as [[dc | e] st1] eqn:Hcheck; cbn [snd] in Hcalls1; rewrite logged_calls in Hcalls1.
  2:{ exists []. cbn [snd]. split; [exact Hcalls1 |].
      split; [exists "", ""; apply sublist_nil_l |].
      split; [intros ? ? ? ? [=] | intros b []]. }
  destruct (isCore dc) eqn:HisCore.
  { exists []. cbn [snd]. split; [exact Hcalls1 |].
    split; [exists "", ""; apply sublist_nil_l |].
    split; [intros ? ? ? ? [= <- <-]; congruence | intros b []]. }
  destruct (hasActive dc && negb (force (fullOptions options))) eqn:Hgate.
  { exists []. cbn [snd]. split; [exact Hcalls1 |].
    split; [exists "", ""; apply sublist_nil_l |].
    split; [intros ? ? ? ? [= <- <-]; congruence | intros b []]. }
  destruct (skipBackup (fullOptions options)) eqn:Hskip; cbn [negb].
  - (* no backup *)
    destruct (deleteAndUpdate_calls E this name type (fullOptions options)
                (dependencies dc) st1) as (made & Hmade & Hshape).
    destruct (deleteAndUpdate E this name type (fullOptions options) (dependencies dc) st1)
      as [[u | e0] st3] eqn:Hdel; cbn [snd] in Hmade.
    + exists made. cbn [snd]. rewrite Hmade, Hcalls1, <- app_assoc. split; [reflexivity |].
      split.
      * destruct Hshape as [-> | [p [-> | ->]]].
        -- exists "", "". apply sublist_nil_l.
        -- exists p, "". apply sublist_cons, sublist_skip, sublist_nil_l.
        -- exists p, "". apply sublist_cons, sublist_skip, sublist_skip, sublist_nil_l.
      * split; [intros ? ? ? ? [= <- <-]; congruence |].
        intros b Hin. exfalso.
        destruct Hshape as [-> | [p [-> | ->]]]; cbn in Hin; intuition discriminate.
    + exists made. rewrite rollback_calls. cbn [Js.truthy]. rewrite app_nil_r.
      rewrite Hmade, Hcalls1, <- app_assoc. split; [reflexivity |].
      split.
      * destruct Hshape as [-> | [p [-> | ->]]].
        -- exists "", "". apply sublist_nil_l.
        -- exists p, "". apply sublist_cons, sublist_skip, sublist_nil_l.
        -- exists p, "". apply sublist_cons, sublist_skip, sublist_skip, sublist_nil_l.
      * split; [intros ? ? ? ? [= <- <-]; congruence |].
        intros b Hin. exfalso.
        destruct Hshape as [-> | [p [-> | ->]]]; cbn in Hin; intuition discriminate.
  - (* with a backup *)
    pose proof (keeps_calls_createBackup E this name type (dependencies dc)
                  (logged CallCreateBackup st1)) as Hcalls2.
    rewrite logged_calls, Hcalls1, <- app_assoc in Hcalls2. cbn [app] in Hcalls2.
    destruct (createBackup E this name type (dependencies dc) (logged CallCreateBackup st1))
      as [[b | e] st2] eqn:Hbackup; cbn [snd] in Hcalls2.
    2:{ exists [CallCreateBackup]. cbn [snd]. split; [exact Hcalls2 |].
        split; [exists "", ""; apply sublist_skip, sublist_nil_l |].
        split.
        - intros ? ? ? ? [= <- <-] _ _ _ Hb. rewrite Hbackup in Hb.
          injection Hb as <- <-. auto.
        - intros b [Hb | []]. discriminate. }
    destruct (deleteAndUpdate_calls E this name type (fullOptions options)
                (dependencies dc) st2) as (made & Hmade & Hshape).
    assert (Hb : Js.truthy (Some b) = Some b).
    { assert (b <> "") as Hne; [| destruct b; [congruence | reflexivity]].
      unfold createBackup in Hbackup.
      apply bind_inv_OK in Hbackup as (op & s1 & _ & Hrest).
      destruct op; [| discriminate].
      apply bind_inv_OK in Hrest as (? & ? & _ & Hrest).
      apply bind_inv_OK in Hrest as (? & ? & _ & Hrest).
      apply bind_inv_OK in Hrest as (? & ? & _ & Hrest).
      injection Hrest as <- _. apply join_not_empty. }
    destruct (deleteAndUpdate E this name type (fullOptions options) (dependencies dc) st2)
      as [[u | e0] st3] eqn:Hdel; cbn [snd] in Hmade.
    + exists (CallCreateBackup :: made). cbn [snd]. rewrite Hmade, Hcalls2, <- app_assoc.
      split; [reflexivity |]. split.
      * destruct Hshape as [-> | [p [-> | ->]]].
        -- exists "", "". apply sublist_skip, sublist_nil_l.
        -- exists p, "". do 2 apply sublist_skip. apply sublist_nil_l.
        -- exists p, "". do 3 apply sublist_skip. apply sublist_nil_l.
      * split; [intros ? ? ? ? [= <- <-] _ _ _ Hb'; congruence |].
        intros b' Hin. exfalso.
        destruct Hshape as [-> | [p [-> | ->]]]; cbn in Hin; intuition discriminate.
    + exists (CallCreateBackup :: made ++ [CallRestoreBackup b]).
      rewrite rollback_calls, Hb, Hmade, Hcalls2, <- !app_assoc.
      split; [reflexivity |]. split.
      * destruct Hshape as [-> | [p [-> | ->]]].
        -- exists "", b. apply sublist_skip. do 2 apply sublist_cons.
           apply sublist_skip, sublist_nil_l.
        -- exists p, b. do 2 apply sublist_skip. apply sublist_cons.
           apply sublist_skip, sublist_nil_l.
        -- exists p, b. do 4 apply sublist_skip. apply sublist_nil_l.
      * split; [intros ? ? ? ? [= <- <-] _ _ _ Hb'; congruence |].
        intros b' Hin.
        assert (b' = b) as ->.
        { destruct Hshape as [-> | [p [-> | ->]]]; cbn in Hin;
            intuition (try discriminate; congruence). }
        exists dc, st1, st2, e0, st3. auto.
Qed.

(** Where the check throws, the core test finds a core resource or the
    gate finds active dependents without [force], [safeDelete] ends with
    that error in the state the check left: the check is the one call
    recorded, and no file has changed. *)
Lemma safeDelete_refusal (E : Env) (this : SafeDeleteManager)
      (name type : string) (options : PartialDeleteOptions) (st : state)
      (r : result DependencyCheckResult) (st1 : state) :
  checkDependencies E this name type (logged CallCheckDependencies st) = (r, st1) ->
  calls st1 = calls st ++ [CallCheckDependencies] /\
  files st1 = files st /\
  match r with
  | Err e => safeDelete E this name type options st = (Err e, st1)
  | OK dc =>
      if isCore dc then
        safeDelete E this name type options st = (Err CoreResourceProtected, st1)
      else if hasActive dc && negb (force (fullOptions options)) then
        safeDelete E this name type options st
        = (Err (DependenciesExist (depList (dependencies dc))), st1)
      else True
  end.
Proof.
  intros Hcheck.
  pose proof (reads_only_checkDependencies E this name type
                (logged CallCheckDependencies st)) as [Hf Hc].
  rewrite Hcheck in Hf, Hc. cbn [snd] in Hf, Hc.
  rewrite logged_files in Hf. rewrite logged_calls in Hc.
  split; [exact Hc |]. split; [exact Hf |].
  rewrite safeDelete_eq, Hcheck. destruct r as [dc | e]; [| reflexivity].
  destruct (isCore dc); [reflexivity |].
  now destruct (hasActive dc && negb (force (fullOptions options))).
Qed.

(** C5. The steps of [safeDelete] come in one order: the dependency
    check, the core test and the gate, then the backup, the removal, the
    update of the dependents and, last, the roll-back; each is entered at
    most once.  The check, the core test and the gate come before all
    else: when the check throws, the core test finds a core resource or
    the gate finds active dependents without [force], the call ends there
    with that error, no later step has been entered and no file has
    changed; so a backup, a removal, an update or a roll-back is entered
    only once the check has returned, the resource is not of the core and
    the gate is open.  When [createBackup] fails the call ends with its
    error, before a removal is attempted.  The roll-back is entered only
    after the guarded deletion (steps 5 to 7) has failed, and then only
    with the backup taken before it. *)
Theorem safeDelete_step_order (E : Env) (this : SafeDeleteManager)
        (name type : string) (options : PartialDeleteOptions) (st : state) :
  exists tail,
    calls (snd (safeDelete E this name type options st))
      = calls st ++ CallCheckDependencies :: tail /\
    (exists p b,
        tail `sublist_of`
          [CallCreateBackup; CallRemove p; CallUpdateDependencies; CallRestoreBackup b]) /\
    (forall r st1,
        checkDependencies E this name type (logged CallCheckDependencies st) = (r, st1) ->
        let refused e :=
          safeDelete E this name type options st = (Err e, st1) /\
          tail = [] /\ files st1 = files st in
        match r with
        | Err e => refused e
        | OK dc =>
            if isCore dc then refused CoreResourceProtected
            else if hasActive dc && negb (force (fullOptions options)) then
              refused (DependenciesExist (depList (dependencies dc)))
            else True
        end) /\
    (tail <> [] ->
     exists dc st1,
       checkDependencies E this name type (logged CallCheckDependencies st) = (OK dc, st1) /\
       isCore dc = false /\
       hasActive dc && negb (force (fullOptions options)) = false) /\
    (forall dc st1 e st2,
        checkDependencies E this name type (logged CallCheckDependencies st) = (OK dc, st1) ->
        isCore dc = false ->
        hasActive dc && negb (force (fullOptions options)) = false ->
        skipBackup (fullOptions options) = false ->
        createBackup E this name type (dependencies dc) (logged CallCreateBackup st1)
          = (Err e, st2) ->
        safeDelete E this name type options st = (Err e, st2) /\
        tail = [CallCreateBackup]) /\
    (forall b,
        In (CallRestoreBackup b) tail ->
        exists dc st1 st2 e0 st3,
          checkDependencies E this name type (logged CallCheckDependencies st) = (OK dc, st1) /\
          createBackup E this name type (dependencies dc) (logged CallCreateBackup st1)
            = (OK b, st2) /\
          deleteAndUpdate E this name type (fullOptions options) (dependencies dc) st2
            = (Err e0, st3)).
Proof.
  destruct (safeDelete_calls E this name type options st)
    as (tail & Hcalls & Hsub & Hfail & Hroll).
  assert (Hstop : forall e st1,
             safeDelete E this name type options st = (Err e, st1) ->
             calls st1 = calls st ++ [CallCheckDependencies] -> tail = []).
  { intros e st1 Hrun Hc. rewrite Hrun in Hcalls. cbn [snd] in Hcalls.
    rewrite Hc in Hcalls. apply app_inv_head in Hcalls. now injection Hcalls as <-. }
  assert (Hgate : forall r st1,
             checkDependencies E this name type (logged CallCheckDependencies st) = (r, st1) ->
             let refused e :=
               safeDelete E this name type options st = (Err e, st1) /\
               tail = [] /\ files st1 = files st in
             match r with
             | Err e => refused e
             | OK dc =>
                 if isCore dc then refused CoreResourceProtected
                 else if hasActive dc && negb (force (fullOptions options)) then
                   refused (DependenciesExist (depList (dependencies dc)))
                 else True
             end).
  { intros r st1 Hcheck refused. subst refused.
    destruct (safeDelete_refusal E this name type options st r st1 Hcheck)
      as (Hc & Hf & Hr).
    destruct r as [dc | e]; [| now eauto].
    destruct (isCore dc); [now eauto |].
    destruct (hasActive dc && negb (force (fullOptions options))); [now eauto | exact I]. }
  exists tail. split; [exact Hcalls |]. split; [exact Hsub |]. split; [exact Hgate |].
  split; [| split; [exact Hfail | exact Hroll]].
  intros Htail.
  destruct (checkDependencies E this name type (logged CallCheckDependencies st))
    as [r st1] eqn:Hcheck.
  specialize (Hgate r st1 eq_refl). cbv zeta in Hgate.
  destruct r as [dc | e]; [| now destruct Hgate as (_ & ? & _)].
  destruct (isCore dc) eqn:HisCore; [now destruct Hgate as (_ & ? & _) |].
  destruct (hasActive dc && negb (force (fullOptions options))) eqn:Hopen;
    [now destruct Hgate as (_ & ? & _) |].
  exists dc, st1. auto.
Qed.

(** ** Backup, removal and restore on the store *)

Lemma fs_write_OK (E : Env) (shown : string) op st st' :
  fs_write E shown op st = (OK tt, st') ->
  exists p, resolve E shown = Some p /\ op p (files st) = OK (files st').
Proof.
  unfold fs_write. destruct (io_fault E (ticks st)); [discriminate |].
  destruct (resolve E shown) as [p |]; [| discriminate].
  destruct (op p (files st)) as [fs' |] eqn:Hop; [| discriminate].
  intros [= <-]. eauto.
Qed.

Lemma fs_write_files (E : Env) (shown : string) op st :
  files (snd (fs_write E shown op st)) = files st \/
  exists p, resolve E shown = Some p /\
            op p (files st) = OK (files (snd (fs_write E shown op st))).
Proof.
  unfold fs_write. destruct (io_fault E (ticks st)); [now left |].
  destruct (resolve E shown) as [p |]; [| now left].
  destruct (op p (files st)) as [fs' |] eqn:Hop; [| now left].
  right. eauto.
Qed.

Lemma comparable (a b s t : fpath) :
  a ++ s = b ++ t -> under a b = true \/ under b a = true.
Proof.
  revert b. induction a as [| x a IH]; intros b H.
  - left. apply under_true. now exists b.
  - destruct b as [| y b]; [right; apply under_true; now eexists |].
    cbn in H. injection H as -> H. destruct (IH _ H) as [Hu | Hu];
      [left | right]; apply under_true in Hu as [r ->]; apply under_true; now exists r.
Qed.

Lemma under_length (a b : fpath) : under a b = true -> length a <= length b.
Proof. intros [s ->]%under_true. rewrite length_app. lia. Qed.

Lemma under_cons_false (a : fpath) (x : string) (s : fpath) : under (a ++ x :: s) a = false.
Proof.
  destruct (under (a ++ x :: s) a) eqn:H; [| reflexivity].
  apply under_length in H. rewrite length_app in H. cbn in H. lia.
Qed.

Lemma under_app_l (a b s : fpath) : under (a ++ s) b = true -> under a b = true.
Proof.
  intros [t ->]%under_true. apply under_true. exists (s ++ t). now rewrite app_assoc.
Qed.

(** [mkdir -p] succeeds only when no regular file is on the way. *)
Lemma mkdirs_no_file (shown : string) (todo done : fpath) (fs fs' : store)
      (k : fpath) (c : string) :
  Fs.mkdirs shown done todo fs = OK fs' ->
  under done k = true -> under k (done ++ todo) = true ->
  fs !! k <> Some (File c).
Proof.
  revert done fs. induction todo as [| s todo IH]; intros done fs H Hd Hk; cbn [Fs.mkdirs] in H.
  - rewrite app_nil_r in Hk.
    assert (k = done) as ->.
    { apply under_true in Hd as [a ->], Hk as [b Hk]. rewrite <- app_assoc in Hk.
      rewrite <- (app_nil_r done) in Hk at 1. apply app_inv_head in Hk.
      symmetry in Hk. apply app_eq_nil in Hk as [-> _]. now rewrite app_nil_r. }
    destruct (fs !! done) as [[c' |] |]; [discriminate | discriminate | discriminate].
  - destruct (decide (k = done)) as [-> | Hne].
    + destruct (fs !! done) as [[c' |] |]; [discriminate | discriminate | discriminate].
    + assert (Hstep : under (done ++ [s]) k = true).
      { apply under_true in Hd as [a ->], Hk as [b Hk].
        rewrite <- app_assoc in Hk. apply app_inv_head in Hk.
        destruct a as [| x a]; [rewrite app_nil_r in Hne; congruence |].
        injection Hk as <- _. apply under_true. exists a. now rewrite <- app_assoc. }
      replace (done ++ s :: todo) with ((done ++ [s]) ++ todo) in Hk
        by (now rewrite <- app_assoc).
      destruct (fs !! done) as [[c' |] |] eqn:Hdone; [discriminate | |].
      * now apply (IH _ _ H).
      * pose proof (IH _ _ H Hstep Hk) as Hins. rewrite lookup_insert_ne in Hins; congruence.
Qed.

Lemma ensureDir_lookup (shown : string) (p : fpath) (fs fs' : store) (k : fpath) :
  Fs.ensureDir shown p fs = OK fs' ->
  fs' !! k = match fs !! k with
             | Some e => Some e
             | None => if under k p then Some Dir else None
             end.
Proof. intros H. now rewrite (mkdirs_lookup _ _ _ _ _ k H). Qed.

Lemma copy_inv (ss sd : string) (src dst : fpath) (fs fs' : store) :
  Fs.copy ss sd src dst fs = OK fs' ->
  exists e fs1,
    fs !! src = Some e /\ src <> dst /\
    (is_dir e = true -> under src dst = false) /\
    Fs.ensureDir (Path.dirname sd) (Fs.parent dst) fs = OK fs1 /\
    fs' = Fs.graft dst (Fs.subtree fs src) fs1.
Proof.
  unfold Fs.copy. destruct (fs !! src) as [e |]; [| discriminate].
  case_bool_decide as Hsame; [discriminate |].
  destruct (match fs !! dst with Some d => is_dir e && negb (is_dir d) | None => false end);
    [discriminate |].
  destruct (match fs !! dst with Some d => negb (is_dir e) && is_dir d | None => false end);
    [discriminate |].
  destruct (is_dir e && under src dst) eqn:Hsub; [discriminate |].
  destruct (existsb _ _); [discriminate |].
  destruct (Fs.ensureDir _ _ fs) as [fs1 |] eqn:Hmk; [| discriminate].
  intros [= <-]. exists e, fs1. repeat split; try assumption.
  intros Hd. rewrite Hd in Hsub. exact Hsub.
Qed.

Lemma writeFile_inv (shown : string) (p : fpath) (c : string) (fs fs' : store) :
  Fs.writeFile shown p c fs = OK fs' -> fs' = <[p := File c]> fs.
Proof.
  unfold Fs.writeFile. destruct p; [discriminate |].
  destruct (fs !! Fs.parent _) as [[? |] |]; try discriminate.
  destruct (fs !! _) as [[? |] |]; try discriminate; now intros [= <-].
Qed.

Lemma parent_snoc (l : fpath) (x : string) : Fs.parent (l ++ [x]) = l.
Proof. apply removelast_last. Qed.

Lemma under_parent_false (l s : fpath) : l <> [] -> under (l ++ s) (Fs.parent l) = false.
Proof.
  intros Hl. destruct (exists_last Hl) as (l' & x & ->). rewrite parent_snoc.
  rewrite <- app_assoc. apply under_cons_false.
Qed.

Section BackupStore.

Context (f0 : store) (Pr Br : fpath) (bn : string).

Hypothesis resource_present : is_Some (f0 !! Pr).
Hypothesis backup_fresh : forall q, under Br q = true -> f0 !! q = None.
Hypothesis not_metadata : bn <> "metadata.json".

Lemma resource_outside_backup : under Br Pr = false.
Proof.
  destruct (under Br Pr) eqn:H; [| reflexivity].
  apply backup_fresh in H. destruct resource_present as [e He]. congruence.
Qed.

(** No path below the resource is below the backup directory. *)
Lemma below_resource_outside (s : fpath) :
  under Pr Br = false -> under Br (Pr ++ s) = false.
Proof.
  intros Hout. destruct (under Br (Pr ++ s)) eqn:H; [| reflexivity].
  apply under_true in H as [t H]. apply comparable in H as [H | H].
  - congruence.
  - now rewrite resource_outside_backup in H.
Qed.

Lemma below_backup_outside (t : fpath) :
  under Pr Br = false -> under Pr (Br ++ t) = false.
Proof.
  intros Hout. destruct (under Pr (Br ++ t)) eqn:H; [| reflexivity].
  apply under_true in H as [s H]. symmetry in H. apply comparable in H as [H | H].
  - congruence.
  - now rewrite resource_outside_backup in H.
Qed.

Context (sb sp sc sm text : string) (f1 f2 f3 : store).

Hypothesis made_dir : Fs.ensureDir sb Br f0 = OK f1.
Hypothesis copied : Fs.copy sp sc Pr (Br ++ [bn]) f1 = OK f2.
Hypothesis described : Fs.writeFile sm (Br ++ ["metadata.json"]) text f2 = OK f3.

(** The backup directory is not inside the resource. *)
Lemma backup_outside_resource : under Pr Br = false.
Proof.
  destruct (under Pr Br) eqn:H; [| reflexivity]. exfalso.
  destruct (copy_inv _ _ _ _ _ _ copied) as (e & fs1 & He & _ & Hdir & _ & _).
  destruct e as [c |].
  - (* a regular file on the way to the backup directory *)
    rewrite (ensureDir_lookup _ _ _ _ Pr made_dir) in He.
    destruct (f0 !! Pr) as [e0 |] eqn:H0; [| now rewrite H in He].
    injection He as ->.
    eapply (mkdirs_no_file sb Br [] f0 f1 Pr c); try eassumption.
    apply under_true. now exists Pr.
  - specialize (Hdir eq_refl).
    assert (under Pr (Br ++ [bn]) = true) by (eapply under_trans; [exact H | apply under_app]).
    congruence.
Qed.

Lemma made_dir_below_resource (s : fpath) : f1 !! (Pr ++ s) = f0 !! (Pr ++ s).
Proof.
  rewrite (ensureDir_lookup _ _ _ _ _ made_dir).
  destruct (f0 !! (Pr ++ s)); [reflexivity |].
  destruct (under (Pr ++ s) Br) eqn:H; [| reflexivity].
  apply under_app_l in H. now rewrite backup_outside_resource in H.
Qed.

Lemma made_dir_below_backup (x : string) (t : fpath) : f1 !! (Br ++ x :: t) = None.
Proof.
  rewrite (ensureDir_lookup _ _ _ _ _ made_dir), backup_fresh by apply under_app.
  now rewrite under_cons_false.
Qed.

(** The backup holds a copy of the resource as it was. *)
Lemma backup_copy (s : fpath) : f3 !! ((Br ++ [bn]) ++ s) = f0 !! (Pr ++ s).
Proof.
  rewrite (writeFile_inv _ _ _ _ _ described), lookup_insert_ne.
  2:{ rewrite <- app_assoc. intros H. apply app_inv_head in H.
      injection H as Hb _. now apply not_metadata. }
  destruct (copy_inv _ _ _ _ _ _ copied) as (e & fs1 & He & _ & _ & Hmk & Hf2).
  rewrite Hf2, lookup_graft, strip_prefix_app, made_dir_below_resource.
  destruct (f0 !! (Pr ++ s)); [reflexivity |].
  rewrite parent_snoc in Hmk.
  rewrite (ensureDir_lookup _ _ _ _ _ Hmk), <- app_assoc. cbn [app].
  now rewrite made_dir_below_backup, under_cons_false.
Qed.

Lemma backup_metadata : f3 !! (Br ++ ["metadata.json"]) = Some (File text).
Proof. rewrite (writeFile_inv _ _ _ _ _ described). apply lookup_insert_eq. Qed.

(** Taking the backup leaves the resource as it was. *)
Lemma backup_keeps_resource (s : fpath) : f3 !! (Pr ++ s) = f0 !! (Pr ++ s).
Proof.
  pose proof (below_resource_outside s backup_outside_resource) as Hout.
  rewrite (writeFile_inv _ _ _ _ _ described), lookup_insert_ne.
  2:{ intros H. rewrite <- H, under_app in Hout. discriminate. }
  destruct (copy_inv _ _ _ _ _ _ copied) as (e & fs1 & He & _ & _ & Hmk & Hf2).
  rewrite Hf2, lookup_graft.
  destruct (strip_prefix (Br ++ [bn]) (Pr ++ s)) as [t |] eqn:Hs.
  { apply strip_prefix_Some in Hs. rewrite Hs, <- app_assoc, under_app in Hout.
    discriminate. }
  rewrite parent_snoc in Hmk.
  rewrite (ensureDir_lookup _ _ _ _ _ Hmk), made_dir_below_resource.
  destruct (f0 !! (Pr ++ s)); [reflexivity |].
  destruct (under (Pr ++ s) Br) eqn:H; [| reflexivity].
  apply under_app_l in H. now rewrite backup_outside_resource in H.
Qed.

(** Copying the backup back, whether or not the removal took place. *)
Lemma restore_copy (f f4 : store) (s : fpath) :
  f = f3 \/ f = Fs.remove Pr f3 ->
  Fs.copy sc sp (Br ++ [bn]) Pr f = OK f4 ->
  f4 !! (Pr ++ s) = f0 !! (Pr ++ s).
Proof.
  intros Hf Hcopy.
  assert (Hbackup : forall t, f !! ((Br ++ [bn]) ++ t) = f0 !! (Pr ++ t)).
  { intros t. destruct Hf as [-> | ->]; [apply backup_copy |].
    rewrite lookup_remove, <- app_assoc.
    rewrite (below_backup_outside _ backup_outside_resource), app_assoc.
    apply backup_copy. }
  assert (Hres : forall t, f !! (Pr ++ t) = None \/ f !! (Pr ++ t) = f0 !! (Pr ++ t)).
  { intros t. destruct Hf as [-> | ->]; [right; apply backup_keeps_resource |].
    left. now rewrite lookup_remove, under_app. }
  destruct (copy_inv _ _ _ _ _ _ Hcopy) as (e & fs1 & He & _ & _ & Hmk & ->).
  rewrite lookup_graft, strip_prefix_app, Hbackup.
  destruct (f0 !! (Pr ++ s)) eqn:H0; [reflexivity |].
  rewrite (ensureDir_lookup _ _ _ _ _ Hmk).
  assert (HPr : Pr <> []).
  { intros HPr. pose proof backup_outside_resource as Hb. rewrite HPr in Hb.
    discriminate. }
  rewrite (under_parent_false _ _ HPr).
  destruct (Hres s) as [-> | ->]; rewrite ?H0; reflexivity.
Qed.

End BackupStore.

(** ** Backup, removal and restore as the program runs them *)

Section Rollback.

Context (E : Env) (this : SafeDeleteManager).

Lemma fs_read_OK {A} (shown : string) (op : fpath -> store -> result A) st a st' :
  fs_read E shown op st = (OK a, st') ->
  exists p, resolve E shown = Some p /\ op p (files st) = OK a /\ files st' = files st.
Proof.
  unfold fs_read. destruct (io_fault E (ticks st)); [discriminate |].
  destruct (resolve E shown) as [p |]; [| discriminate].
  intros [= Hop <-]. eauto.
Qed.

(** The object [loadAgent] builds has neither [dependencies] nor
    [definition]. *)
Lemma loadAgent_object id st a st' :
  loadAgent E (layerManager this) id st = (OK a, st') ->
  agent_name a = id /\ agent_dependencies a = None /\ agent_definition a = None.
Proof.
  unfold loadAgent. intros H.
  apply bind_inv_OK in H as (ap & s1 & _ & H).
  apply bind_inv_OK in H as (ex & s2 & _ & H).
  destruct (negb ex); [discriminate |].
  apply bind_inv_OK in H as (c & s3 & _ & H).
  injection H as <- _. auto.
Qed.

Lemma reads_only_updateDependencies name deps :
  reads_only (updateDependencies E this name deps).
Proof.
  unfold updateDependencies. apply reads_only_for_of. intros [] dep.
  destruct (dep_type dep); [| apply reads_only_ret].
  intros st. unfold bind.
  pose proof (reads_only_loadAgent E (layerManager this) (dep_name dep) st) as Hload.
  destruct (loadAgent E (layerManager this) (dep_name dep) st) as [[a | e] st1] eqn:Ha;
    [| exact Hload].
  apply loadAgent_object in Ha as (_ & _ & ->). exact Hload.
Qed.

Lemma present_true st p q :
  resolve E p = Some q -> present E st p = true -> is_Some (files st !! q).
Proof. unfold present. intros ->. apply bool_decide_eq_true_1. Qed.

Lemma getResourcePath_Some type name st P :
  fst (getResourcePath E (layerManager this) type name st) = OK (Some P) ->
  present E st P = true /\
  forall st', fst (getResourcePath E (layerManager this) type name st')
              = OK (if present E st' P then Some P else None).
Proof.
  rewrite getResourcePath_eq. cbn [fst].
  destruct (Js.truthy (activeCoreSystem E)) as [ac |] eqn:Hac; [| discriminate].
  cbv zeta. destruct (present E st _) eqn:Hp; [| discriminate].
  intros [= <-]. split; [exact Hp |].
  intros st'. rewrite getResourcePath_eq, Hac. reflexivity.
Qed.

Lemma deleteAndUpdate_files name type options deps st r st' P Pr :
  fst (getResourcePath E (layerManager this) type name st) = OK (Some P) ->
  resolve E P = Some Pr ->
  deleteAndUpdate E this name type options deps st = (r, st') ->
  files st' = files st \/ files st' = Fs.remove Pr (files st).
Proof.
  intros HP HPr. unfold deleteAndUpdate.
  rewrite (bind_OK _ _ _ _ _ (getResourcePath_run E _ _ _ _ _ HP)), bind_record.
  pose proof (fs_write_files E P (fun q fs => OK (Fs.remove q fs))
                (logged (CallRemove P) st)) as Hrm.
  fold (fs_remove E P) in Hrm.
  destruct (fs_remove E P (logged (CallRemove P) st)) as [[u | e] st1] eqn:Hremove;
    cbn [snd] in Hrm; rewrite logged_files in Hrm.
  - rewrite (bind_OK _ _ _ _ _ Hremove).
    assert (Hst1 : files st1 = files st \/ files st1 = Fs.remove Pr (files st)).
    { destruct Hrm as [Hrm | (p & Hp & Hrm)]; [now left | right].
      rewrite HPr in Hp. cbv beta in Hrm. congruence. }
    destruct (updateDeps options).
    + rewrite bind_record. intros Hup.
      pose proof (reads_only_updateDependencies name deps
                    (logged CallUpdateDependencies st1)) as [Hf _].
      rewrite Hup in Hf. cbn [snd] in Hf. rewrite logged_files in Hf.
      now rewrite Hf.
    + now intros [= _ <-].
  - rewrite (bind_Err _ _ _ _ _ Hremove). intros [= _ <-].
    destruct Hrm as [Hrm | (p & Hp & Hrm)]; [now left | right].
    rewrite HPr in Hp. cbv beta in Hrm. congruence.
Qed.

Lemma createBackup_inv name type deps st b st' :
  createBackup E this name type deps st = (OK b, st') ->
  exists P Br Pr Cr Mr f1 f2,
    b = Path.join [backupDir this; name +:+ "-" +:+ Js.replace_colon_dot (now E)] /\
    fst (getResourcePath E (layerManager this) type name st) = OK (Some P) /\
    resolve E b = Some Br /\ resolve E P = Some Pr /\
    resolve E (Path.join [b; Path.basename P]) = Some Cr /\
    resolve E (Path.join [b; "metadata.json"]) = Some Mr /\
    Fs.ensureDir b Br (files st) = OK f1 /\
    Fs.copy P (Path.join [b; Path.basename P]) Pr Cr f1 = OK f2 /\
    Fs.writeFile (Path.join [b; "metadata.json"]) Mr
      (JSON_stringify E
         (metadata_json {| bm_timestamp := Js.replace_colon_dot (now E);
                           bm_resourceName := name; bm_resourceType := type;
                           bm_dependencies := deps; bm_originalPath := P |})) f2
      = OK (files st').
Proof.
  unfold createBackup. intros H.
  apply bind_inv_OK in H as (op & s1 & Hget & H).
  assert (s1 = st) as -> by (rewrite getResourcePath_eq in Hget; congruence).
  destruct op as [P |]; [| discriminate].
  apply bind_inv_OK in H as ([] & s2 & Hmk & H).
  apply bind_inv_OK in H as ([] & s3 & Hcp & H).
  apply bind_inv_OK in H as ([] & s4 & Hwr & H).
  injection H as <- <-.
  apply fs_write_OK in Hmk as (Br & HBr & Hmk).
  apply fs_write_OK in Hcp as (Pr & HPr & Hcp).
  apply fs_write_OK in Hwr as (Mr & HMr & Hwr).
  destruct (resolve E (Path.join [_; Path.basename P])) as [Cr |] eqn:HCr; [| discriminate].
  exists P, Br, Pr, Cr, Mr, (files s2), (files s3).
  rewrite Hget. repeat split; assumption.
Qed.

Lemma restoreBackup_inv b st st' :
  restoreBackup E this b st = (OK tt, st') ->
  exists Mr text j P Cr Pr,
    resolve E (Path.join [b; "metadata.json"]) = Some Mr /\
    files st !! Mr = Some (File text) /\
    JSON_parse E text = Some j /\
    json_get "originalPath" j = Some (JStr P) /\
    resolve E (Path.join [b; Path.basename P]) = Some Cr /\
    resolve E P = Some Pr /\
    Fs.copy (Path.join [b; Path.basename P]) P Cr Pr (files st) = OK (files st').
Proof.
  unfold restoreBackup. intros H.
  apply bind_inv_OK in H as (ex & s1 & Hex & H).
  rewrite fs_pathExists_eq in Hex. injection Hex as <- <-.
  destruct (negb _); [discriminate |].
  apply bind_inv_OK in H as (j & s2 & Hjson & H).
  unfold fs_readJSON in Hjson.
  apply bind_inv_OK in Hjson as (text & s3 & Hread & Hjson).
  apply fs_read_OK in Hread as (Mr & HMr & Hread & Hs3).
  destruct (JSON_parse E text) as [j' |] eqn:Hparse; [| discriminate].
  injection Hjson as -> ->.
  destruct (json_get "originalPath" j) as [[| | P | |] |] eqn:Horig; try discriminate.
  apply bind_inv_OK in H as (ex' & s4 & Hex' & H).
  rewrite fs_pathExists_eq in Hex'. injection Hex' as <- <-.
  destruct (negb _); [discriminate |].
  apply fs_write_OK in H as (Cr & HCr & H).
  destruct (resolve E P) as [Pr |] eqn:HPr; [| discriminate].
  exists Mr, text, j, P, Cr, Pr. rewrite Hs3 in H.
  unfold Fs.readFile in Hread. destruct (files st !! Mr) as [[c |] |]; try discriminate.
  injection Hread as ->. repeat split; assumption.
Qed.

End Rollback.

Section Recovery.

Context (E : Env) (this : SafeDeleteManager).

(** The three writes of a backup that was taken, on the store. *)
Lemma createBackup_store (name type : string) (deps : list ResourceDependency) st (b : string) st2 (P : string) (Pr Br : fpath) :
  createBackup E this name type deps st = (OK b, st2) ->
  fst (getResourcePath E (layerManager this) type name st) = OK (Some P) ->
  resolve E P = Some Pr -> resolve E b = Some Br ->
  Path.is_segment (Path.basename P) ->
  b <> "" /\
  exists f1 f2,
    Fs.ensureDir b Br (files st) = OK f1 /\
    Fs.copy P (Path.join [b; Path.basename P]) Pr (Br ++ [Path.basename P]) f1 = OK f2 /\
    Fs.writeFile (Path.join [b; "metadata.json"]) (Br ++ ["metadata.json"])
      (JSON_stringify E (backup_document E name type deps P)) f2 = OK (files st2).
Proof.
  intros Hbackup HP HPr HBr Hseg.
  apply createBackup_inv in Hbackup
    as (P' & Br' & Pr' & Cr & Mr & f1 & f2 & Hb & HP' & HBr' & HPr' & HCr & HMr
        & Hmk & Hcp & Hwr).
  assert (Hne : b <> "") by (rewrite Hb; apply join_not_empty).
  rewrite HP in HP'. injection HP' as <-.
  rewrite HBr in HBr'. injection HBr' as <-.
  rewrite HPr in HPr'. injection HPr' as <-.
  rewrite resolve_join_segment, HBr in HCr by assumption. injection HCr as <-.
  rewrite resolve_join_segment, HBr in HMr by (assumption || reflexivity).
  injection HMr as <-.
  split; [exact Hne |]. exists f1, f2. auto.
Qed.

(** Restoring a backup that was taken puts the resource back, whether
    the removal took place or not. *)
Lemma restore_recovers (name type : string) (deps : list ResourceDependency) (P : string) (Pr Br : fpath) (b : string) (f0 f1 f2 : store) (st2 st3 st4 : state) :
  b <> "" ->
  resolve E P = Some Pr -> resolve E b = Some Br ->
  Path.is_segment (Path.basename P) -> Path.basename P <> "metadata.json" ->
  is_Some (f0 !! Pr) ->
  (forall q, under Br q = true -> f0 !! q = None) ->
  Fs.ensureDir b Br f0 = OK f1 ->
  Fs.copy P (Path.join [b; Path.basename P]) Pr (Br ++ [Path.basename P]) f1 = OK f2 ->
  Fs.writeFile (Path.join [b; "metadata.json"]) (Br ++ ["metadata.json"])
    (JSON_stringify E (backup_document E name type deps P)) f2 = OK (files st2) ->
  files st3 = files st2 \/ files st3 = Fs.remove Pr (files st2) ->
  JSON_parse E (JSON_stringify E (backup_document E name type deps P))
    = Some (backup_document E name type deps P) ->
  restoreBackup E this b st3 = (OK tt, st4) ->
  forall s, files st4 !! (Pr ++ s) = f0 !! (Pr ++ s).
Proof.
  intros Hb HPr HBr Hseg Hmeta Hres Hfresh Hmk Hcp Hwr Hf3 Hjson Hrestore s.
  assert (Hout : under Pr Br = false).
  { eapply backup_outside_resource; eassumption. }
  assert (Hdoc : files st2 !! (Br ++ ["metadata.json"]) =
                 Some (File (JSON_stringify E (backup_document E name type deps P)))).
  { eapply backup_metadata; eassumption. }
  apply restoreBackup_inv in Hrestore
    as (Mr & text & j & P' & Cr & Pr' & HMr & Htext & Hparse & Horig & HCr & HPr' & Hcopy).
  rewrite resolve_join_segment, HBr in HMr by (assumption || reflexivity).
  injection HMr as <-.
  assert (Htext' : files st2 !! (Br ++ ["metadata.json"]) = Some (File text)).
  { destruct Hf3 as [Hf3 | Hf3]; rewrite Hf3 in Htext; [exact Htext |].
    rewrite lookup_remove in Htext.
    now rewrite (below_backup_outside f0 Pr Br Hres Hfresh _ Hout) in Htext. }
  rewrite Hdoc in Htext'. injection Htext' as <-.
  rewrite Hjson in Hparse. injection Hparse as <-.
  cbn in Horig. injection Horig as <-.
  rewrite HPr in HPr'. injection HPr' as <-.
  rewrite resolve_join_segment, HBr in HCr by assumption. injection HCr as <-.
  eapply (restore_copy f0 Pr Br (Path.basename P) Hres Hfresh Hmeta); eassumption.
Qed.

(** When the guarded deletion completes, the resource is gone. *)
Lemma deleteAndUpdate_OK_files (name type : string) (options : DeleteOptions) (deps : list ResourceDependency) (st st' : state) (P : string) (Pr : fpath) :
  fst (getResourcePath E (layerManager this) type name st) = OK (Some P) ->
  resolve E P = Some Pr ->
  deleteAndUpdate E this name type options deps st = (OK tt, st') ->
  files st' = Fs.remove Pr (files st).
Proof.
  intros HP HPr. unfold deleteAndUpdate.
  rewrite (bind_OK _ _ _ _ _ (getResourcePath_run E _ _ _ _ _ HP)), bind_record.
  destruct (fs_remove E P (logged (CallRemove P) st)) as [[[] | e] st1] eqn:Hremove.
  2:{ rewrite (bind_Err _ _ _ _ _ Hremove). discriminate. }
  rewrite (bind_OK _ _ _ _ _ Hremove).
  apply fs_write_OK in Hremove as (p & Hp & Hrm).
  rewrite HPr in Hp. injection Hp as <-. cbv beta in Hrm.
  rewrite logged_files in Hrm. injection Hrm as Hrm.
  destruct (updateDeps options).
  - rewrite bind_record. intros Hup.
    pose proof (reads_only_updateDependencies E this name deps
                  (logged CallUpdateDependencies st1)) as [Hf _].
    rewrite Hup in Hf. cbn [snd] in Hf. rewrite logged_files in Hf. congruence.
  - intros [= <-]. congruence.
Qed.

End Recovery.

(** For a resource whose file name, the base name of its path, is an
    ordinary path segment other than [metadata.json], and a backup
    directory at and below which nothing existed before: a deletion that
    completes with a backup leaves, in the backup directory, a copy of
    the resource as it was and the metadata document naming its original
    path; the resource itself is gone; and, the metadata document reading
    back as it was written, [restoreBackup] on that backup, when it
    completes, puts the resource back at its original path as it was
    before the deletion.  (A resource named [metadata.json] is left out:
    the metadata document is written over its copy.) *)
Theorem backup_restore_roundtrip (E : Env) (this : SafeDeleteManager)
        (name type : string) (options : PartialDeleteOptions) (st st' : state) :
  skipBackup (fullOptions options) = false ->
  safeDelete E this name type options st = (OK tt, st') ->
  exists dc P b,
    fst (checkDependencies E this name type (logged CallCheckDependencies st)) = OK dc /\
    fst (getResourcePath E (layerManager this) type name st) = OK (Some P) /\
    b = Path.join [backupDir this; name +:+ "-" +:+ Js.replace_colon_dot (now E)] /\
    forall Pr Br,
      resolve E P = Some Pr -> resolve E b = Some Br ->
      Path.is_segment (Path.basename P) -> Path.basename P <> "metadata.json" ->
      (forall q, under Br q = true -> files st !! q = None) ->
      (forall s, files st' !! ((Br ++ [Path.basename P]) ++ s) = files st !! (Pr ++ s)) /\
      files st' !! (Br ++ ["metadata.json"])
        = Some (File (JSON_stringify E (backup_document E name type (dependencies dc) P))) /\
      (forall s, files st' !! (Pr ++ s) = None) /\
      (JSON_parse E (JSON_stringify E (backup_document E name type (dependencies dc) P))
         = Some (backup_document E name type (dependencies dc) P) ->
       forall st'', restoreBackup E this b st' = (OK tt, st'') ->
       forall s, files st'' !! (Pr ++ s) = files st !! (Pr ++ s)).
Proof.
  intros Hskip. rewrite safeDelete_eq.
  destruct (checkDependencies E this name type (logged CallCheckDependencies st))
    as [[dc | e] st1] eqn:Hcheck; [| discriminate].
  destruct (isCore dc) eqn:HisCore; [discriminate |].
  destruct (hasActive dc && negb (force (fullOptions options))) eqn:Hgate; [discriminate |].
  rewrite Hskip. cbn [negb].
  destruct (createBackup E this name type (dependencies dc) (logged CallCreateBackup st1))
    as [[b | e] st2] eqn:Hbackup.
  2:{ discriminate. }
  destruct (deleteAndUpdate E this name type (fullOptions options) (dependencies dc) st2)
    as [[[] | e] st3] eqn:Hdelete.
  2:{ rewrite rollback_eq. destruct (Js.truthy (Some b)); [| discriminate].
      destruct (restoreBackup _ _ _ _) as [[] ?]; discriminate. }
  intros [= <-].
  pose proof (reads_only_checkDependencies E this name type
                (logged CallCheckDependencies st)) as [Hf1 _].
  rewrite Hcheck in Hf1. cbn [snd] in Hf1. rewrite logged_files in Hf1.
  pose proof Hbackup as Hinv.
  apply createBackup_inv in Hinv as (P & _ & _ & _ & _ & _ & _ & Hbdef & HP1 & _).
  assert (HP : fst (getResourcePath E (layerManager this) type name st) = OK (Some P)).
  { destruct (getResourcePath_Some E this type name _ P HP1) as [Hpresent Hlookup].
    rewrite Hlookup. unfold present in *. now rewrite logged_files, Hf1 in Hpresent; rewrite Hpresent. }
  exists dc, P, b. split; [reflexivity |]. split; [exact HP |]. split.
  { exact Hbdef. }
  intros Pr Br HPr HBr Hseg Hmeta Hfresh.
  destruct (getResourcePath_Some E this type name st P HP) as [Hpresent Hlookup].
  assert (Hres : is_Some (files st !! Pr)) by now apply (present_true E st P).
  destruct (createBackup_store E this _ _ _ _ _ _ P Pr Br Hbackup HP1 HPr HBr Hseg)
    as (Hb & f1 & f2 & Hmk & Hcp & Hwr).
  rewrite logged_files, Hf1 in Hmk.
  assert (Hout : under Pr Br = false) by (eapply backup_outside_resource; eassumption).
  assert (HP2 : fst (getResourcePath E (layerManager this) type name st2) = OK (Some P)).
  { rewrite Hlookup. unfold present. rewrite HPr.
    assert (Hkeep : files st2 !! (Pr ++ []) = files st !! (Pr ++ [])).
    { eapply backup_keeps_resource; eassumption. }
    rewrite app_nil_r in Hkeep. rewrite Hkeep.
    now rewrite bool_decide_eq_true_2. }
  pose proof (deleteAndUpdate_OK_files E this _ _ _ _ _ _ P Pr HP2 HPr Hdelete) as Hf3.
  split; [| split; [| split]].
  - intros s. rewrite Hf3, lookup_remove, <- app_assoc.
    rewrite (below_backup_outside (files st) Pr Br Hres Hfresh _ Hout), app_assoc.
    eapply backup_copy; eassumption.
  - rewrite Hf3, lookup_remove.
    rewrite (below_backup_outside (files st) Pr Br Hres Hfresh _ Hout).
    eapply backup_metadata; eassumption.
  - intros s. now rewrite Hf3, lookup_remove, under_app.
  - intros Hjson st'' Hrestore.
    eapply (restore_recovers E this name type (dependencies dc) P Pr Br b);
      try eassumption. now right.
Qed.

(** ** The program on the project tree *)

(** A run is its result paired with the state it leaves. *)
Lemma run_eq {A} (m : M A) (st : state) (r : result A) :
  fst (m st) = r -> m st = (r, snd (m st)).
Proof. intros <-. apply surjective_pairing. Qed.

(** *** No active core system *)

Lemma no_active_core_unresolved_witness :
  Js.truthy (activeCoreSystem unconfigured) = None /\
  listAgents unconfigured (layerManager manager) start = (OK [], start) /\
  forall id override,
    exists r, resolveAgent unconfigured (layerManager manager) id override start
              = (OK r, start) /\
              agentId r = id /\ coreSystem r = "" /\ corePath r = "" /\
              finalPath r = "" /\ layerSources r = [].
Proof.
  split; [reflexivity |].
  apply (no_active_core_unresolved unconfigured (layerManager manager) start).
  reflexivity.
Defined.

(** C6 fails without an active core system: the custom layer holds the
    template, yet [resolveTemplate] throws and returns no copy. *)
Lemma resolveTemplate_needs_core :
  present unconfigured start "/home/u/proj/.lcagents/custom/templates/foo.md" = true /\
  templatePath (layerManager manager) "bmad-core" custom "foo.md"
    = "/home/u/proj/.lcagents/custom/templates/foo.md" /\
  fst (resolveTemplate unconfigured (layerManager manager) "foo.md" start)
    = Err (Error "No active core system found").
Proof.
  split; [vm_compute; reflexivity |]. split; [reflexivity |]. vm_compute. reflexivity.
Qed.

(** Without an active core system, [resolveTemplate] throws for a
    template that the custom layer holds. *)
Lemma resolveTemplate_unconfigured_witness :
  resolveTemplate unconfigured (layerManager manager) "foo.md" start
    = (Err (Error "No active core system found"), start).
Proof.
  apply (resolveTemplate_unconfigured unconfigured (layerManager manager) "foo.md" start).
  reflexivity.
Defined.

Lemma resolveTemplate_precedence_witness :
  Js.truthy (activeCoreSystem calm) = Some "bmad-core" /\
  present calm start (templatePath (layerManager manager) "bmad-core" custom "story.md")
    = false /\
  present calm start (templatePath (layerManager manager) "bmad-core" org "story.md")
    = true /\
  resolveTemplate calm (layerManager manager) "story.md" start
    = (OK {| rws_name := "story.md";
             rws_path := "/home/u/proj/.lcagents/org/templates/story.md";
             rws_source := org |}, start).
Proof.
  split; [reflexivity |]. split; [reflexivity |]. split; [reflexivity |].
  apply (resolveTemplate_precedence calm (layerManager manager) "story.md" start "bmad-core");
    reflexivity.
Defined.

(** *** Core resources *)

Lemma core_resources_protected_witness :
  fst (getResourcePath calm (layerManager manager) "templates" "story.md" start)
    = OK (Some story_path) /\
  under_core (layerManager manager) story_path /\
  exists st',
    safeDelete calm manager "story.md" "templates" forced start
      = (Err CoreResourceProtected, st') /\
    files st' = files start /\
    calls st' = calls start ++ [CallCheckDependencies].
Proof.
  assert (Hcore : under_core (layerManager manager) story_path).
  { exists ".bmad-core/templates/story.md". reflexivity. }
  split; [reflexivity |]. split; [exact Hcore |].
  destruct (core_resources_protected calm "/home/u/proj" "story.md" "templates" forced start
              story_path eq_refl Hcore) as (e & st' & Hrun & Hfiles & Hcalls & _ & Herror).
  rewrite Herror in Hrun.
  - exists st'. auto.
  - intros n. reflexivity.
  - intros ac [= <-]. repeat constructor; intros q c [= <-]; vm_compute; discriminate.
Defined.

(** C10 fails for a name that climbs out of the core layer: the path
    [getResourcePath] returns is in the custom layer, and the dependency
    check reports that the resource is not a core resource. *)
Lemma getResourcePath_escapes_core :
  fst (getResourcePath calm (layerManager manager) "templates" foo_name start)
    = OK (Some foo_path) /\
  ~ under_core (layerManager manager) foo_path /\
  isCoreResource foo_path = false /\
  fst (checkDependencies calm manager foo_name "templates" start) = OK nothing_found.
Proof.
  split; [reflexivity |]. split; [| split; reflexivity].
  intros [rest H]. vm_compute in H. discriminate H.
Qed.

Lemma getResourcePath_in_core_witness :
  Js.truthy (activeCoreSystem calm) = Some "bmad-core" /\
  Path.is_segment ".bmad-core" /\ Path.is_segment "templates" /\
  Path.is_segment "story.md" /\
  fst (getResourcePath calm (LayerManager_new "/home/u/proj") "templates" "story.md" start)
    = OK (Some story_path) /\
  story_path = "/home/u/proj/.lcagents/core/.bmad-core/templates/story.md" /\
  under_core (LayerManager_new "/home/u/proj") story_path /\
  isCoreResource story_path = true /\
  (forall dc st',
      checkDependencies calm (SafeDeleteManager_new "/home/u/proj") "story.md" "templates"
        start = (OK dc, st') ->
      isCore dc = true).
Proof.
  do 5 (split; [reflexivity |]).
  apply (getResourcePath_in_core calm "/home/u/proj" "templates" "story.md" "bmad-core"
           start story_path); reflexivity.
Defined.

(** *** The dependency scan *)


(** *** Roll-back *)


Lemma foo_backup_fresh (q : fpath) :
  under foo_backup_location q = true -> files start !! q = None.
Proof.
  intros Hq. apply under_true in Hq as [s ->].
  apply not_elem_of_list_to_map_1. vm_compute.
  intros Hin. repeat (apply elem_of_cons in Hin as [Hin | Hin]; [discriminate Hin |]).
  now apply elem_of_nil in Hin.
Defined.


(** The custom template [foo.md], reached through a name that leaves the
    core layer, is deleted with a backup: it is gone from its place, the
    backup holds it as it was, and restoring the backup puts it back. *)
Lemma backup_restore_roundtrip_witness :
  fst (safeDelete calm manager foo_name "templates" defaults start) = OK tt /\
  (forall s,
     files (snd (safeDelete calm manager foo_name "templates" defaults start))
       !! (foo_location ++ s) = None) /\
  (forall s,
     files (snd (safeDelete calm manager foo_name "templates" defaults start))
       !! ((foo_backup_location ++ ["foo.md"]) ++ s) = files start !! (foo_location ++ s)) /\
  (forall st'',
     restoreBackup calm manager foo_backup
       (snd (safeDelete calm manager foo_name "templates" defaults start)) = (OK tt, st'') ->
     forall s, files st'' !! (foo_location ++ s) = files start !! (foo_location ++ s)).
Proof.
  destruct (backup_restore_roundtrip calm manager foo_name "templates" defaults start
              (snd (safeDelete calm manager foo_name "templates" defaults start)))
    as (dc & P & b & Hdc & HP & Hb & H).
  - reflexivity.
  - apply run_eq. vm_compute. reflexivity.
  - assert (HP' : fst (getResourcePath calm (layerManager manager) "templates" foo_name start)
                  = OK (Some foo_path)) by (vm_compute; reflexivity).
    rewrite HP' in HP. injection HP as <-.
    assert (Hb' : b = foo_backup) by (rewrite Hb; vm_compute; reflexivity).
    subst b.
    assert (Hdc' : fst (checkDependencies calm manager foo_name "templates"
                          (logged CallCheckDependencies start)) = OK nothing_found)
      by (vm_compute; reflexivity).
    rewrite Hdc' in Hdc. injection Hdc as <-.
    destruct (H foo_location foo_backup_location) as (Hcopy & _ & Hgone & Hback).
    + vm_compute. reflexivity.
    + vm_compute. reflexivity.
    + reflexivity.
    + discriminate.
    + exact foo_backup_fresh.
    + split; [vm_compute; reflexivity |]. split; [exact Hgone |].
      split; [exact Hcopy |]. apply Hback. vm_compute. reflexivity.
Defined.

(** *** Dependents that are agents *)

(** The scan of the agents never records a dependent: the object
    [loadAgent] hands out has no [dependencies]. *)
Lemma scan_agent_finds_nothing (E : Env) (this : SafeDeleteManager)
      (name : string) (deps : list ResourceDependency) (id : string) (st : state) :
  exists st', scan_agent E this name deps id st = (OK deps, st').
Proof.
  unfold scan_agent, try_catch, bind.
  destruct (loadAgent E (layerManager this) id st) as [[a | e] st1] eqn:Hload.
  - apply loadAgent_object in Hload as (_ & -> & _). cbn. eauto.
  - cbn. eauto.
Qed.

(** No dependent of kind [agent] is ever among the dependents that
    [checkDependencies] returns. *)
Lemma agents_never_recorded (E : Env) (this : SafeDeleteManager)
      (name type : string) (st : state) (dc : DependencyCheckResult) (st' : state) :
  checkDependencies E this name type st = (OK dc, st') ->
  Forall (fun d => dep_type d = resource) (dependencies dc).
Proof.
  intros Hcheck.
  apply checkDependencies_inv in Hcheck
    as (p & agents & st2 & found & st3 & resources & st4 & _ & _ & Hfound & _ & Hdeps & _).
  assert (Hnone : forall l acc s, exists s', for_of l (scan_agent E this name) acc s
                                             = (OK acc, s')).
  { induction l as [| id l IH]; intros acc s; cbn [for_of]; [now eexists |].
    destruct (scan_agent_finds_nothing E this name acc id s) as [s1 H1].
    rewrite (bind_OK _ _ _ _ _ H1). apply IH. }
  destruct (Hnone agents [] st2) as [s' Hrun]. rewrite Hrun in Hfound.
  injection Hfound as <- _.
  rewrite scan_resources_eq in Hdeps. injection Hdeps as <- _.
  cbn [app]. apply Forall_forall. intros d Hd.
  apply list_elem_of_In, in_map_iff in Hd as (r & <- & _). reflexivity.
Qed.

(** The check of the core template [arch.md], which the agent [pm]
    declares, returns no dependent of kind [agent]. *)
Lemma agents_never_recorded_witness :
  Forall (fun d => dep_type d = resource)
         (dependencies {| hasActive := false; dependencies := []; isCore := true |}).
Proof.
  apply (agents_never_recorded calm manager "arch.md" "templates" start _
           (snd (checkDependencies calm manager "arch.md" "templates" start))).
  apply run_eq. vm_compute. reflexivity.
Defined.

(** C2, on the tree above. The agent [pm] declares the core template
    [arch.md], yet the dependency check finds no dependent, and the
    deletion is refused as that of a core resource with or without
    [force]: it neither fails on the dependents nor succeeds. *)
Theorem agent_dependents_not_found :
  files start !! (coreDir ++ ["agents"; "pm.md"]) = Some (File pm_content) /\
  fst (checkDependencies calm manager "arch.md" "templates" start)
    = OK {| hasActive := false; dependencies := []; isCore := true |} /\
  fst (safeDelete calm manager "arch.md" "templates" defaults start)
    = Err CoreResourceProtected /\
  fst (safeDelete calm manager "arch.md" "templates" forced start)
    = Err CoreResourceProtected.
Proof.
  split; [vm_compute; reflexivity |]. split; [vm_compute; reflexivity |].
  split; vm_compute; reflexivity.
Qed.

(** When the dependency check throws, so does [safeDelete], with the
    same error and without touching a file. *)
Lemma safeDelete_check_fails (E : Env) (this : SafeDeleteManager)
      (name type : string) (options : PartialDeleteOptions) (st : state) (e : error) :
  fst (checkDependencies E this name type (logged CallCheckDependencies st)) = Err e ->
  fst (safeDelete E this name type options st) = Err e /\
  files (snd (safeDelete E this name type options st)) = files st /\
  calls (snd (safeDelete E this name type options st)) = calls st ++ [CallCheckDependencies].
Proof.
  intros Hcheck. rewrite safeDelete_eq.
  pose proof (reads_only_checkDependencies E this name type
                (logged CallCheckDependencies st)) as [Hfiles Hcalls].
  destruct (checkDependencies E this name type (logged CallCheckDependencies st))
    as [[dc | e'] st1]; cbn [fst snd] in *; [discriminate |].
  injection Hcheck as ->. auto.
Qed.

(** A resource that [getResourcePath] does not find is not deleted,
    wherever else it may be: [safeDelete] throws the not-found error of
    the dependency check and leaves every file as it is. *)
Lemma safeDelete_unresolved (E : Env) (this : SafeDeleteManager)
      (name type : string) (options : PartialDeleteOptions) (st : state) :
  fst (getResourcePath E (layerManager this) type name st) = OK None ->
  safeDelete E this name type options st
    = (Err (NotFound name), logged CallCheckDependencies st).
Proof.
  intros Hnone. rewrite safeDelete_eq. unfold checkDependencies.
  pose proof (getResourcePath_files E (layerManager this) type name
                (logged CallCheckDependencies st) st eq_refl) as Hsame.
  rewrite Hnone in Hsame.
  rewrite (bind_OK _ _ _ _ _ (getResourcePath_run E _ _ _ _ _ Hsame)).
  reflexivity.
Qed.

(** The template [foo.md] of the custom layer is not found. *)
Lemma safeDelete_unresolved_witness :
  safeDelete calm manager "foo.md" "templates" defaults start
    = (Err (NotFound "foo.md"), logged CallCheckDependencies start).
Proof.
  apply (safeDelete_unresolved calm manager "foo.md" "templates" defaults start).
  vm_compute. reflexivity.
Defined.

(** C3, on the tree above. The template [foo.md] of the custom layer has
    no dependents and is not a core resource, yet its deletion fails with
    the not-found error: no backup is taken, no file is touched. *)
Theorem custom_resource_not_found :
  files start !! foo_location = Some (File "custom foo") /\
  fst (safeDelete calm manager "foo.md" "templates" defaults start)
    = Err (NotFound "foo.md") /\
  files (snd (safeDelete calm manager "foo.md" "templates" defaults start)) = files start /\
  calls (snd (safeDelete calm manager "foo.md" "templates" defaults start))
    = calls start ++ [CallCheckDependencies].
Proof.
  split; [vm_compute; reflexivity |].
  apply (safeDelete_check_fails calm manager "foo.md" "templates" defaults start).
  vm_compute. reflexivity.
Qed.


(** * The rest of the program: properties *)

(** ** Paths built from ordinary segments *)

Lemma join_segments (a : string) (l : list string) :
  a <> "" -> l <> [] -> Forall Path.is_segment l ->
  Path.join (a :: l) =
  Path.render (Path.isAbsolute a)
    (rev (Path.norm_segments (negb (Path.isAbsolute a)) (Path.split a) []) ++ l) false.
Proof.
  intros Ha Hl Hall.
  assert (Hne : Forall (fun s => s <> "") l).
  { eapply Forall_impl; [exact Hall |]. intros s Hs. now apply segment_inv in Hs. }
  assert (Hsl : Forall (fun s => Path.has_slash s = false) l).
  { eapply Forall_impl; [exact Hall |]. intros s Hs. now apply segment_inv in Hs. }
  unfold Path.join. cbn [List.filter].
  apply String.eqb_neq in Ha as Ha'. rewrite Ha'. cbn [negb].
  rewrite filter_nonempty by exact Hne.
  destruct l as [| x l]; [congruence |].
  rewrite join_cons. unfold Path.normalize.
  destruct (a +:+ "/" +:+ Js.join "/" (x :: l)) eqn:Heq;
    [destruct a; [congruence | discriminate] |].
  rewrite <- Heq. clear Heq.
  rewrite isAbsolute_append by exact Ha.
  rewrite <- append_assoc, join_segments_not_trailing by (assumption || discriminate).
  rewrite append_assoc, split_append_slash, split_join by (assumption || discriminate).
  rewrite norm_segments_app, norm_segments_segments by exact Hall.
  now rewrite rev_app_distr, rev_involutive.
Qed.

(** The store location of [path.join(b, ...l)] is that of [b] followed by
    the segments [l]. *)
Lemma resolve_join_segments (E : Env) (b : string) (l : list string) :
  b <> "" -> l <> [] -> Forall Path.is_segment l ->
  resolve E (Path.join (b :: l)) = (fun q => q ++ l) <$> resolve E b.
Proof.
  intros Hb Hl Hall.
  rewrite (resolve_not_empty E b Hb), (resolve_not_empty E _ (join_not_empty _)).
  cbn [fmap option_fmap option_map]. f_equal.
  rewrite join_segments by assumption.
  set (abs := Path.isAbsolute b).
  set (S := Path.norm_segments (negb abs) (Path.split b) []).
  assert (Hok : stack_ok (negb abs) S).
  { apply norm_segments_ok; [apply split_has_no_slash | constructor]. }
  assert (Hne : Forall (fun x => x <> "" /\ Path.has_slash x = false) (rev S ++ l)).
  { apply Forall_app. split; [apply Forall_rev; eapply stack_ok_nonempty; exact Hok |].
    eapply Forall_impl; [exact Hall |]. intros s Hs. apply segment_inv in Hs. tauto. }
  rewrite isAbsolute_render by exact Hne.
  rewrite split_render.
  2:{ destruct (rev S), l; discriminate || congruence. }
  2:{ eapply Forall_impl; [exact Hne | now intros ? [_ ?]]. }
  set (base := if abs then [] else rev (cwd E)).
  assert (Hskip : forall l, Path.norm_segments false ((if abs then [""] else []) ++ l) base
                            = Path.norm_segments false l base).
  { intros l'. destruct abs; reflexivity. }
  rewrite Hskip, norm_segments_app, (norm_segments_segments _ l) by exact Hall.
  rewrite rev_app_distr, rev_involutive. f_equal. f_equal.
  subst S base. destruct abs eqn:Habs; cbn [negb] in *.
  - now apply norm_segments_rev_id.
  - rewrite norm_segments_absorb; [reflexivity | constructor | apply split_has_no_slash].
Qed.

(** ** Making directories *)

Lemma only_adds_dirs_refl (fs : store) : only_adds_dirs fs fs.
Proof. split; [auto | congruence]. Qed.

Lemma only_adds_dirs_trans (a b c : store) :
  only_adds_dirs a b -> only_adds_dirs b c -> only_adds_dirs a c.
Proof.
  intros [Hab1 Hab2] [Hbc1 Hbc2]. split.
  - auto.
  - intros k e Hc Ha. destruct (b !! k) as [e' |] eqn:Hb.
    + rewrite (Hbc1 _ _ Hb) in Hc. injection Hc as <-. eauto.
    + eauto.
Qed.

Lemma clear_way_grows (fs fs' : store) (p : fpath) :
  only_adds_dirs fs fs' -> clear_way fs p -> clear_way fs' p.
Proof.
  intros [Hkeep Hnew] Hclear k c Hk Hfile.
  destruct (fs !! k) as [e |] eqn:Hold.
  - apply (Hclear k c Hk). rewrite Hold. rewrite (Hkeep _ _ Hold) in Hfile. exact Hfile.
  - now specialize (Hnew k _ Hfile Hold).
Qed.

Lemma settled_grows (fs fs' : store) (p : fpath) :
  only_adds_dirs fs fs' -> settled fs p -> settled fs' p.
Proof. intros [Hkeep _] Hs k Hk. apply Hkeep, Hs, Hk. Qed.

Lemma under_nil (k : fpath) : under [] k = true.
Proof. reflexivity. Qed.

(** [mkdir -p] goes through when no regular file is in the way. *)
Lemma mkdirs_clear (shown : string) (todo done : fpath) (fs : store) :
  (forall k c, under done k = true -> under k (done ++ todo) = true ->
               fs !! k <> Some (File c)) ->
  exists fs', Fs.mkdirs shown done todo fs = OK fs'.
Proof.
  revert done fs. induction todo as [| s todo IH]; intros done fs Hclear; cbn [Fs.mkdirs].
  - destruct (fs !! done) as [[c |] |] eqn:Hd; eauto.
    exfalso. apply (Hclear done c); [apply under_refl | | exact Hd].
    rewrite app_nil_r. apply under_refl.
  - assert (Hhere : forall c, fs !! done <> Some (File c)).
    { intros c. apply Hclear; [apply under_refl | apply under_app]. }
    assert (Hnext : forall fs1,
               (forall k, k <> done -> fs1 !! k = fs !! k) ->
               exists fs', Fs.mkdirs shown (done ++ [s]) todo fs1 = OK fs').
    { intros fs1 Hsame. apply IH. intros k c Hk1 Hk2.
      rewrite Hsame.
      - apply Hclear; [| now rewrite <- app_assoc in Hk2].
        eapply under_trans; [apply under_app | exact Hk1].
      - intros ->. rewrite under_cons_false in Hk1. discriminate. }
    destruct (fs !! done) as [[c |] |] eqn:Hd.
    + now destruct (Hhere c).
    + now apply Hnext.
    + apply Hnext. intros k Hk. now rewrite lookup_insert_ne.
Qed.

Lemma ensureDir_clear (shown : string) (p : fpath) (fs : store) :
  clear_way fs p -> exists fs', Fs.ensureDir shown p fs = OK fs'.
Proof. intros Hclear. apply mkdirs_clear. intros k c _ Hk. now apply Hclear. Qed.

(** What [ensureDir] leaves behind. *)
Lemma ensureDir_grows (shown : string) (p : fpath) (fs fs' : store) :
  Fs.ensureDir shown p fs = OK fs' -> only_adds_dirs fs fs' /\ settled fs' p.
Proof.
  intros H. split; [split |].
  - intros k e Hk. now rewrite (ensureDir_lookup _ _ _ _ k H), Hk.
  - intros k e Hk Hnone. rewrite (ensureDir_lookup _ _ _ _ k H), Hnone in Hk.
    destruct (under k p); congruence.
  - intros k Hk. rewrite (ensureDir_lookup _ _ _ _ k H), Hk.
    destruct (fs !! k) as [[c |] |] eqn:Hold; try reflexivity.
    exfalso. eapply (mkdirs_no_file shown p [] fs fs' k c); try eassumption.
    apply under_nil.
Qed.

(** Nothing is left to do where the directories are in place. *)
Lemma mkdirs_settled (shown : string) (todo done : fpath) (fs : store) :
  (forall k, under done k = true -> under k (done ++ todo) = true -> fs !! k = Some Dir) ->
  Fs.mkdirs shown done todo fs = OK fs.
Proof.
  revert done. induction todo as [| s todo IH]; intros done Hs; cbn [Fs.mkdirs].
  - rewrite Hs; [reflexivity | apply under_refl |]. rewrite app_nil_r. apply under_refl.
  - rewrite (Hs done); [| apply under_refl | apply under_app].
    apply IH. intros k Hk1 Hk2. apply Hs; [| now rewrite <- app_assoc in Hk2].
    eapply under_trans; [apply under_app | exact Hk1].
Qed.

Lemma ensureDir_settled (shown : string) (p : fpath) (fs : store) :
  settled fs p -> Fs.ensureDir shown p fs = OK fs.
Proof. intros Hs. apply mkdirs_settled. intros k _ Hk. now apply Hs. Qed.

Lemma under_firstn (k p : fpath) : under k p = true -> k = firstn (length k) p.
Proof.
  intros [s ->]%under_true. rewrite firstn_app, Nat.sub_diag, firstn_all. cbn.
  now rewrite app_nil_r.
Qed.

Lemma clear_wayb_spec (fs : store) (p : fpath) : clear_wayb fs p = true -> clear_way fs p.
Proof.
  unfold clear_wayb. rewrite forallb_forall. intros Hall k c Hk Hfile.
  assert (Hin : In (length k) (seq 0 (S (length p)))).
  { apply in_seq. apply under_length in Hk. lia. }
  specialize (Hall _ Hin). rewrite <- (under_firstn k p Hk), Hfile in Hall. discriminate.
Qed.

Lemma settledb_spec (fs : store) (p : fpath) : settledb fs p = true -> settled fs p.
Proof.
  unfold settledb. rewrite forallb_forall. intros Hall k Hk.
  assert (Hin : In (length k) (seq 0 (S (length p)))).
  { apply in_seq. apply under_length in Hk. lia. }
  specialize (Hall _ Hin). rewrite <- (under_firstn k p Hk) in Hall.
  now destruct (fs !! k) as [[|] |].
Qed.

Section Ensuring.

Context (E : Env).

Lemma builds_ret {A} (a : A) : builds (ret a).
Proof. intros st. apply only_adds_dirs_refl. Qed.

Lemma builds_throw {A} (e : error) : builds (@throw A e).
Proof. intros st. apply only_adds_dirs_refl. Qed.

Lemma builds_bind {A B} (m : M A) (k : A -> M B) :
  builds m -> (forall a, builds (k a)) -> builds (bind m k).
Proof.
  intros Hm Hk st. unfold bind. specialize (Hm st).
  destruct (m st) as [[a | e] st1]; cbn [snd] in *; [| exact Hm].
  eapply only_adds_dirs_trans; [exact Hm | apply Hk].
Qed.

Lemma builds_for_of {A B} (xs : list A) (body : B -> A -> M B) (acc : B) :
  (forall b a, builds (body b a)) -> builds (for_of xs body acc).
Proof.
  intros Hb. revert acc. induction xs as [| x xs IH]; intros acc; cbn [for_of].
  - apply builds_ret.
  - apply builds_bind; [apply Hb | intros b; apply IH].
Qed.

Lemma builds_fs_pathExists (p : string) : builds (fs_pathExists E p).
Proof. intros st. apply only_adds_dirs_refl. Qed.

Lemma builds_fs_ensureDir (p : string) : builds (fs_ensureDir E p).
Proof.
  intros st. unfold fs_ensureDir, fs_write.
  destruct (io_fault E (ticks st)); [apply only_adds_dirs_refl |].
  destruct (resolve E p) as [q |]; [| apply only_adds_dirs_refl].
  destruct (Fs.ensureDir p q (files st)) as [fs' |] eqn:Hmk; [| apply only_adds_dirs_refl].
  now apply ensureDir_grows in Hmk.
Qed.

Context (quiet_io : undisturbed E).

(** [ensureDir] as the program calls it. *)
Lemma fs_ensureDir_clear (p : string) (q : fpath) (st : state) :
  resolve E p = Some q -> clear_way (files st) q ->
  exists st', fs_ensureDir E p st = (OK tt, st') /\
              only_adds_dirs (files st) (files st') /\ settled (files st') q.
Proof.
  intros Hq Hclear. unfold fs_ensureDir, fs_write. rewrite quiet_io, Hq.
  destruct (ensureDir_clear p q (files st) Hclear) as [fs' Hmk]. rewrite Hmk.
  eexists. split; [reflexivity |]. now apply ensureDir_grows in Hmk.
Qed.

Lemma fs_ensureDir_settled (p : string) (q : fpath) (st : state) :
  resolve E p = Some q -> settled (files st) q ->
  exists st', fs_ensureDir E p st = (OK tt, st') /\ files st' = files st.
Proof.
  intros Hq Hs. unfold fs_ensureDir, fs_write. rewrite quiet_io, Hq.
  rewrite (ensureDir_settled p q (files st) Hs). eexists. split; reflexivity.
Qed.

(** A loop whose rounds go through, each leaving behind what [R] asks of
    it, goes through and leaves all of it behind. *)
Lemma for_of_builds {A} (xs : list A) (body : unit -> A -> M unit)
      (R : A -> store -> Prop) (fs0 : store) :
  (forall x fs fs', R x fs -> only_adds_dirs fs fs' -> R x fs') ->
  (forall x st, In x xs -> only_adds_dirs fs0 (files st) ->
     exists st', body tt x st = (OK tt, st') /\
                 only_adds_dirs (files st) (files st') /\ R x (files st')) ->
  forall st, only_adds_dirs fs0 (files st) ->
    exists st', for_of xs body tt st = (OK tt, st') /\
                only_adds_dirs (files st) (files st') /\
                forall x, In x xs -> R x (files st').
Proof.
  intros Hstable. induction xs as [| x xs IH]; intros Hbody st Hst; cbn [for_of].
  - exists st. split; [reflexivity |]. split; [apply only_adds_dirs_refl |]. intros ? [].
  - destruct (Hbody x st (or_introl eq_refl) Hst) as (st1 & Hrun & Hgrow & HR).
    rewrite (bind_OK _ _ _ _ _ Hrun).
    destruct (IH (fun y s Hy => Hbody y s (or_intror Hy)) st1) as (st2 & Hrest & Hgrow2 & HRs).
    { eapply only_adds_dirs_trans; eassumption. }
    exists st2. split; [exact Hrest |]. split.
    + eapply only_adds_dirs_trans; eassumption.
    + intros y [<- | Hy]; [| now apply HRs]. eapply Hstable; eassumption.
Qed.

(** A loop over rounds that change nothing changes nothing. *)
Lemma for_of_idle {A} (xs : list A) (body : unit -> A -> M unit) (fs : store) :
  (forall x st, In x xs -> files st = fs ->
     exists st', body tt x st = (OK tt, st') /\ files st' = fs) ->
  forall st, files st = fs ->
    exists st', for_of xs body tt st = (OK tt, st') /\ files st' = fs.
Proof.
  induction xs as [| x xs IH]; intros Hbody st Hst; cbn [for_of].
  - now exists st.
  - destruct (Hbody x st (or_introl eq_refl) Hst) as (st1 & Hrun & Hsame).
    rewrite (bind_OK _ _ _ _ _ Hrun).
    apply (IH (fun y s Hy => Hbody y s (or_intror Hy)) st1 Hsame).
Qed.

End Ensuring.

(** ** Scaffolding of the layers *)

Lemma resourceTypes_segments : Forall Path.is_segment resourceTypes.
Proof. repeat constructor. Qed.

Lemma resourceType_segment (type : string) : In type resourceTypes -> Path.is_segment type.
Proof. intros H. exact (proj1 (List.Forall_forall _ _) resourceTypes_segments type H). Qed.

Lemma layer_segment (layer : string) :
  In layer ["core"; "org"; "custom"] -> Path.is_segment layer.
Proof. intros [<- | [<- | [<- | []]]]; reflexivity. Qed.

Lemma in_layered_dirs (d : fpath) :
  In d layered_dirs <->
  exists layer, In layer ["core"; "org"; "custom"] /\
    (d = [layer] \/
     exists type, In type resourceTypes /\
       (d = [layer; type] \/ (layer <> "core" /\ d = [layer; type; "overrides"]))).
Proof.
  unfold layered_dirs. rewrite in_flat_map. split.
  - intros (layer & Hl & [<- | Hd]); exists layer; (split; [exact Hl |]); [now left | right].
    apply in_flat_map in Hd as (type & Ht & [<- | Hd]); exists type; (split; [exact Ht |]);
      [now left | right].
    destruct (String.eqb_spec layer "core") as [-> | Hne]; [destruct Hd |].
    destruct Hd as [<- | []]. now split.
  - intros (layer & Hl & [-> | (type & Ht & Hd)]); exists layer; (split; [exact Hl |]);
      [now left | right].
    apply in_flat_map. exists type. split; [exact Ht |].
    destruct Hd as [-> | [Hne ->]]; [now left | right].
    apply String.eqb_neq in Hne. rewrite Hne. now left.
Qed.

(** Whatever happens, [createLayeredStructure] and
    [createVirtualResolutionSystem] remove nothing and overwrite nothing:
    every entry of the store stays as it was, and what is new is a
    directory. *)
Theorem scaffolding_keeps_entries (E : Env) (this : LayerManager) (name : string)
        (st : state) :
  only_adds_dirs (files st) (files (snd (createLayeredStructure E this st))) /\
  only_adds_dirs (files st) (files (snd (createVirtualResolutionSystem E this name st))).
Proof.
  split.
  - apply builds_for_of. intros [] layer.
    apply builds_bind; [apply builds_fs_ensureDir | intros []].
    apply builds_for_of. intros [] type.
    apply builds_bind; [apply builds_fs_ensureDir | intros []].
    destruct (negb _); [apply builds_fs_ensureDir | apply builds_ret].
  - apply builds_bind; [apply builds_fs_ensureDir | intros []].
    apply builds_bind; [apply builds_fs_pathExists | intros present].
    destruct (negb present); [apply builds_throw |].
    apply builds_for_of. intros [] type. apply builds_fs_ensureDir.
Qed.

Section Layers.

Context (E : Env) (this : LayerManager) (L : fpath).
Hypothesis quiet_io : undisturbed E.
Hypothesis root : resolve E (lcagentsPath this) = Some L.

Lemma lcagentsPath_not_empty : lcagentsPath this <> "".
Proof. intros H. rewrite H in root. discriminate. Qed.

Lemma resolve_below (l : list string) :
  l <> [] -> Forall Path.is_segment l ->
  resolve E (Path.join (lcagentsPath this :: l)) = Some (L ++ l).
Proof.
  intros Hl Hall.
  rewrite resolve_join_segments, root by (assumption || apply lcagentsPath_not_empty).
  reflexivity.
Qed.

(** One round of the inner loop, and one of the outer loop, in a store
    where the way is clear. *)
Lemma layer_type_round (fs0 : store) (layer type : string) (st : state) :
  In layer ["core"; "org"; "custom"] -> In type resourceTypes ->
  (forall d, In d layered_dirs -> clear_way fs0 (L ++ d)) ->
  only_adds_dirs fs0 (files st) ->
  exists st',
    (let* _ := fs_ensureDir E (Path.join [Path.join [lcagentsPath this; layer]; type]) in
     if negb (String.eqb layer "core") then
       fs_ensureDir E (Path.join [Path.join [lcagentsPath this; layer]; type; "overrides"])
     else ret tt) st = (OK tt, st') /\
    only_adds_dirs (files st) (files st') /\
    (settled (files st') (L ++ [layer; type]) /\
     (layer <> "core" -> settled (files st') (L ++ [layer; type; "overrides"]))).
Proof.
  intros Hlayer Htype Hclear Hst.
  pose proof (layer_segment layer Hlayer) as Hls.
  pose proof (resourceType_segment type Htype) as Hts.
  assert (Hlp : resolve E (Path.join [lcagentsPath this; layer]) = Some (L ++ [layer])).
  { apply resolve_below; [discriminate | now repeat constructor]. }
  assert (Hr1 : resolve E (Path.join [Path.join [lcagentsPath this; layer]; type])
                = Some (L ++ [layer; type])).
  { rewrite resolve_join_segment, Hlp by (apply join_not_empty || assumption).
    cbn. now rewrite <- app_assoc. }
  assert (Hr2 : resolve E (Path.join [Path.join [lcagentsPath this; layer]; type; "overrides"])
                = Some (L ++ [layer; type; "overrides"])).
  { rewrite resolve_join_segments, Hlp; [| apply join_not_empty | discriminate |].
    - cbn. now rewrite <- app_assoc.
    - now repeat constructor. }
  destruct (fs_ensureDir_clear E quiet_io _ _ st Hr1) as (st1 & Hrun1 & Hgrow1 & Hset1).
  { eapply clear_way_grows; [exact Hst |]. apply Hclear, in_layered_dirs.
    exists layer. split; [exact Hlayer | right]. exists type. split; [exact Htype | now left]. }
  rewrite (bind_OK _ _ _ _ _ Hrun1).
  destruct (String.eqb_spec layer "core") as [-> | Hne]; cbn [negb].
  - exists st1. split; [reflexivity |]. split; [exact Hgrow1 |]. split; [exact Hset1 |].
    congruence.
  - destruct (fs_ensureDir_clear E quiet_io _ _ st1 Hr2) as (st2 & Hrun2 & Hgrow2 & Hset2).
    { eapply clear_way_grows; [exact (only_adds_dirs_trans _ _ _ Hst Hgrow1) |].
      apply Hclear, in_layered_dirs.
      exists layer. split; [exact Hlayer | right]. exists type. split; [exact Htype |].
      right. now split. }
    exists st2. split; [exact Hrun2 |]. split.
    + eapply only_adds_dirs_trans; eassumption.
    + split; [eapply settled_grows; eassumption | now intros _].
Qed.

Lemma layer_round (fs0 : store) (layer : string) (st : state) :
  In layer ["core"; "org"; "custom"] ->
  (forall d, In d layered_dirs -> clear_way fs0 (L ++ d)) ->
  only_adds_dirs fs0 (files st) ->
  exists st',
    (let* _ := fs_ensureDir E (Path.join [lcagentsPath this; layer]) in
     for_of resourceTypes
       (fun _ type =>
          let* _ := fs_ensureDir E (Path.join [Path.join [lcagentsPath this; layer]; type]) in
          if negb (String.eqb layer "core") then
            fs_ensureDir E (Path.join [Path.join [lcagentsPath this; layer]; type; "overrides"])
          else ret tt) tt) st = (OK tt, st') /\
    only_adds_dirs (files st) (files st') /\
    (settled (files st') (L ++ [layer]) /\
     forall type, In type resourceTypes ->
       settled (files st') (L ++ [layer; type]) /\
       (layer <> "core" -> settled (files st') (L ++ [layer; type; "overrides"]))).
Proof.
  intros Hlayer Hclear Hst.
  assert (Hlp : resolve E (Path.join [lcagentsPath this; layer]) = Some (L ++ [layer])).
  { apply resolve_below; [discriminate |]. repeat constructor. now apply layer_segment. }
  destruct (fs_ensureDir_clear E quiet_io _ _ st Hlp) as (st1 & Hrun1 & Hgrow1 & Hset1).
  { eapply clear_way_grows; [exact Hst |]. apply Hclear, in_layered_dirs.
    exists layer. split; [exact Hlayer | now left]. }
  rewrite (bind_OK _ _ _ _ _ Hrun1).
  destruct (for_of_builds resourceTypes
              (fun _ type =>
                 let* _ := fs_ensureDir E
                             (Path.join [Path.join [lcagentsPath this; layer]; type]) in
                 if negb (String.eqb layer "core") then
                   fs_ensureDir E
                     (Path.join [Path.join [lcagentsPath this; layer]; type; "overrides"])
                 else ret tt)
              (fun type fs => settled fs (L ++ [layer; type]) /\
                              (layer <> "core" -> settled fs (L ++ [layer; type; "overrides"])))
              fs0) with (st := st1) as (st2 & Hrun2 & Hgrow2 & Hset2).
  - intros type fs fs' [H1 H2] Hgrow. split; [| intros Hne]; eapply settled_grows; eauto.
  - intros type s Htype Hs. now apply (layer_type_round fs0).
  - eapply only_adds_dirs_trans; eassumption.
  - exists st2. split; [exact Hrun2 |]. split; [eapply only_adds_dirs_trans; eassumption |].
    split; [eapply settled_grows; eassumption | exact Hset2].
Qed.

End Layers.

(** When no call is refused and no regular file is in the way,
    [createLayeredStructure] completes; afterwards the three layers, the
    six resource directories of each and the [overrides] directories of
    the org and custom layers exist, nothing that was there has changed,
    and a second run changes nothing. *)
Theorem createLayeredStructure_scaffold (E : Env) (this : LayerManager) (L : fpath)
        (st : state) :
  undisturbed E ->
  resolve E (lcagentsPath this) = Some L ->
  (forall d, In d layered_dirs -> clear_way (files st) (L ++ d)) ->
  exists st',
    createLayeredStructure E this st = (OK tt, st') /\
    (forall d, In d layered_dirs -> files st' !! (L ++ d) = Some Dir) /\
    only_adds_dirs (files st) (files st') /\
    exists st'', createLayeredStructure E this st' = (OK tt, st'') /\ files st'' = files st'.
Proof.
  intros Hquiet Hroot Hclear. unfold createLayeredStructure.
  set (R := fun (layer : string) (fs : store) =>
              settled fs (L ++ [layer]) /\
              forall type, In type resourceTypes ->
                settled fs (L ++ [layer; type]) /\
                (layer <> "core" -> settled fs (L ++ [layer; type; "overrides"]))).
  destruct (for_of_builds ["core"; "org"; "custom"]
              (fun _ layer =>
                 let* _ := fs_ensureDir E (Path.join [lcagentsPath this; layer]) in
                 for_of resourceTypes
                   (fun _ type =>
                      let* _ := fs_ensureDir E
                                  (Path.join [Path.join [lcagentsPath this; layer]; type]) in
                      if negb (String.eqb layer "core") then
                        fs_ensureDir E
                          (Path.join [Path.join [lcagentsPath this; layer]; type;
                                      "overrides"])
                      else ret tt) tt)
              R (files st)) with (st := st)
    as (st' & Hrun & Hgrow & Hset).
  - intros layer fs fs' [H1 H2] Hg. split; [eapply settled_grows; eauto |].
    intros type Ht. destruct (H2 type Ht) as [H3 H4].
    split; [| intros Hne]; eapply settled_grows; eauto.
  - intros layer s Hlayer Hs. now apply (layer_round E this L Hquiet Hroot (files st)).
  - apply only_adds_dirs_refl.
  - assert (Hall : forall d, In d layered_dirs -> settled (files st') (L ++ d)).
    { intros d Hd. apply in_layered_dirs in Hd as (layer & Hlayer & Hd).
      destruct (Hset layer Hlayer) as [H1 H2].
      destruct Hd as [-> | (type & Htype & [-> | [Hne ->]])]; [exact H1 | |];
        destruct (H2 type Htype) as [H3 H4]; auto. }
    exists st'. split; [exact Hrun |]. split; [| split; [exact Hgrow |]].
    { intros d Hd. apply (Hall d Hd). apply under_refl. }
    (* the second run *)
    apply (for_of_idle ["core"; "org"; "custom"] _ (files st')); [| reflexivity].
    intros layer s Hlayer Hs.
    pose proof (layer_segment layer Hlayer) as Hls.
    assert (Hlp : resolve E (Path.join [lcagentsPath this; layer]) = Some (L ++ [layer])).
    { apply (resolve_below E this L Hroot); [discriminate | now repeat constructor]. }
    destruct (fs_ensureDir_settled E Hquiet _ _ s Hlp) as (s1 & Hrun1 & Hsame1).
    { rewrite Hs. apply Hall, in_layered_dirs. exists layer. split; [exact Hlayer | now left]. }
    rewrite (bind_OK _ _ _ _ _ Hrun1). rewrite Hs in Hsame1.
    apply (for_of_idle resourceTypes _ (files st')); [| exact Hsame1].
    intros type s2 Htype Hs2.
    pose proof (resourceType_segment type Htype) as Hts.
    assert (Hr1 : resolve E (Path.join [Path.join [lcagentsPath this; layer]; type])
                  = Some (L ++ [layer; type])).
    { rewrite resolve_join_segment, Hlp by (apply join_not_empty || assumption).
      cbn. now rewrite <- app_assoc. }
    destruct (fs_ensureDir_settled E Hquiet _ _ s2 Hr1) as (s3 & Hrun3 & Hsame3).
    { rewrite Hs2. apply Hall, in_layered_dirs. exists layer. split; [exact Hlayer | right].
      exists type. split; [exact Htype | now left]. }
    rewrite (bind_OK _ _ _ _ _ Hrun3). rewrite Hs2 in Hsame3.
    destruct (String.eqb_spec layer "core") as [-> | Hne]; cbn [negb].
    + now exists s3.
    + assert (Hr2 : resolve E (Path.join [Path.join [lcagentsPath this; layer]; type;
                                            "overrides"])
                    = Some (L ++ [layer; type; "overrides"])).
      { rewrite resolve_join_segments, Hlp; [| apply join_not_empty | discriminate |].
        - cbn. now rewrite <- app_assoc.
        - now repeat constructor. }
      destruct (fs_ensureDir_settled E Hquiet _ _ s3 Hr2) as (s4 & Hrun4 & Hsame4).
      { rewrite Hsame3. apply Hall, in_layered_dirs. exists layer.
        split; [exact Hlayer | right]. exists type. split; [exact Htype | right]. now split. }
      exists s4. split; [exact Hrun4 | congruence].
Qed.

(** [createVirtualResolutionSystem] makes the [virtual] directory before
    it looks for the core system: when no call is refused and no regular
    file is in the way, [virtual] exists afterwards in either case; with
    the core system in place the six resource directories are made below
    it, without it the call throws and stops there. *)
Theorem createVirtualResolutionSystem_outcome (E : Env) (this : LayerManager) (L : fpath)
        (coreSystemName : string) (st : state) :
  undisturbed E ->
  resolve E (lcagentsPath this) = Some L ->
  Path.is_segment ("." +:+ coreSystemName) ->
  (forall type, In type resourceTypes -> clear_way (files st) (L ++ ["virtual"; type])) ->
  exists st',
    createVirtualResolutionSystem E this coreSystemName st =
      ((if bool_decide (is_Some (files st !! (L ++ ["core"; "." +:+ coreSystemName])))
        then OK tt
        else Err (Error ("Core system " +:+ coreSystemName +:+ " not found"))), st') /\
    files st' !! (L ++ ["virtual"]) = Some Dir /\
    only_adds_dirs (files st) (files st') /\
    (is_Some (files st !! (L ++ ["core"; "." +:+ coreSystemName])) ->
     forall type, In type resourceTypes -> files st' !! (L ++ ["virtual"; type]) = Some Dir).
Proof.
  intros Hquiet Hroot Hseg Hclear. unfold createVirtualResolutionSystem.
  assert (Hvr : resolve E (Path.join [lcagentsPath this; "virtual"]) = Some (L ++ ["virtual"])).
  { apply (resolve_below E this L Hroot); [discriminate | now repeat constructor]. }
  assert (Hcore : resolve E (Path.join [lcagentsPath this; "core"; "." +:+ coreSystemName])
                  = Some (L ++ ["core"; "." +:+ coreSystemName])).
  { apply (resolve_below E this L Hroot); [discriminate |]. repeat constructor; assumption. }
  destruct (fs_ensureDir_clear E Hquiet _ _ st Hvr) as (st1 & Hrun1 & Hgrow1 & Hset1).
  { intros k c Hk. apply (Hclear "agents"); [now left |].
    eapply under_trans; [exact Hk |].
    change (L ++ ["virtual"; "agents"]) with (L ++ ["virtual"] ++ ["agents"]).
    rewrite app_assoc. apply under_app. }
  rewrite (bind_OK _ _ _ _ _ Hrun1), (bind_OK _ _ _ _ _ (fs_pathExists_eq E _ st1)).
  assert (Hsame : files st1 !! (L ++ ["core"; "." +:+ coreSystemName])
                  = files st !! (L ++ ["core"; "." +:+ coreSystemName])).
  { destruct (files st !! (L ++ ["core"; "." +:+ coreSystemName])) as [e |] eqn:Hold.
    - now apply Hgrow1.
    - destruct (files st1 !! _) as [e |] eqn:Hnew; [| reflexivity]. exfalso.
      unfold fs_ensureDir, fs_write in Hrun1. rewrite Hquiet, Hvr in Hrun1.
      destruct (Fs.ensureDir _ _ (files st)) as [fs' |] eqn:Hmk; [| discriminate].
      injection Hrun1 as <-. cbn [files set_files] in Hnew.
      rewrite (ensureDir_lookup _ _ _ _ _ Hmk), Hold in Hnew.
      destruct (under _ _) eqn:Hu; [| discriminate].
      apply under_length in Hu. rewrite !length_app in Hu. cbn in Hu. lia. }
  unfold present. rewrite Hcore, Hsame.
  set (held := bool_decide (is_Some (files st !! (L ++ ["core"; "." +:+ coreSystemName])))).
  destruct held eqn:Hheld; cbn [negb].
  - destruct (for_of_builds resourceTypes
                (fun _ type =>
                   fs_ensureDir E (Path.join [Path.join [lcagentsPath this; "virtual"]; type]))
                (fun type fs => settled fs (L ++ ["virtual"; type]))
                (files st)) with (st := st1) as (st2 & Hrun2 & Hgrow2 & Hset2).
    + intros type fs fs' H Hg. eapply settled_grows; eauto.
    + intros type s Htype Hs.
      apply (fs_ensureDir_clear E Hquiet).
      * rewrite resolve_join_segment, Hvr
          by (apply join_not_empty || now apply resourceType_segment).
        cbn. now rewrite <- app_assoc.
      * eapply clear_way_grows; [exact Hs | now apply Hclear].
    + exact Hgrow1.
    + exists st2. split; [exact Hrun2 |]. split; [| split].
      * apply Hgrow2, Hset1, under_refl.
      * eapply only_adds_dirs_trans; eassumption.
      * intros _ type Htype. apply (Hset2 type Htype), under_refl.
  - exists st1. split; [reflexivity |]. split; [apply Hset1, under_refl |].
    split; [exact Hgrow1 |]. intros Hsome.
    subst held. apply bool_decide_eq_false in Hheld. contradiction.
Qed.

(** On the project tree, where the three layers exist in part. *)
Lemma createLayeredStructure_scaffold_witness :
  exists st',
    createLayeredStructure calm (layerManager manager) start = (OK tt, st') /\
    (forall d, In d layered_dirs -> files st' !! (lcagents ++ d) = Some Dir) /\
    only_adds_dirs (files start) (files st') /\
    exists st'', createLayeredStructure calm (layerManager manager) st' = (OK tt, st'') /\
                 files st'' = files st'.
Proof.
  apply (createLayeredStructure_scaffold calm (layerManager manager) lcagents start).
  - intros n. reflexivity.
  - vm_compute. reflexivity.
  - intros d Hd. apply clear_wayb_spec.
    assert (Hall : forallb (fun d => clear_wayb (files start) (lcagents ++ d)) layered_dirs
                   = true) by (vm_compute; reflexivity).
    rewrite forallb_forall in Hall. now apply Hall.
Defined.

(** On the project tree, for the core system that is there. *)
Lemma createVirtualResolutionSystem_outcome_witness :
  exists st',
    createVirtualResolutionSystem calm (layerManager manager) "bmad-core" start
      = (OK tt, st') /\
    files st' !! (lcagents ++ ["virtual"]) = Some Dir /\
    only_adds_dirs (files start) (files st') /\
    forall type, In type resourceTypes ->
      files st' !! (lcagents ++ ["virtual"; type]) = Some Dir.
Proof.
  destruct (createVirtualResolutionSystem_outcome calm (layerManager manager) lcagents
              "bmad-core" start) as (st' & Hrun & Hvirtual & Hgrow & Hdirs).
  - intros n. reflexivity.
  - vm_compute. reflexivity.
  - reflexivity.
  - intros type Htype. apply clear_wayb_spec.
    assert (Hall : forallb (fun type => clear_wayb (files start)
                                          (lcagents ++ ["virtual"; type])) resourceTypes
                   = true) by (vm_compute; reflexivity).
    rewrite forallb_forall in Hall. now apply Hall.
  - assert (Hheld : bool_decide (is_Some (files start !! (lcagents ++ ["core"; ".bmad-core"])))
                    = true) by (vm_compute; reflexivity).
    change ("." +:+ "bmad-core") with ".bmad-core" in Hrun, Hdirs.
    rewrite Hheld in Hrun.
    exists st'. split; [exact Hrun |]. split; [exact Hvirtual |]. split; [exact Hgrow |].
    apply Hdirs. now apply bool_decide_eq_true in Hheld.
Defined.

(** ** More on strings, paths and directories *)

Lemma string_rev_append (a b : string) :
  Js.string_rev (a +:+ b) = Js.string_rev b +:+ Js.string_rev a.
Proof.
  unfold Js.string_rev. rewrite list_ascii_append, rev_app_distr.
  generalize (rev (list_ascii_of_string b)) (rev (list_ascii_of_string a)).
  intros x y. induction x as [| c x IH]; [reflexivity |].
  cbn. now rewrite append_cons, IH.
Qed.

Lemma endsWith_append (a s : string) : Js.endsWith (a +:+ s) s = true.
Proof. unfold Js.endsWith. rewrite string_rev_append. apply startsWith_append. Qed.

(** No [.md] straddles the end of a stem that holds none. *)
Lemma startsWith_md_stem (stem : string) :
  Js.startsWith (stem +:+ ".md") ".md" = true -> stem <> "" ->
  Js.startsWith stem ".md" = true.
Proof.
  intros H Hne.
  destruct stem as [| c1 [| c2 [| c3 r]]]; [congruence | | |];
    rewrite ?append_cons, ?append_empty_l in H; cbn [Js.startsWith] in H |- *.
  - destruct (Ascii.eqb "." c1); cbn in H; discriminate H.
  - destruct (Ascii.eqb "." c1); [| discriminate H].
    destruct (Ascii.eqb "m" c2); cbn in H; discriminate H.
  - destruct (Ascii.eqb "." c1); [| discriminate H].
    destruct (Ascii.eqb "m" c2); [| discriminate H].
    destruct (Ascii.eqb "d" c3); [now destruct r | discriminate H].
Qed.

(** [file.replace('.md', '')] gives the stem back when the stem holds no
    [.md] of its own. *)
Lemma replace_md_stem (stem : string) :
  Js.includes stem ".md" = false -> Js.replace (stem +:+ ".md") ".md" "" = stem.
Proof.
  induction stem as [| c stem IH]; intros Hno; [reflexivity |].
  cbn [Js.includes] in Hno. apply orb_false_iff in Hno as [Hhere Hrest].
  rewrite append_cons. cbn [Js.replace].
  destruct (Js.startsWith (String c (stem +:+ ".md")) ".md") eqn:Hs.
  - rewrite <- append_cons in Hs. apply startsWith_md_stem in Hs; [| discriminate].
    congruence.
  - now rewrite IH.
Qed.

Lemma take_name_no_slash (l r : list ascii) :
  Forall (fun c => Js.is_slash c = false) l ->
  Path.drop_name (l ++ "/"%char :: r) = "/"%char :: r.
Proof.
  induction 1 as [| c l Hc Hl IH]; [reflexivity |].
  cbn. now rewrite Hc.
Qed.

Lemma no_slash_chars (s : string) :
  Path.has_slash s = false -> Forall (fun c => Js.is_slash c = false) (list_ascii_of_string s).
Proof.
  induction s as [| c s IH]; [constructor |].
  cbn. intros [Hc Hs]%orb_false_iff. constructor; auto.
Qed.

(** The directory of a path that ends in [/s], for [s] without
    separator. *)
Lemma dirname_append_segment (pre s : string) :
  pre <> "" -> pre <> "/" -> s <> "" -> Path.has_slash s = false ->
  Path.dirname (pre +:+ "/" +:+ s) = pre.
Proof.
  intros Hpre Hroot Hs Hsl. destruct pre as [| c0 pre']; [congruence |].
  rewrite append_cons. unfold Path.dirname.
  rewrite list_ascii_append, rev_app_distr.
  change (list_ascii_of_string ("/" +:+ s)) with ("/"%char :: list_ascii_of_string s).
  cbn [rev]. rewrite <- app_assoc. cbn [app].
  pose proof (no_slash_chars s Hsl) as Hall. apply Forall_rev in Hall.
  assert (Hdrop : Path.drop_slashes (rev (list_ascii_of_string s) ++
                                     "/"%char :: rev (list_ascii_of_string pre'))
                  = rev (list_ascii_of_string s) ++
                    "/"%char :: rev (list_ascii_of_string pre')).
  { destruct (rev (list_ascii_of_string s)) as [| c l] eqn:Hrev.
    - apply (f_equal (@rev ascii)) in Hrev. rewrite rev_involutive in Hrev.
      destruct s; [congruence | discriminate].
    - cbn. inversion Hall as [| ? ? Hc _]; subst. now rewrite Hc. }
  rewrite Hdrop, take_name_no_slash by exact Hall.
  rewrite rev_involutive, string_of_list_ascii_of_string.
  destruct (list_ascii_of_string pre') as [| c l] eqn:Hl.
  - destruct pre'; [| discriminate]. cbn.
    destruct (Js.is_slash c0) eqn:Hc0; [| reflexivity].
    exfalso. apply Hroot. f_equal. unfold Js.is_slash in Hc0.
    now apply Ascii.eqb_eq in Hc0.
  - destruct (rev (c :: l)) eqn:Hr; [| reflexivity].
    apply (f_equal (@rev ascii)) in Hr. rewrite rev_involutive in Hr. discriminate.
Qed.

Lemma join_plain (l : list string) :
  l <> [] -> Forall (fun t => t <> "" /\ Path.has_slash t = false) l ->
  Js.join "/" l <> "" /\ Js.join "/" l <> "/".
Proof.
  intros Hl Hall. destruct l as [| x r]; [congruence |].
  inversion Hall as [| ? ? [Hx Hsl] _]; subst.
  destruct x as [| c x]; [congruence |].
  cbn in Hsl. apply orb_false_iff in Hsl as [Hc _].
  assert (Hj : exists t, Js.join "/" (String c x :: r) = String c t).
  { destruct r; [now eexists | eexists; rewrite join_cons, append_cons; reflexivity]. }
  destruct Hj as [t ->]. split; [discriminate |].
  intros [= -> _]. discriminate.
Qed.

(** The directory of [path.join(b, ...l, s)] is [path.join(b, ...l)]. *)
Lemma dirname_join_segments (b : string) (l : list string) (s : string) :
  b <> "" -> l <> [] -> Forall Path.is_segment l -> Path.is_segment s ->
  Path.dirname (Path.join (b :: l ++ [s])) = Path.join (b :: l).
Proof.
  intros Hb Hl Hall Hs.
  assert (Hall' : Forall Path.is_segment (l ++ [s])).
  { apply Forall_app. split; [exact Hall | now repeat constructor]. }
  rewrite (join_segments b (l ++ [s])) by (assumption || (destruct l; discriminate)).
  rewrite (join_segments b l) by assumption.
  set (abs := Path.isAbsolute b).
  set (S := rev (Path.norm_segments (negb abs) (Path.split b) [])).
  assert (Hplain : Forall (fun t => t <> "" /\ Path.has_slash t = false) (S ++ l)).
  { apply Forall_app. split.
    - subst S. apply Forall_rev.
      eapply stack_ok_nonempty, norm_segments_ok; [apply split_has_no_slash | constructor].
    - eapply Forall_impl; [exact Hall |]. intros t Ht. apply segment_inv in Ht. tauto. }
  assert (Hne : S ++ l <> []).
  { intros Heq. apply app_eq_nil in Heq as [_ Heq]. congruence. }
  destruct (join_plain (S ++ l) Hne Hplain) as [Hj1 Hj2].
  rewrite app_assoc.
  rewrite (render_cons abs false ((S ++ l) ++ [s])) by (destruct (S ++ l); discriminate).
  rewrite join_snoc.
  destruct (S ++ l) as [| x r] eqn:Hsl; [congruence |].
  rewrite append_empty_r, <- append_assoc.
  rewrite (render_cons abs false (x :: r)) by discriminate.
  rewrite append_empty_r.
  apply segment_inv in Hs as (Hs1 & _ & _ & Hs4).
  apply dirname_append_segment; try assumption.
  - destruct abs; [discriminate | now rewrite append_empty_l].
  - destruct abs; [| now rewrite append_empty_l].
    rewrite append_cons, append_empty_l. intros [= Heq]. now apply Hj1.
Qed.

(** The names [readdir] gives are those of the entries directly below. *)
Lemma in_children (fs : store) (p : fpath) (n : string) :
  In n (Fs.children fs p) <-> is_Some (fs !! (p ++ [n])).
Proof.
  unfold Fs.children. rewrite <- list_elem_of_In, list_elem_of_omap. split.
  - intros [[k e] [Hin Hk]]. cbn in Hk.
    destruct (strip_prefix p k) as [[| m [| ? ?]] |] eqn:Hs; try discriminate.
    injection Hk as ->. apply strip_prefix_Some in Hs as ->.
    apply elem_of_map_to_list in Hin. eauto.
  - intros [e He]. exists (p ++ [n], e). split.
    + now apply elem_of_map_to_list.
    + cbn. now rewrite strip_prefix_app.
Qed.

(** ** Agents: resolving, listing, loading, saving *)

Lemma truthy_Some (v : option string) (s : string) :
  Js.truthy v = Some s -> v = Some s /\ s <> "".
Proof. destruct v as [[| c r] |]; cbn; intros [= <-]; split; congruence. Qed.

(** With an active core system [ac], [resolveAgent] always answers, and
    with the path of the agent in the core layer of [ac]: [finalPath] is
    that path whether or not an override exists, and [coreSystem] repeats
    the name the caller gave while the path stays in [ac].  The layers
    come in the order core, org, custom, the last two when their override
    file exists. *)
Theorem resolveAgent_active (E : Env) (this : LayerManager) (id : string)
        (override : option string) (st : state) (ac : string) :
  Js.truthy (activeCoreSystem E) = Some ac ->
  let path := Path.join [lcagentsPath this; "core"; "." +:+ ac; "agents"; id +:+ ".md"] in
  let overridden layer :=
    present E st (Path.join [lcagentsPath this; layer; "agents"; "overrides"; id +:+ ".yaml"]) in
  resolveAgent E this id override st =
  (OK {| agentId := id;
         coreSystem := default ac (Js.truthy override);
         corePath := path;
         finalPath := path;
         layerSources := [core] ++ (if overridden "org" then [org] else [])
                                ++ (if overridden "custom" then [custom] else []) |}, st).
Proof.
  intros Hac path overridden. unfold resolveAgent.
  rewrite !(bind_OK (getActiveCoreSystem E) _ st (activeCoreSystem E) st eq_refl), Hac.
  rewrite (bind_OK _ _ _ _ _ (fs_pathExists_eq E _ st)).
  rewrite (bind_OK _ _ _ _ _ (fs_pathExists_eq E _ st)).
  unfold ret. f_equal. fold path.
  apply truthy_Some in Hac as [Hac Hne].
  assert (Hname : default "bmad-core"
                    (Js.or (Js.or override (activeCoreSystem E)) (Some "bmad-core"))
                  = default ac (Js.truthy override)).
  { rewrite Hac. unfold Js.or.
    destruct (Js.truthy override) as [c |] eqn:Ho.
    - apply truthy_Some in Ho as [_ Hc]. cbn. destruct c; [congruence | reflexivity].
    - cbn. destruct ac; [congruence | reflexivity]. }
  rewrite Hname. subst overridden. cbv beta.
  destruct (present E st _), (present E st _); reflexivity.
Qed.

Section Agents.

Context (E : Env) (this : LayerManager) (L : fpath) (ac : string).
Hypothesis quiet_io : undisturbed E.
Hypothesis root : resolve E (lcagentsPath this) = Some L.
Hypothesis active : Js.truthy (activeCoreSystem E) = Some ac.
Hypothesis core_named : Path.is_segment ("." +:+ ac).

Lemma fs_readdir_dir (p : string) (q : fpath) (st : state) :
  resolve E p = Some q -> files st !! q = Some Dir ->
  fs_readdir E p st = (OK (Fs.children (files st) q), tick st).
Proof.
  intros Hq Hd. unfold fs_readdir, fs_read, Fs.readdir. now rewrite quiet_io, Hq, Hd.
Qed.

Lemma fs_readFile_file (p : string) (q : fpath) (c : string) (st : state) :
  resolve E p = Some q -> files st !! q = Some (File c) ->
  fs_readFile E p st = (OK c, tick st).
Proof.
  intros Hq Hf. unfold fs_readFile, fs_read, Fs.readFile. now rewrite quiet_io, Hq, Hf.
Qed.

Lemma present_at (p : string) (q : fpath) (st : state) :
  resolve E p = Some q -> present E st p = bool_decide (is_Some (files st !! q)).
Proof. intros Hq. unfold present. now rewrite Hq. Qed.

Lemma agents_dir :
  resolve E (Path.join [lcagentsPath this; "core"; "." +:+ ac; "agents"])
  = Some (L ++ ["core"; "." +:+ ac; "agents"]).
Proof.
  apply (resolve_below E this L root); [discriminate |]. repeat constructor. exact core_named.
Qed.

Lemma agent_file (file : string) :
  Path.is_segment file ->
  resolve E (Path.join [lcagentsPath this; "core"; "." +:+ ac; "agents"; file])
  = Some (L ++ ["core"; "." +:+ ac; "agents"; file]).
Proof.
  intros Hf. apply (resolve_below E this L root); [discriminate |].
  repeat constructor; assumption.
Qed.

Lemma listAgents_listing (st : state) :
  files st !! (L ++ ["core"; "." +:+ ac; "agents"]) = Some Dir ->
  listAgents E this st =
  (OK (map (fun file => Js.replace file ".md" "")
           (List.filter (fun file => Js.endsWith file ".md")
              (Fs.children (files st) (L ++ ["core"; "." +:+ ac; "agents"])))), tick st).
Proof.
  intros Hd. unfold listAgents.
  rewrite (bind_OK (getActiveCoreSystem E) _ st (activeCoreSystem E) st eq_refl), active.
  rewrite (bind_OK _ _ _ _ _ (fs_pathExists_eq E _ st)).
  rewrite (present_at _ _ st agents_dir), Hd, bool_decide_eq_true_2 by eauto. cbn [negb].
  now rewrite (bind_OK _ _ _ _ _ (fs_readdir_dir _ _ st agents_dir Hd)).
Qed.

Lemma loadAgent_file (stem c : string) (st : state) :
  Path.is_segment (stem +:+ ".md") ->
  files st !! (L ++ ["core"; "." +:+ ac; "agents"; stem +:+ ".md"]) = Some (File c) ->
  exists r,
    loadAgent E this stem st =
      (OK {| agent_name := stem; agent_content := c; agent_path := Some r;
             agent_dependencies := None; agent_definition := None |}, tick st) /\
    corePath r = Path.join [lcagentsPath this; "core"; "." +:+ ac; "agents"; stem +:+ ".md"].
Proof.
  intros Hseg Hfile. unfold loadAgent.
  rewrite (bind_OK _ _ _ _ _ (resolveAgent_active E this stem None st ac active)).
  cbn [corePath].
  rewrite (bind_OK _ _ _ _ _ (fs_pathExists_eq E _ st)).
  rewrite (present_at _ _ st (agent_file _ Hseg)), Hfile, bool_decide_eq_true_2 by eauto.
  cbn [negb].
  rewrite (bind_OK _ _ _ _ _ (fs_readFile_file _ _ c st (agent_file _ Hseg) Hfile)).
  eexists. split; reflexivity.
Qed.

End Agents.

(** Every file [stem.md] of the agents directory whose stem holds no
    [.md] of its own is listed by [listAgents] under its stem, and
    [loadAgent] of that stem returns the content of the file. *)
Theorem listed_agent_loads (E : Env) (this : LayerManager) (L : fpath) (ac stem c : string)
        (st : state) :
  undisturbed E ->
  resolve E (lcagentsPath this) = Some L ->
  Js.truthy (activeCoreSystem E) = Some ac ->
  Path.is_segment ("." +:+ ac) ->
  Path.is_segment (stem +:+ ".md") ->
  Js.includes stem ".md" = false ->
  files st !! (L ++ ["core"; "." +:+ ac; "agents"]) = Some Dir ->
  files st !! (L ++ ["core"; "." +:+ ac; "agents"; stem +:+ ".md"]) = Some (File c) ->
  (exists agents st1, listAgents E this st = (OK agents, st1) /\ In stem agents) /\
  (exists a st2, loadAgent E this stem st = (OK a, st2) /\
                 agent_name a = stem /\ agent_content a = c /\ files st2 = files st).
Proof.
  intros Hquiet Hroot Hac Hcore Hseg Hstem Hdir Hfile. split.
  - eexists _, _. split; [now apply (listAgents_listing E this L ac) |].
    apply in_map_iff. exists (stem +:+ ".md"). split; [now apply replace_md_stem |].
    apply filter_In. split; [| apply endsWith_append].
    apply in_children.
    change (L ++ ["core"; "." +:+ ac; "agents"; stem +:+ ".md"])
      with (L ++ ["core"; "." +:+ ac; "agents"] ++ [stem +:+ ".md"]) in Hfile.
    rewrite app_assoc in Hfile. eauto.
  - destruct (loadAgent_file E this L ac Hquiet Hroot Hac Hcore stem c st Hseg Hfile)
      as (r & Hload & _).
    eexists _, _. split; [exact Hload |]. repeat split.
Qed.

(** Saving an agent as [loadAgent] returned it writes its file back
    unchanged, for an agent file that holds well-formed UTF-8: the store
    is afterwards what it was.  (The file is decoded when read and
    encoded when written; bytes that are no UTF-8 do not come back, and
    nothing is stated for them.) *)
Theorem loadAgent_saveAgent_roundtrip (E : Env) (this : LayerManager) (L : fpath)
        (ac stem c : string) (st : state) :
  undisturbed E ->
  resolve E (lcagentsPath this) = Some L ->
  Js.truthy (activeCoreSystem E) = Some ac ->
  Path.is_segment ("." +:+ ac) ->
  Path.is_segment (stem +:+ ".md") ->
  settled (files st) (L ++ ["core"; "." +:+ ac; "agents"]) ->
  files st !! (L ++ ["core"; "." +:+ ac; "agents"; stem +:+ ".md"]) = Some (File c) ->
  Utf8.valid c = true ->
  exists a st1 st2,
    loadAgent E this stem st = (OK a, st1) /\
    saveAgent E this a st1 = (OK tt, st2) /\
    files st2 = files st.
Proof.
  intros Hquiet Hroot Hac Hcore Hseg Hset Hfile _.
  destruct (loadAgent_file E this L ac Hquiet Hroot Hac Hcore stem c st Hseg Hfile)
    as (r & Hload & Hpath).
  cut (exists st2,
          saveAgent E this
            {| agent_name := stem; agent_content := c; agent_path := Some r;
               agent_dependencies := None; agent_definition := None |} (tick st)
          = (OK tt, st2) /\ files st2 = files st).
  { intros (st2 & Hsave & Hfiles). eexists _, _, st2. repeat split; eassumption. }
  unfold saveAgent. cbn [agent_path agent_content]. rewrite Hpath.
  set (b := lcagentsPath this).
  assert (Hb : b <> "") by (apply (lcagentsPath_not_empty E this L Hroot)).
  destruct (Path.join [b; "core"; "." +:+ ac; "agents"; stem +:+ ".md"]) eqn:Htarget;
    [now apply join_not_empty in Htarget |].
  rewrite <- Htarget. clear Htarget.
  assert (Hdir : Path.dirname (Path.join [b; "core"; "." +:+ ac; "agents"; stem +:+ ".md"])
                 = Path.join [b; "core"; "." +:+ ac; "agents"]).
  { apply (dirname_join_segments b ["core"; "." +:+ ac; "agents"] (stem +:+ ".md"));
      [exact Hb | discriminate | | exact Hseg].
    repeat constructor. exact Hcore. }
  rewrite Hdir.
  destruct (fs_ensureDir_settled E Hquiet _ _ (tick st)
              (agents_dir E this L ac Hroot Hcore) Hset) as (s1 & Hmk & Hsame).
  rewrite (bind_OK _ _ _ _ _ Hmk).
  unfold fs_writeFile, fs_write. rewrite Hquiet.
  subst b. rewrite (agent_file E this L ac Hroot Hcore _ Hseg).
  unfold Fs.writeFile.
  change (L ++ ["core"; "." +:+ ac; "agents"; stem +:+ ".md"])
    with (L ++ ["core"; "." +:+ ac; "agents"] ++ [stem +:+ ".md"]).
  rewrite app_assoc.
  destruct ((L ++ ["core"; "." +:+ ac; "agents"]) ++ [stem +:+ ".md"]) as [| x t] eqn:Hp;
    [now apply app_eq_nil in Hp as [_ ?] |].
  rewrite <- Hp, parent_snoc, Hsame. cbn [files tick].
  rewrite (Hset _ (under_refl _)).
  assert (Hfile' : files st !! ((L ++ ["core"; "." +:+ ac; "agents"]) ++ [stem +:+ ".md"])
                   = Some (File c)).
  { rewrite <- app_assoc. exact Hfile. }
  rewrite Hfile'. eexists. split; [reflexivity |].
  cbn [files set_files tick]. now apply insert_id.
Qed.

(** On the project tree: the agent [pm], asked for under another core
    system's name. *)
Lemma resolveAgent_active_witness :
  resolveAgent calm (layerManager manager) "pm" (Some "legacy") start =
  (OK {| agentId := "pm"; coreSystem := "legacy";
         corePath := "/home/u/proj/.lcagents/core/.bmad-core/agents/pm.md";
         finalPath := "/home/u/proj/.lcagents/core/.bmad-core/agents/pm.md";
         layerSources := [core] |}, start).
Proof.
  rewrite (resolveAgent_active calm (layerManager manager) "pm" (Some "legacy") start
             "bmad-core" eq_refl).
  reflexivity.
Defined.

Lemma listed_agent_loads_witness :
  (exists agents st1, listAgents calm (layerManager manager) start = (OK agents, st1) /\
                      In "pm" agents) /\
  (exists a st2, loadAgent calm (layerManager manager) "pm" start = (OK a, st2) /\
                 agent_name a = "pm" /\ agent_content a = pm_content /\
                 files st2 = files start).
Proof.
  apply (listed_agent_loads calm (layerManager manager) lcagents "bmad-core" "pm"
           pm_content start).
  - intros n. reflexivity.
  - vm_compute. reflexivity.
  - reflexivity.
  - reflexivity.
  - reflexivity.
  - reflexivity.
  - vm_compute. reflexivity.
  - vm_compute. reflexivity.
Defined.

Lemma loadAgent_saveAgent_roundtrip_witness :
  exists a st1 st2,
    loadAgent calm (layerManager manager) "pm" start = (OK a, st1) /\
    saveAgent calm (layerManager manager) a st1 = (OK tt, st2) /\
    files st2 = files start.
Proof.
  apply (loadAgent_saveAgent_roundtrip calm (layerManager manager) lcagents "bmad-core"
           "pm" pm_content start).
  - intros n. reflexivity.
  - vm_compute. reflexivity.
  - reflexivity.
  - reflexivity.
  - reflexivity.
  - apply settledb_spec. vm_compute. reflexivity.
  - vm_compute. reflexivity.
  - reflexivity.
Defined.

(** ** Reading and listing resources *)

Section Resources.

Context (E : Env) (this : LayerManager) (L : fpath) (ac type : string).
Hypothesis quiet_io : undisturbed E.
Hypothesis root : resolve E (lcagentsPath this) = Some L.
Hypothesis active : Js.truthy (activeCoreSystem E) = Some ac.
Hypothesis core_named : Path.is_segment ("." +:+ ac).
Hypothesis type_named : Path.is_segment type.

Lemma layer_dir_location (layer : LayerType) :
  resolve E (layer_dir this ac type layer) = Some (layer_location L ac type layer).
Proof.
  destruct layer; apply (resolve_below E this L root); try discriminate;
    repeat constructor; assumption.
Qed.

Lemma list_layer_listing (layer : LayerType) (all : list ResourceWithSource) (st : state) :
  (forall c, files st !! layer_location L ac type layer <> Some (File c)) ->
  exists st',
    list_layer E (layer_dir this ac type layer) layer all st
    = (OK (all ++ layer_listing this L ac type (files st) layer), st') /\
    files st' = files st.
Proof.
  intros Hlist. unfold list_layer, layer_listing.
  rewrite (bind_OK _ _ _ _ _ (fs_pathExists_eq E _ st)).
  rewrite (present_at E _ _ st (layer_dir_location layer)).
  destruct (files st !! layer_location L ac type layer) as [[c |] |] eqn:Hd.
  - now destruct (Hlist c).
  - rewrite bool_decide_eq_true_2 by eauto.
    rewrite (bind_OK _ _ _ _ _ (fs_readdir_dir E quiet_io _ _ st (layer_dir_location layer) Hd)).
    eexists. split; reflexivity.
  - rewrite bool_decide_eq_false_2 by (intros [? ?]; discriminate).
    exists st. rewrite app_nil_r. split; reflexivity.
Qed.

End Resources.

(** A directory lists each of its entries, and each once. *)
Lemma children_NoDup (fs : store) (p : fpath) : NoDup (Fs.children fs p).
Proof.
  unfold Fs.children. pose proof (NoDup_fst_map_to_list fs) as Hnd.
  induction (map_to_list fs) as [| [k e] l IH]; [constructor |].
  rewrite fmap_cons in Hnd. apply NoDup_cons in Hnd as [Hk Hl]. cbn [omap list_omap fst].
  destruct (strip_prefix p k) as [[| n [| ? ?]] |] eqn:Hs; try (apply IH, Hl).
  apply NoDup_cons. split; [| apply IH, Hl].
  intros ([k' e'] & Hin & Hg)%list_elem_of_omap. cbn [fst] in Hg.
  destruct (strip_prefix p k') as [[| n' [| ? ?]] |] eqn:Hs'; try discriminate.
  injection Hg as ->. apply strip_prefix_Some in Hs as ->. apply strip_prefix_Some in Hs' as ->.
  apply Hk. apply list_elem_of_fmap. exists (p ++ [n], e'). split; [reflexivity | exact Hin].
Qed.

Lemma layer_listing_NoDup (this : LayerManager) (L : fpath) (ac type : string) (fs : store)
      (layer : LayerType) :
  NoDup (layer_listing this L ac type fs layer).
Proof.
  unfold layer_listing.
  destruct (fs !! layer_location L ac type layer) as [[c |] |]; try constructor.
  apply NoDup_fmap_2; [| apply children_NoDup].
  intros n m Heq. now injection Heq.
Qed.

Lemma layer_listing_spec (this : LayerManager) (L : fpath) (ac type : string) (fs : store)
      (layer : LayerType) (r : ResourceWithSource) :
  In r (layer_listing this L ac type fs layer) <-> listed_from this L ac type fs layer r.
Proof.
  unfold layer_listing, listed_from.
  destruct (fs !! layer_location L ac type layer) as [[c |] |] eqn:Hd.
  - split; [intros [] | intros (n & Hdir & _); discriminate].
  - rewrite in_map_iff. split.
    + intros (n & <- & Hn). apply in_children in Hn. exists n. auto.
    + intros (n & _ & Hn & ->). exists n. split; [reflexivity |]. now apply in_children.
  - split; [intros [] | intros (n & Hdir & _); discriminate].
Qed.

(** [listResources] reports the listing of the type's directory in the
    core layer, then that of the org layer, then that of the custom
    layer, each entry with its layer as source.  A listing holds an entry
    for each name of the directory and no two for the same: so a name
    held by several layers is reported once for each of them, and nothing
    else is reported. *)
Theorem listResources_every_copy (E : Env) (this : LayerManager) (L : fpath)
        (ac type : string) (st : state) :
  undisturbed E ->
  resolve E (lcagentsPath this) = Some L ->
  Js.truthy (activeCoreSystem E) = Some ac ->
  Path.is_segment ("." +:+ ac) -> Path.is_segment type ->
  (forall layer c, files st !! layer_location L ac type layer <> Some (File c)) ->
  let listing := layer_listing this L ac type (files st) in
  exists st',
    listResources E this type st
    = (OK (listing core ++ listing org ++ listing custom), st') /\
    files st' = files st /\
    forall layer,
      NoDup (listing layer) /\
      forall r, In r (listing layer) <-> listed_from this L ac type (files st) layer r.
Proof.
  intros Hquiet Hroot Hac Hcore Htype Hlist listing. subst listing. unfold listResources.
  rewrite (bind_OK (getActiveCoreSystem E) _ st (activeCoreSystem E) st eq_refl), Hac.
  destruct (list_layer_listing E this L ac type Hquiet Hroot Hcore Htype core [] st
              (Hlist core)) as (st1 & Hrun1 & Hf1).
  destruct (list_layer_listing E this L ac type Hquiet Hroot Hcore Htype org
              ([] ++ layer_listing this L ac type (files st) core) st1)
    as (st2 & Hrun2 & Hf2).
  { rewrite Hf1. apply Hlist. }
  destruct (list_layer_listing E this L ac type Hquiet Hroot Hcore Htype custom
              (([] ++ layer_listing this L ac type (files st) core)
                 ++ layer_listing this L ac type (files st1) org) st2)
    as (st3 & Hrun3 & Hf3).
  { rewrite Hf2, Hf1. apply Hlist. }
  cbn [layer_dir] in Hrun1, Hrun2, Hrun3.
  rewrite (bind_OK _ _ _ _ _ Hrun1), (bind_OK _ _ _ _ _ Hrun2), (bind_OK _ _ _ _ _ Hrun3).
  exists st3. rewrite Hf2, Hf1. cbn [app]. rewrite <- app_assoc.
  split; [reflexivity |]. split; [congruence |].
  intros layer. split; [apply layer_listing_NoDup | apply layer_listing_spec].
Qed.

(** [readResource] reads the copy in the core layer of the active core
    system and nothing else: its answer is decided by the entry at that
    one place.  So a template that only the custom layer holds is found
    by [resolveTemplate] and not by [readResource]. *)
Theorem readResource_core_only (E : Env) (this : LayerManager) (L : fpath)
        (ac type name : string) (st : state) :
  undisturbed E ->
  resolve E (lcagentsPath this) = Some L ->
  Js.truthy (activeCoreSystem E) = Some ac ->
  Path.is_segment ("." +:+ ac) -> Path.is_segment type -> Path.is_segment name ->
  let missing := Error ("Resource " +:+ name +:+ " of type " +:+ type +:+ " not found") in
  readResource E this type name st =
    match files st !! (L ++ ["core"; "." +:+ ac; type; name]) with
    | Some (File c) => (OK c, tick st)
    | Some Dir =>
        (Err (SystemError "EISDIR"
                (Path.join [lcagentsPath this; "core"; "." +:+ ac; type; name])), tick st)
    | None => (Err missing, st)
    end /\
  (type = "templates" ->
   files st !! (L ++ ["core"; "." +:+ ac; type; name]) = None ->
   is_Some (files st !! (L ++ ["custom"; "templates"; name])) ->
   fst (resolveTemplate E this name st)
     = OK {| rws_name := name;
             rws_path := Path.join [lcagentsPath this; "custom"; "templates"; name];
             rws_source := custom |} /\
   fst (readResource E this type name st) = Err missing).
Proof.
  intros Hquiet Hroot Hac Hcore Htype Hname missing.
  assert (Hp : resolve E (Path.join [lcagentsPath this; "core"; "." +:+ ac; type; name])
               = Some (L ++ ["core"; "." +:+ ac; type; name])).
  { apply (resolve_below E this L Hroot); [discriminate |]. repeat constructor; assumption. }
  assert (Hread : readResource E this type name st =
                  match files st !! (L ++ ["core"; "." +:+ ac; type; name]) with
                  | Some (File c) => (OK c, tick st)
                  | Some Dir =>
                      (Err (SystemError "EISDIR"
                              (Path.join [lcagentsPath this; "core"; "." +:+ ac; type; name])),
                       tick st)
                  | None => (Err missing, st)
                  end).
  { unfold readResource.
    rewrite (bind_OK _ _ _ _ _ (getResourcePath_eq E this type name st)), Hac. cbv zeta.
    rewrite (present_at E _ _ st Hp).
    destruct (files st !! (L ++ ["core"; "." +:+ ac; type; name])) as [e |] eqn:He.
    - rewrite bool_decide_eq_true_2 by eauto.
      destruct (Path.join [lcagentsPath this; "core"; "." +:+ ac; type; name]) eqn:Hj;
        [now apply join_not_empty in Hj |].
      cbn [Js.truthy]. rewrite <- Hj in *.
      unfold fs_readFile, fs_read, Fs.readFile. rewrite Hquiet, Hp, He.
      now destruct e.
    - rewrite bool_decide_eq_false_2 by (intros [? ?]; discriminate). reflexivity. }
  split; [exact Hread |].
  intros -> Hnone Hcustom. rewrite Hread, Hnone. split; [| reflexivity].
  unfold resolveTemplate.
  rewrite (bind_OK (getActiveCoreSystem E) _ st (activeCoreSystem E) st eq_refl), Hac.
  rewrite resolveTemplate_loop_spec. cbn [find templatePath layer_name].
  assert (Hc : resolve E (Path.join [lcagentsPath this; "custom"; "templates"; name])
               = Some (L ++ ["custom"; "templates"; name])).
  { apply (resolve_below E this L Hroot); [discriminate |]. repeat constructor; assumption. }
  rewrite (present_at E _ _ st Hc), bool_decide_eq_true_2 by exact Hcustom. reflexivity.
Qed.

(** On the project tree, for the templates: [story.md] is held by the
    core and the org layer. *)
Lemma listResources_every_copy_witness :
  let listing := layer_listing (layerManager manager) lcagents "bmad-core" "templates"
                   (files start) in
  exists st',
    listResources calm (layerManager manager) "templates" start
    = (OK (listing core ++ listing org ++ listing custom), st') /\
    files st' = files start /\
    forall layer,
      NoDup (listing layer) /\
      forall r, In r (listing layer) <->
                listed_from (layerManager manager) lcagents "bmad-core" "templates"
                  (files start) layer r.
Proof.
  apply (listResources_every_copy calm (layerManager manager) lcagents "bmad-core"
           "templates" start).
  - intros n. reflexivity.
  - vm_compute. reflexivity.
  - reflexivity.
  - reflexivity.
  - reflexivity.
  - intros [] c; vm_compute; discriminate.
Defined.

(** On the project tree: [foo.md] is a template of the custom layer
    only. *)
Lemma readResource_core_only_witness :
  fst (resolveTemplate calm (layerManager manager) "foo.md" start)
    = OK {| rws_name := "foo.md";
            rws_path := "/home/u/proj/.lcagents/custom/templates/foo.md";
            rws_source := custom |} /\
  fst (readResource calm (layerManager manager) "templates" "foo.md" start)
    = Err (Error "Resource foo.md of type templates not found").
Proof.
  destruct (readResource_core_only calm (layerManager manager) lcagents "bmad-core"
              "templates" "foo.md" start) as [_ Hcustom].
  - intros n. reflexivity.
  - vm_compute. reflexivity.
  - reflexivity.
  - reflexivity.
  - reflexivity.
  - reflexivity.
  - apply Hcustom; [reflexivity | vm_compute; reflexivity |].
    exists (File "custom foo"). vm_compute. reflexivity.
Defined.

(** ** Deleting without a backup, and where backups go *)

(** With [skipBackup], [safeDelete] creates and writes nothing: whatever
    the outcome, no entry has been added or altered and every entry
    outside the resource and what is below it is as it was; no backup is
    created and nothing is restored.  When the call completes, the
    resource is gone with all that was below it. *)
Theorem safeDelete_skipBackup (E : Env) (this : SafeDeleteManager) (name type : string)
        (options : PartialDeleteOptions) (st : state) :
  skipBackup (fullOptions options) = true ->
  let st' := snd (safeDelete E this name type options st) in
  let found P Pr :=
    fst (getResourcePath E (layerManager this) type name st) = OK (Some P) /\
    resolve E P = Some Pr in
  (files st' = files st \/
   exists P Pr,
     found P Pr /\
     (forall k, under Pr k = false -> files st' !! k = files st !! k) /\
     (forall k e, files st' !! k = Some e -> files st !! k = Some e)) /\
  (fst (safeDelete E this name type options st) = OK tt ->
   exists P Pr, found P Pr /\ files st' = Fs.remove Pr (files st)) /\
  exists made,
    calls st' = calls st ++ made /\
    ~ In CallCreateBackup made /\ forall b, ~ In (CallRestoreBackup b) made.
Proof.
  assert (Hgone : forall Pr (fs fs' : store),
             fs' = Fs.remove Pr fs ->
             (forall k, under Pr k = false -> fs' !! k = fs !! k) /\
             (forall k e, fs' !! k = Some e -> fs !! k = Some e)).
  { intros Pr fs fs' ->. split.
    - intros k Hk. now rewrite lookup_remove, Hk.
    - intros k e. rewrite lookup_remove. now destruct (under Pr k). }
  intros Hskip st' found. subst st' found. rewrite safeDelete_eq, Hskip. cbn [negb].
  pose proof (reads_only_checkDependencies E this name type
                (logged CallCheckDependencies st)) as [Hf1 Hc1].
  destruct (checkDependencies E this name type (logged CallCheckDependencies st))
    as [[dc | e] st1] eqn:Hcheck; cbn [snd] in Hf1, Hc1.
  2:{ cbn [fst snd]. rewrite Hf1, logged_files. split; [now left |].
      split; [discriminate |]. exists [CallCheckDependencies].
      rewrite Hc1, logged_calls. split; [reflexivity |].
      split; [intros [H | []]; discriminate | intros b [H | []]; discriminate]. }
  rewrite logged_files in Hf1. rewrite logged_calls in Hc1.
  destruct (isCore dc).
  { cbn [fst snd]. rewrite Hf1. split; [now left |]. split; [discriminate |].
    exists [CallCheckDependencies]. split; [exact Hc1 |].
    split; [intros [H | []]; discriminate | intros b [H | []]; discriminate]. }
  destruct (hasActive dc && negb (force (fullOptions options))).
  { cbn [fst snd]. rewrite Hf1. split; [now left |]. split; [discriminate |].
    exists [CallCheckDependencies]. split; [exact Hc1 |].
    split; [intros [H | []]; discriminate | intros b [H | []]; discriminate]. }
  (* the resource the check found is the one the deletion removes *)
  apply checkDependencies_inv in Hcheck as (P & _ & _ & _ & _ & _ & _ & HP & _).
  apply (f_equal fst) in HP. cbn [fst] in HP.
  assert (HP0 : fst (getResourcePath E (layerManager this) type name st) = OK (Some P)).
  { rewrite <- HP. now apply getResourcePath_files. }
  assert (HP1 : fst (getResourcePath E (layerManager this) type name st1) = OK (Some P)).
  { rewrite <- HP. apply getResourcePath_files. now rewrite Hf1, logged_files. }
  destruct (resolve E P) as [Pr |] eqn:HPr.
  2:{ destruct (getResourcePath_Some E this type name st P HP0) as [Hpresent _].
      unfold present in Hpresent. rewrite HPr in Hpresent. discriminate. }
  destruct (deleteAndUpdate_calls E this name type (fullOptions options) (dependencies dc) st1)
    as (made & Hmade & Hshape).
  assert (Hnone : ~ In CallCreateBackup (CallCheckDependencies :: made) /\
                  forall b, ~ In (CallRestoreBackup b) (CallCheckDependencies :: made)).
  { destruct Hshape as [-> | (p & [-> | ->])]; (split; [intros H | intros b H]); cbn in H;
      repeat (destruct H as [H | H]; [discriminate H |]); exact H. }
  destruct (deleteAndUpdate E this name type (fullOptions options) (dependencies dc) st1)
    as [[[] | e0] st2] eqn:Hdelete; cbn [snd] in Hmade.
  - cbn [fst snd].
    pose proof (deleteAndUpdate_OK_files E this _ _ _ _ _ _ P Pr HP1 HPr Hdelete) as Hf2.
    rewrite Hf1 in Hf2.
    split; [right; exists P, Pr; split; [now split | now apply Hgone] |].
    split; [now eauto |].
    exists (CallCheckDependencies :: made). split; [| exact Hnone].
    rewrite Hmade, Hc1, <- app_assoc. reflexivity.
  - rewrite rollback_eq. cbn [Js.truthy fst snd].
    pose proof (deleteAndUpdate_files E this _ _ _ _ _ _ _ P Pr HP1 HPr Hdelete) as Hf2.
    rewrite Hf1 in Hf2.
    split; [destruct Hf2 as [Hf2 | Hf2];
              [now left | right; exists P, Pr; split; [now split | now apply Hgone]] |].
    split; [discriminate |].
    exists (CallCheckDependencies :: made). split; [| exact Hnone].
    rewrite Hmade, Hc1, <- app_assoc. reflexivity.
Qed.

(** *** Where a relative path leads *)

Lemma split_trailing (s : string) : Path.split (s +:+ "/") = Path.split s ++ [""].
Proof. change (s +:+ "/") with (s +:+ "/" +:+ ""). now rewrite split_append_slash. Qed.

Lemma norm_segments_trailing (above tr : bool) (l acc : list string) :
  Path.norm_segments above (l ++ (if tr then [""] else [])) acc
  = Path.norm_segments above l acc.
Proof. destruct tr; [| now rewrite app_nil_r]. now rewrite norm_segments_snoc. Qed.

Lemma split_render_trailing (abs tr : bool) (segs : list string) :
  segs <> [] -> Forall (fun s => Path.has_slash s = false) segs ->
  Path.split (Path.render abs segs tr)
  = ((if abs then [""] else []) ++ segs) ++ (if tr then [""] else []).
Proof.
  intros Hne Hall. destruct tr; [| rewrite app_nil_r; now apply split_render].
  replace (Path.render abs segs true) with (Path.render abs segs false +:+ "/").
  - now rewrite split_trailing, split_render by assumption.
  - rewrite !render_cons by exact Hne. rewrite append_empty_r. now rewrite append_assoc.
Qed.

(** A relative path leads where its normal form leads. *)
Lemma resolve_normalize_relative (E : Env) (p : string) :
  p <> "" -> Path.isAbsolute p = false ->
  resolve E (Path.normalize p) = resolve E p.
Proof.
  intros Hp Hrel.
  rewrite (resolve_not_empty E p Hp), (resolve_not_empty E _ (normalize_not_empty p)), Hrel.
  unfold Path.normalize. destruct p as [| c p'] eqn:Heq; [congruence |].
  rewrite <- Heq in *. clear Heq. rewrite Hrel. cbn [negb].
  set (stk := Path.norm_segments true (Path.split p) []).
  assert (Hok : stack_ok true stk).
  { apply norm_segments_ok; [apply split_has_no_slash | constructor]. }
  assert (Hne : Forall (fun x => x <> "" /\ Path.has_slash x = false) (rev stk)).
  { apply Forall_rev. eapply stack_ok_nonempty. exact Hok. }
  rewrite isAbsolute_render by exact Hne. do 2 f_equal.
  transitivity (Path.norm_segments false (rev stk) (rev (cwd E))).
  - destruct (rev stk) as [| x segs] eqn:Hsegs.
    + now destruct (Path.trailing_slash p).
    + rewrite <- Hsegs in *. rewrite split_render_trailing.
      * now rewrite norm_segments_trailing.
      * rewrite Hsegs. discriminate.
      * eapply Forall_impl; [exact Hne | now intros ? [_ ?]].
  - subst stk. rewrite norm_segments_absorb;
      [reflexivity | constructor | apply split_has_no_slash].
Qed.

(** [path.join(a, x)] for a relative [a] leads where [x] leads from
    [a]. *)
Lemma resolve_join_relative (E : Env) (a x : string) (A : fpath) :
  a <> "" -> x <> "" -> Path.isAbsolute a = false ->
  resolve E a = Some A ->
  resolve E (Path.join [a; x])
  = Some (rev (Path.norm_segments false (Path.split x) (rev A))).
Proof.
  intros Ha Hx Hrel HA.
  rewrite (resolve_not_empty E a Ha), Hrel in HA. injection HA as <-.
  rewrite rev_involutive.
  unfold Path.join. cbn [List.filter].
  apply String.eqb_neq in Ha as Ha', Hx as Hx'. rewrite Ha', Hx'. cbn [negb].
  change (Js.join "/" [a; x]) with (a +:+ "/" +:+ x).
  assert (Hp : a +:+ "/" +:+ x <> "") by (destruct a; [congruence | discriminate]).
  rewrite resolve_normalize_relative; [| exact Hp | now rewrite isAbsolute_append].
  rewrite (resolve_not_empty E _ Hp), isAbsolute_append, Hrel by exact Ha.
  now rewrite split_append_slash, norm_segments_app.
Qed.

(** Where a backup goes is decided by the working directory of the
    process, not by the [basePath] the manager was made for.
    [createBackup] returns the relative path
    [path.join('.lcagents/backups', <name>-<timestamp>)], whatever the
    [basePath]; the file system takes it from the working directory: it
    is where [<name>-<timestamp>] leads from [<cwd>/.lcagents/backups],
    which a name with [..] segments leaves; and the metadata file is
    written there.  When [<name>-<timestamp>] is an ordinary file name,
    this is [<cwd>/.lcagents/backups/<name>-<timestamp>]. *)
Theorem createBackup_relative_to_cwd (E : Env) (basePath name type : string)
        (deps : list ResourceDependency) (st : state) (b : string) (st' : state) :
  createBackup E (SafeDeleteManager_new basePath) name type deps st = (OK b, st') ->
  let stamped := name +:+ "-" +:+ Js.replace_colon_dot (now E) in
  let Br := rev (Path.norm_segments false (Path.split stamped)
                   (rev (cwd E ++ [".lcagents"; "backups"]))) in
  b = Path.join [".lcagents/backups"; stamped] /\
  resolve E b = Some Br /\
  (exists text, files st' !! (Br ++ ["metadata.json"]) = Some (File text)) /\
  (Path.is_segment stamped ->
   b = ".lcagents/backups/" +:+ stamped /\
   Br = cwd E ++ [".lcagents"; "backups"; stamped]).
Proof.
  intros Hrun stamped Br.
  apply createBackup_inv in Hrun
    as (P & Br' & Pr & Cr & Mr & f1 & f2 & Hb & _ & HBr & _ & _ & HMr & _ & _ & Hwr).
  cbn [backupDir SafeDeleteManager_new] in Hb. fold stamped in Hb.
  assert (Hstamped : stamped <> "").
  { subst stamped. destruct name; discriminate. }
  assert (Hloc : resolve E b = Some Br).
  { rewrite Hb. apply (resolve_join_relative E ".lcagents/backups" stamped);
      [discriminate | exact Hstamped | reflexivity |].
    unfold resolve. cbn [Path.isAbsolute Js.is_slash Ascii.eqb Bool.eqb].
    change (Path.split ".lcagents/backups") with [".lcagents"; "backups"].
    rewrite norm_segments_segments by (repeat constructor).
    now rewrite rev_app_distr, !rev_involutive. }
  split; [exact Hb |]. split; [exact Hloc |]. split.
  - rewrite resolve_join_segment in HMr
      by first [reflexivity | rewrite Hb; apply join_not_empty].
    rewrite Hloc in HMr. cbn in HMr. injection HMr as <-.
    apply writeFile_inv in Hwr. rewrite Hwr. eexists. apply lookup_insert_eq.
  - intros Hseg. split.
    + rewrite Hb, join_segments by (discriminate || now repeat constructor).
      change (Path.norm_segments (negb (Path.isAbsolute ".lcagents/backups"))
                (Path.split ".lcagents/backups") []) with ["backups"; ".lcagents"].
      change (Path.isAbsolute ".lcagents/backups") with false.
      cbn [rev app]. unfold Path.render. cbn [Js.join].
      rewrite append_empty_l, append_empty_r. reflexivity.
    + subst Br. pose proof (segment_inv stamped Hseg) as (_ & _ & _ & Hslash).
      rewrite (split_no_slash _ Hslash).
      rewrite norm_segments_segments by (repeat constructor; exact Hseg).
      rewrite rev_app_distr, !rev_involutive. now rewrite <- app_assoc.
Qed.

(** The custom template [foo.md], under the name that leaves the core
    layer, deleted without backup. *)
Lemma safeDelete_skipBackup_witness :
  fst (safeDelete calm manager foo_name "templates" unguarded start) = OK tt /\
  files (snd (safeDelete calm manager foo_name "templates" unguarded start))
    = Fs.remove foo_location (files start).
Proof.
  destruct (safeDelete_skipBackup calm manager foo_name "templates" unguarded start eq_refl)
    as (_ & Hdone & _).
  assert (Hrun : fst (safeDelete calm manager foo_name "templates" unguarded start) = OK tt)
    by (vm_compute; reflexivity).
  split; [exact Hrun |].
  destruct (Hdone Hrun) as (P & Pr & [HP HPr] & Hfiles).
  assert (HP' : fst (getResourcePath calm (layerManager manager) "templates" foo_name start)
                = OK (Some foo_path)) by (vm_compute; reflexivity).
  rewrite HP' in HP. injection HP as <-.
  assert (HPr' : resolve calm foo_path = Some foo_location) by (vm_compute; reflexivity).
  rewrite HPr' in HPr. injection HPr as <-. exact Hfiles.
Defined.

(** The custom template [foo.md] of the project in [/home/u/proj],
    backed up by a process started in [/home]: the name leaves the backup
    directory, and the backup goes to [/custom/templates]. *)
Lemma createBackup_relative_to_cwd_witness :
  fst (createBackup away manager foo_name "templates" [] start) = OK foo_backup /\
  resolve away foo_backup
  = Some ["custom"; "templates"; "foo.md-2024-01-02T03-04-05-678Z"] /\
  exists text,
    files (snd (createBackup away manager foo_name "templates" [] start))
      !! ["custom"; "templates"; "foo.md-2024-01-02T03-04-05-678Z"; "metadata.json"]
    = Some (File text).
Proof.
  assert (Hrun : fst (createBackup away manager foo_name "templates" [] start) = OK foo_backup)
    by (vm_compute; reflexivity).
  destruct (createBackup_relative_to_cwd away "/home/u/proj" foo_name "templates" []
              start foo_backup
              (snd (createBackup away manager foo_name "templates" [] start)))
    as (_ & Hloc & Hmeta & _).
  - apply run_eq. exact Hrun.
  - split; [exact Hrun |]. split; [exact Hloc | exact Hmeta].
Defined.

(** ** Restoring again *)

Section Repeat.

Context (sc sp sd : string) (Cr Pr Br : fpath) (f0 f2 : store).

Hypothesis copy_below_backup : under Br Cr = true.
Hypothesis original_outside : under Br Pr = false.
Hypothesis backup_outside : under Pr Br = false.
Hypothesis copied : Fs.copy sc sp Cr Pr f0 = OK f2.

Lemma below_backup_not_below_original (k : fpath) :
  under Br k = true -> under Pr k = false.
Proof.
  intros Hk. destruct (under Pr k) eqn:H; [| reflexivity].
  apply under_true in Hk as [t Ht]. apply under_true in H as [s Hs].
  rewrite Ht in Hs. apply comparable in Hs as [Hs | Hs]; congruence.
Qed.

(** The copy back leaves the backup as it is. *)
Lemma restore_keeps_backup (k : fpath) : under Br k = true -> f2 !! k = f0 !! k.
Proof.
  intros Hk.
  destruct (copy_inv _ _ _ _ _ _ copied) as (e & f1 & _ & _ & _ & Hmk & ->).
  rewrite lookup_graft.
  destruct (strip_prefix Pr k) as [s |] eqn:Hs.
  { apply strip_prefix_Some in Hs. pose proof (below_backup_not_below_original k Hk) as Hn.
    rewrite Hs, under_app in Hn. discriminate. }
  rewrite (ensureDir_lookup _ _ _ _ k Hmk).
  destruct (f0 !! k); [reflexivity |].
  destruct (under k (Fs.parent Pr)) eqn:Hu; [| reflexivity].
  exfalso. assert (Hp : under (Fs.parent Pr) Pr = true).
  { destruct Pr as [| x t] using rev_ind; [reflexivity |].
    rewrite parent_snoc. apply under_app. }
  rewrite (under_trans Br k Pr Hk (under_trans _ _ _ Hu Hp)) in original_outside.
  discriminate.
Qed.

(** What was copied is at the original place. *)
Lemma restore_lookup (s : fpath) (x : entry) :
  f0 !! (Cr ++ s) = Some x -> f2 !! (Pr ++ s) = Some x.
Proof.
  intros Hx.
  destruct (copy_inv _ _ _ _ _ _ copied) as (e & f1 & _ & _ & _ & _ & ->).
  now rewrite lookup_graft, strip_prefix_app, Hx.
Qed.

(** Copying back a second time changes nothing. *)
Lemma restore_again : Fs.copy sc sd Cr Pr f2 = OK f2.
Proof.
  destruct (copy_inv _ _ _ _ _ _ copied) as (e & f1 & He & Hne & Hsub & Hmk & Hf2).
  assert (Hsrc : forall s, f2 !! (Cr ++ s) = f0 !! (Cr ++ s)).
  { intros s. apply restore_keeps_backup.
    eapply under_trans; [exact copy_below_backup | apply under_app]. }
  assert (He2 : f2 !! Cr = Some e).
  { specialize (Hsrc []). rewrite app_nil_r in Hsrc. now rewrite Hsrc. }
  assert (Hd2 : f2 !! Pr = Some e).
  { rewrite <- (app_nil_r Pr). apply restore_lookup. now rewrite app_nil_r. }
  unfold Fs.copy. rewrite He2, Hd2.
  rewrite bool_decide_eq_false_2 by exact Hne.
  rewrite andb_negb_r, andb_negb_l.
  destruct (is_dir e && under Cr Pr) eqn:Hin.
  { apply andb_true_iff in Hin as [Hd Hu]. rewrite (Hsub Hd) in Hu. discriminate. }
  assert (Hclash : existsb (Fs.clash f2 Pr) (Fs.subtree f2 Cr) = false).
  { apply not_true_is_false. intros Hex. apply existsb_exists in Hex as ([s x] & Hin' & Hc).
    apply list_elem_of_In, elem_of_subtree in Hin'.
    rewrite Hsrc in Hin'. unfold Fs.clash in Hc. cbn [fst snd] in Hc.
    rewrite (restore_lookup s x Hin') in Hc. unfold same_kind in Hc.
    rewrite Bool.eqb_reflx in Hc. discriminate. }
  rewrite Hclash.
  assert (Hset : settled f2 (Fs.parent Pr)).
  { intros k Hk. apply ensureDir_grows in Hmk as [_ Hs1].
    rewrite Hf2, lookup_graft.
    destruct (strip_prefix Pr k) as [s |] eqn:Hs; [| now apply Hs1].
    exfalso. apply strip_prefix_Some in Hs. subst k.
    destruct (decide (Pr = [])) as [Hnil | Hnil].
    - rewrite Hnil in backup_outside. discriminate.
    - rewrite (under_parent_false Pr s Hnil) in Hk. discriminate. }
  rewrite (ensureDir_settled _ _ _ Hset). f_equal.
  apply map_eq. intros k. rewrite lookup_graft.
  destruct (strip_prefix Pr k) as [s |] eqn:Hs; [| reflexivity].
  apply strip_prefix_Some in Hs. subst k. rewrite Hsrc.
  destruct (f0 !! (Cr ++ s)) as [x |] eqn:Hx; [| reflexivity].
  symmetry. now apply restore_lookup.
Qed.

(** The copy back removes no entry. *)
Lemma restore_keeps_keys (k : fpath) : is_Some (f0 !! k) -> is_Some (f2 !! k).
Proof.
  intros [x Hx].
  destruct (copy_inv _ _ _ _ _ _ copied) as (e & f1 & _ & _ & _ & Hmk & ->).
  rewrite lookup_graft, (ensureDir_lookup _ _ _ _ k Hmk), Hx.
  destruct (strip_prefix Pr k) as [s |]; [| eauto].
  destruct (f0 !! (Cr ++ s)); eauto.
Qed.

End Repeat.

(** A restore that completes found the directory of the original path. *)
Lemma restoreBackup_parent (E : Env) (this : SafeDeleteManager) (b : string)
      (st st' : state) (P : string) :
  restoreBackup E this b st = (OK tt, st') ->
  recorded_original E b (files st) = Some P ->
  present E st (Path.dirname P) = true.
Proof.
  unfold restoreBackup, recorded_original. intros H Horig.
  apply bind_inv_OK in H as (ex & s1 & Hex & H).
  rewrite fs_pathExists_eq in Hex. injection Hex as <- <-.
  destruct (negb _); [discriminate |].
  apply bind_inv_OK in H as (j & s2 & Hjson & H).
  unfold fs_readJSON in Hjson.
  apply bind_inv_OK in Hjson as (text & s3 & Hread & Hjson).
  apply fs_read_OK in Hread as (Mr & HMr & Hread & Hs3).
  rewrite HMr in Horig. unfold Fs.readFile in Hread.
  destruct (files st !! Mr) as [[c |] |]; try discriminate.
  injection Hread as ->.
  destruct (JSON_parse E text) as [j' |]; [| discriminate].
  injection Hjson as -> ->.
  destruct (json_get "originalPath" j) as [[| | P' | |] |]; try discriminate.
  injection Horig as ->.
  apply bind_inv_OK in H as (ex' & s4 & Hex' & H).
  rewrite fs_pathExists_eq in Hex'. injection Hex' as <- <-.
  unfold present in *. cbn [files] in *. rewrite Hs3 in H.
  destruct (resolve E (Path.dirname P)) as [q |]; [| discriminate H].
  destruct (bool_decide (is_Some (files st !! q))); [reflexivity | discriminate H].
Qed.

(** A restore does not use the backup up.  When the backup directory and
    the original path lie apart, [restoreBackup] leaves everything at and
    below the backup directory as it is, and restoring the same backup
    once more completes and changes nothing. *)
Theorem restoreBackup_repeatable (E : Env) (this : SafeDeleteManager) (b : string)
        (st st1 : state) (P : string) (Br Pr : fpath) :
  undisturbed E ->
  restoreBackup E this b st = (OK tt, st1) ->
  recorded_original E b (files st) = Some P ->
  resolve E b = Some Br -> resolve E P = Some Pr ->
  Path.is_segment (Path.basename P) ->
  under Br Pr = false -> under Pr Br = false ->
  (forall k, under Br k = true -> files st1 !! k = files st !! k) /\
  exists st2, restoreBackup E this b st1 = (OK tt, st2) /\ files st2 = files st1.
Proof.
  intros Hquiet Hrun Horig HBr HPr Hseg Hout1 Hout2.
  assert (Hb : b <> "") by (intros ->; discriminate).
  pose proof Hrun as Hrun0. pose proof Horig as Horig0.
  apply restoreBackup_inv in Hrun
    as (Mr & text & j & P' & Cr & Pr' & HMr & Htext & Hparse & HP' & HCr & HPr' & Hcopy).
  unfold recorded_original in Horig. rewrite HMr, Htext, Hparse, HP' in Horig.
  injection Horig as ->. rewrite HPr in HPr'. injection HPr' as <-.
  rewrite resolve_join_segment, HBr in HMr by (assumption || reflexivity).
  rewrite resolve_join_segment, HBr in HCr by assumption.
  cbn in HMr, HCr. injection HMr as <-. injection HCr as <-.
  assert (Hkeep : forall k, under Br k = true -> files st1 !! k = files st !! k).
  { intros k Hk. eapply restore_keeps_backup with (Pr := Pr) (Br := Br); eauto. }
  split; [exact Hkeep |].
  (* the second run *)
  assert (HMr : resolve E (Path.join [b; "metadata.json"]) = Some (Br ++ ["metadata.json"])).
  { rewrite resolve_join_segment, HBr by (assumption || reflexivity). reflexivity. }
  assert (HCr : resolve E (Path.join [b; Path.basename P]) = Some (Br ++ [Path.basename P])).
  { rewrite resolve_join_segment, HBr by assumption. reflexivity. }
  assert (Htext1 : files st1 !! (Br ++ ["metadata.json"]) = Some (File text)).
  { rewrite Hkeep by apply under_app. exact Htext. }
  unfold restoreBackup.
  rewrite (bind_OK _ _ _ _ _ (fs_pathExists_eq E _ st1)).
  rewrite (present_at E _ _ st1 HMr), Htext1, bool_decide_eq_true_2 by eauto. cbn [negb].
  assert (Hjson : fs_readJSON E (Path.join [b; "metadata.json"]) st1 = (OK j, tick st1)).
  { unfold fs_readJSON.
    rewrite (bind_OK _ _ _ _ _ (fs_readFile_file E Hquiet _ _ text st1 HMr Htext1)).
    now rewrite Hparse. }
  rewrite (bind_OK _ _ _ _ _ Hjson), HP'.
  rewrite (bind_OK _ _ _ _ _ (fs_pathExists_eq E _ (tick st1))).
  assert (Hparent : present E (tick st1) (Path.dirname P) = true).
  { pose proof (restoreBackup_parent E this b st st1 P Hrun0 Horig0) as Hp.
    unfold present in *. cbn [files tick].
    destruct (resolve E (Path.dirname P)) as [q |]; [| discriminate].
    apply bool_decide_eq_true in Hp. apply bool_decide_eq_true.
    eapply restore_keeps_keys with (Pr := Pr); eauto. }
  rewrite Hparent. cbn [negb].
  unfold fs_copy, fs_write. rewrite Hquiet, HCr, HPr. cbn [files tick].
  assert (Hagain : Fs.copy (Path.join [b; Path.basename P]) P (Br ++ [Path.basename P]) Pr
                     (files st1) = OK (files st1)).
  { eapply restore_again with (Br := Br) (f0 := files st);
      [apply under_app | exact Hout1 | exact Hout2 | exact Hcopy]. }
  rewrite Hagain. eexists. split; reflexivity.
Qed.

(** The backup of [foo.md], restored after the deletion and then once
    more. *)
Lemma restoreBackup_repeatable_witness :
  (forall k, under foo_backup_location k = true ->
     files (snd (restoreBackup calm manager foo_backup (deleted calm))) !! k
     = files (deleted calm) !! k) /\
  exists st2,
    restoreBackup calm manager foo_backup
      (snd (restoreBackup calm manager foo_backup (deleted calm))) = (OK tt, st2) /\
    files st2 = files (snd (restoreBackup calm manager foo_backup (deleted calm))).
Proof.
  apply (restoreBackup_repeatable calm manager foo_backup (deleted calm)
           (snd (restoreBackup calm manager foo_backup (deleted calm)))
           foo_path foo_backup_location foo_location).
  - intros n. reflexivity.
  - apply run_eq. vm_compute. reflexivity.
  - vm_compute. reflexivity.
  - vm_compute. reflexivity.
  - vm_compute. reflexivity.
  - reflexivity.
  - reflexivity.
  - reflexivity.
Defined.

(** ** The uninstaller: removing a tree *)

Lemma well_formed_prefix (fs : store) (p s : fpath) (e : entry) :
  well_formed fs -> fs !! (p ++ s) = Some e -> s <> [] -> fs !! p = Some Dir.
Proof.
  intros Hwf. revert e. induction s as [| x s IH] using rev_ind; intros e He Hs; [congruence |].
  assert (Hparent : fs !! (p ++ s) = Some Dir).
  { rewrite app_assoc in He. apply (Hwf _ _) in He.
    - now rewrite parent_snoc in He.
    - intros Heq. apply app_eq_nil in Heq as [_ Heq]. discriminate Heq. }
  destruct s as [| y s'].
  - now rewrite app_nil_r in Hparent.
  - apply (IH Dir Hparent). discriminate.
Qed.

Lemma well_formed_remove (fs : store) (q : fpath) :
  well_formed fs -> well_formed (Fs.remove q fs).
Proof.
  intros Hwf p e Hp Hne. rewrite lookup_remove in Hp |- *.
  destruct (under q p) eqn:Hq; [discriminate |].
  destruct (under q (Fs.parent p)) eqn:Hqp.
  - exfalso. destruct (exists_last Hne) as (p' & x & ->). rewrite parent_snoc in Hqp.
    rewrite (under_trans q p' (p' ++ [x]) Hqp (under_app _ _)) in Hq. discriminate.
  - now apply (Hwf p e).
Qed.

Lemma well_named_remove (fs : store) (q : fpath) :
  well_named fs -> well_named (Fs.remove q fs).
Proof.
  intros Hwn p e Hp. rewrite lookup_remove in Hp.
  destruct (under q p); [discriminate |]. now apply (Hwn p e).
Qed.

(** Nothing is below what is not there, and nothing below a regular
    file. *)
Lemma nothing_below_absent (fs : store) (p k : fpath) :
  well_formed fs -> fs !! p = None -> under p k = true -> fs !! k = None.
Proof.
  intros Hwf Hnone [s ->]%under_true.
  destruct s as [| x s]; [now rewrite app_nil_r |].
  destruct (fs !! (p ++ x :: s)) as [e |] eqn:He; [| reflexivity].
  apply (well_formed_prefix fs p (x :: s) e Hwf) in He; [congruence | discriminate].
Qed.

Lemma nothing_below_file (fs : store) (p k : fpath) (c : string) :
  well_formed fs -> fs !! p = Some (File c) -> under p k = true -> k <> p -> fs !! k = None.
Proof.
  intros Hwf Hfile [s ->]%under_true Hne.
  destruct s as [| x s]; [now rewrite app_nil_r in Hne |].
  destruct (fs !! (p ++ x :: s)) as [e |] eqn:He; [| reflexivity].
  apply (well_formed_prefix fs p (x :: s) e Hwf) in He; [congruence | discriminate].
Qed.

Lemma remove_absent (fs : store) (p : fpath) :
  well_formed fs -> fs !! p = None -> Fs.remove p fs = fs.
Proof.
  intros Hwf Hnone. apply map_eq. intros k. rewrite lookup_remove.
  destruct (under p k) eqn:Hu; [| reflexivity].
  symmetry. now apply (nothing_below_absent fs p k).
Qed.

Lemma remove_file (fs : store) (p : fpath) (c : string) :
  well_formed fs -> fs !! p = Some (File c) -> delete p fs = Fs.remove p fs.
Proof.
  intros Hwf Hfile. apply map_eq. intros k. rewrite lookup_remove.
  destruct (decide (k = p)) as [-> | Hne].
  - now rewrite lookup_delete_eq, under_refl.
  - rewrite lookup_delete_ne by congruence.
    destruct (under p k) eqn:Hu; [| reflexivity].
    now apply (nothing_below_file fs p k c).
Qed.

Lemma clear_wayb_complete (fs : store) (p : fpath) : clear_way fs p -> clear_wayb fs p = true.
Proof.
  intros Hclear. unfold clear_wayb. apply forallb_forall. intros i _.
  destruct (fs !! firstn i p) as [[c |] |] eqn:Hk; try reflexivity.
  exfalso. apply (Hclear (firstn i p) c); [| exact Hk].
  apply under_true. exists (skipn i p). now rewrite firstn_skipn.
Qed.

(** In a tree, the way to what a directory holds is clear. *)
Lemma clear_way_dir (fs : store) (p : fpath) :
  well_formed fs -> fs !! p = Some Dir -> clear_way fs p.
Proof.
  intros Hwf Hdir k c [s Hs]%under_true Hfile. subst p.
  destruct s as [| x s].
  - rewrite app_nil_r in Hdir. congruence.
  - apply (well_formed_prefix fs k (x :: s) Dir Hwf) in Hdir; [congruence | discriminate].
Qed.

Section Removal.

Context (E : Env).
Hypothesis quiet_io : undisturbed E.

Lemma fs_stat_present (tp : string) (p : fpath) (e : entry) (st : state) :
  resolve E tp = Some p -> files st !! p = Some e ->
  fs_stat E tp st = (OK e, tick st).
Proof.
  intros Hp He. unfold fs_stat, fs_read, NodeFs.stat. now rewrite quiet_io, Hp, He.
Qed.

Lemma fs_stat_absent (tp : string) (p : fpath) (st : state) :
  resolve E tp = Some p -> files st !! p = None -> clear_way (files st) (Fs.parent p) ->
  fs_stat E tp st = (Err (SystemError "ENOENT" tp), tick st).
Proof.
  intros Hp Hnone Hclear. unfold fs_stat, fs_read, NodeFs.stat, NodeFs.missing.
  now rewrite quiet_io, Hp, Hnone, (clear_wayb_complete _ _ Hclear).
Qed.

Lemma fs_unlink_file (tp : string) (p : fpath) (c : string) (st : state) :
  resolve E tp = Some p -> files st !! p = Some (File c) ->
  fs_unlink E tp st = (OK tt, set_files (delete p (files st)) (tick st)).
Proof.
  intros Hp He. unfold fs_unlink, fs_write, NodeFs.unlink. now rewrite quiet_io, Hp, He.
Qed.

Lemma fs_rmdir_empty (tp : string) (p : fpath) (st : state) :
  resolve E tp = Some p -> files st !! p = Some Dir -> Fs.children (files st) p = [] ->
  fs_rmdir E tp st = (OK tt, set_files (delete p (files st)) (tick st)).
Proof.
  intros Hp He Hc. unfold fs_rmdir, fs_write, NodeFs.rmdir. now rewrite quiet_io, Hp, He, Hc.
Qed.

(** The loop over the names of a directory: each round removes one of
    its entries with all that is below. *)
Lemma remove_children (fuel : nat) (tp : string) (P : fpath) (fs0 : store) (cs : list string) :
  (forall f s, In f cs ->
     well_formed (files s) -> well_named (files s) -> files s !! P = Some Dir ->
     (forall k, is_Some (files s !! k) -> is_Some (fs0 !! k)) ->
     exists s', removeRecursive E fuel (Path.join [tp; f]) s = (OK (Some tt), s') /\
                files s' = Fs.remove (P ++ [f]) (files s)) ->
  well_formed fs0 -> well_named fs0 -> fs0 !! P = Some Dir ->
  forall (todo done : list string) (s : state),
    cs = done ++ todo ->
    (forall k, files s !! k =
               if existsb (fun f => under (P ++ [f]) k) done then None else fs0 !! k) ->
    exists s',
      for_of todo
        (fun done file =>
           match done with
           | None => ret None
           | Some _ => removeRecursive E fuel (Path.join [tp; file])
           end) (Some tt) s = (OK (Some tt), s') /\
      forall k, files s' !! k =
                if existsb (fun f => under (P ++ [f]) k) cs then None else fs0 !! k.
Proof.
  intros Hchild Hwf Hwn Hdir todo.
  induction todo as [| f todo IH]; intros done s Hcs Hs; cbn [for_of].
  - rewrite app_nil_r in Hcs. subst done. now exists s.
  - assert (Hsame : files s = fold_right (fun f fs => Fs.remove (P ++ [f]) fs) fs0 done).
    { apply map_eq. intros k. rewrite Hs. clear. induction done as [| g done IHd]; [reflexivity |].
      cbn [existsb fold_right]. rewrite lookup_remove.
      destruct (under (P ++ [g]) k); [reflexivity | exact IHd]. }
    assert (Hwf_s : well_formed (files s)).
    { rewrite Hsame. clear -Hwf. induction done; [exact Hwf | now apply well_formed_remove]. }
    assert (Hwn_s : well_named (files s)).
    { rewrite Hsame. clear -Hwn. induction done; [exact Hwn | now apply well_named_remove]. }
    assert (Hdir_s : files s !! P = Some Dir).
    { rewrite Hs. replace (existsb _ done) with false; [exact Hdir |].
      symmetry. apply not_true_is_false. intros Hex.
      apply existsb_exists in Hex as (g & _ & Hg).
      rewrite under_cons_false in Hg. discriminate. }
    destruct (Hchild f s) as (s1 & Hrun & Hfiles); try assumption.
    { rewrite Hcs. apply in_or_app. right. now left. }
    { intros k [e He]. rewrite Hs in He. destruct (existsb _ done); [discriminate | eauto]. }
    rewrite (bind_OK _ _ _ _ _ Hrun).
    apply (IH (done ++ [f]) s1).
    + now rewrite <- app_assoc.
    + intros k. rewrite Hfiles, lookup_remove, Hs, existsb_app. cbn [existsb].
      rewrite orb_false_r.
      destruct (under (P ++ [f]) k); [now rewrite orb_true_r | now rewrite orb_false_r].
Qed.

(** [removeRecursive], given fuel for the depth of the tree, removes what
    is at the path with all that is below, and nothing else. *)
Lemma removeRecursive_removes (fuel : nat) :
  forall (tp : string) (P : fpath) (st : state),
    resolve E tp = Some P ->
    well_formed (files st) -> well_named (files st) ->
    is_Some (files st !! P) \/ clear_way (files st) (Fs.parent P) ->
    shallow (files st) P fuel ->
    exists st', removeRecursive E (S fuel) tp st = (OK (Some tt), st') /\
                files st' = Fs.remove P (files st).
Proof.
  induction fuel as [| fuel IH]; intros tp P st HP Hwf Hwn Hway Hshallow;
    cbn [removeRecursive]; unfold try_catch.
  all: destruct (files st !! P) as [[c |] |] eqn:Hentry.
  (* a regular file *)
  1,4: rewrite (bind_OK _ _ _ _ _ (fs_stat_present tp P _ st HP Hentry)); cbn [is_dir];
       rewrite (bind_OK _ _ _ _ _ (fs_unlink_file tp P c (tick st) HP Hentry));
       eexists; (split; [reflexivity |]); now apply remove_file with (c := c).
  (* nothing there *)
  2,4: (assert (Hclear : clear_way (files st) (Fs.parent P))
         by (destruct Hway as [[? ?] | ?]; [discriminate | assumption]));
       rewrite (bind_Err _ _ _ _ _ (fs_stat_absent tp P st HP Hentry Hclear));
       eexists; (split; [reflexivity |]);
       cbn [files tick]; symmetry; now apply remove_absent.
  (* a directory *)
  all: rewrite (bind_OK _ _ _ _ _ (fs_stat_present tp P _ st HP Hentry)); cbn [is_dir];
       rewrite (bind_OK _ _ _ _ _ (fs_readdir_dir E quiet_io tp P (tick st) HP Hentry));
       cbn [files tick].
  all: assert (Htp : tp <> "") by (intros ->; discriminate).
  all: assert (Hnames : forall f, In f (Fs.children (files st) P) -> Path.is_segment f)
         by (intros f [e He]%in_children; apply Hwn in He; apply Forall_app in He as [_ He];
             now inversion He).
  - (* no fuel is left, and none is needed: the directory is empty *)
    assert (Hempty : Fs.children (files st) P = []).
    { destruct (Fs.children (files st) P) as [| f r] eqn:Hc; [reflexivity |]. exfalso.
      assert (Hin : In f (Fs.children (files st) P)) by (rewrite Hc; now left).
      apply in_children in Hin. specialize (Hshallow (P ++ [f]) (under_app _ _) Hin).
      rewrite length_app in Hshallow. cbn in Hshallow. lia. }
    rewrite Hempty. cbn [for_of]. rewrite (bind_OK (ret (Some tt)) _ (tick (tick st)) (Some tt) (tick (tick st)) eq_refl).
    rewrite (bind_OK _ _ _ _ _ (fs_rmdir_empty tp P (tick (tick st)) HP Hentry Hempty)).
    eexists. split; [reflexivity |].
    cbn [files set_files tick]. apply map_eq. intros k. rewrite lookup_remove.
    destruct (decide (k = P)) as [-> | Hne].
    + now rewrite lookup_delete_eq, under_refl.
    + rewrite lookup_delete_ne by congruence.
      destruct (under P k) eqn:Hu; [| reflexivity].
      destruct (files st !! k) as [e |] eqn:Hk; [| reflexivity]. exfalso.
      apply under_true in Hu as [[| x s] ->]; [now rewrite app_nil_r in Hne |].
      specialize (Hshallow (P ++ x :: s) (under_app _ _) (ex_intro _ e Hk)).
      rewrite length_app in Hshallow. cbn in Hshallow. lia.
  - destruct (remove_children (S fuel) tp P (files st) (Fs.children (files st) P))
      with (todo := Fs.children (files st) P) (done := @nil string) (s := tick (tick st))
      as (s1 & Hloop & Hfiles); try assumption; try reflexivity.
    { intros f s Hf Hwf_s Hwn_s Hdir_s Hsub.
      apply IH; try assumption.
      - rewrite resolve_join_segment, HP by (assumption || now apply Hnames). reflexivity.
      - right. rewrite parent_snoc. now apply clear_way_dir.
      - intros k Hk Hsome. apply Hsub in Hsome.
        specialize (Hshallow k (under_trans _ _ _ (under_app P [f]) Hk) Hsome).
        rewrite length_app. cbn. lia. }
    rewrite (bind_OK _ _ _ _ _ Hloop).
    assert (Hdir1 : files s1 !! P = Some Dir).
    { rewrite Hfiles. replace (existsb _ _) with false; [exact Hentry |].
      symmetry. apply not_true_is_false. intros Hex.
      apply existsb_exists in Hex as (g & _ & Hg).
      rewrite under_cons_false in Hg. discriminate. }
    assert (Hgone : forall k, under P k = true -> k <> P -> files s1 !! k = None).
    { intros k [[| x s] ->]%under_true Hne; [now rewrite app_nil_r in Hne |].
      rewrite Hfiles.
      destruct (files st !! (P ++ x :: s)) as [e |] eqn:Hk;
        [| now destruct (existsb _ _)].
      replace (existsb _ _) with true; [reflexivity |].
      symmetry. apply existsb_exists. exists x. split.
      - apply in_children.
        destruct s as [| y s]; [eauto |].
        change (P ++ x :: y :: s) with (P ++ [x] ++ y :: s) in Hk. rewrite app_assoc in Hk.
        apply (well_formed_prefix _ _ _ _ Hwf) in Hk; [eauto | discriminate].
      - change (P ++ x :: s) with (P ++ [x] ++ s). rewrite app_assoc. apply under_app. }
    assert (Hempty : Fs.children (files s1) P = []).
    { destruct (Fs.children (files s1) P) as [| f r] eqn:Hc; [reflexivity |]. exfalso.
      assert (Hin : In f (Fs.children (files s1) P)) by (rewrite Hc; now left).
      apply in_children in Hin as [e He]. rewrite Hgone in He; [discriminate | apply under_app |].
      intros Heq. apply (f_equal (@length string)) in Heq. rewrite length_app in Heq.
      cbn in Heq. lia. }
    rewrite (bind_OK _ _ _ _ _ (fs_rmdir_empty tp P s1 HP Hdir1 Hempty)).
    eexists. split; [reflexivity |].
    cbn [files set_files tick]. apply map_eq. intros k. rewrite lookup_remove.
    destruct (decide (k = P)) as [-> | Hne].
    + now rewrite lookup_delete_eq, under_refl.
    + rewrite lookup_delete_ne by congruence.
      destruct (under P k) eqn:Hu; [now apply Hgone |].
      rewrite Hfiles. replace (existsb _ _) with false; [reflexivity |].
      symmetry. apply not_true_is_false. intros Hex.
      apply existsb_exists in Hex as (g & _ & Hg).
      rewrite (under_trans _ _ _ (under_app P [g]) Hg) in Hu. discriminate.
Qed.

End Removal.

(** ** The uninstaller: fuel *)

Lemma well_formedb_spec (fs : store) : well_formedb fs = true -> well_formed fs.
Proof.
  unfold well_formedb. rewrite forallb_forall. intros Hall p e Hp Hne.
  assert (Hin : In (p, e) (map_to_list fs)).
  { apply list_elem_of_In, elem_of_map_to_list, Hp. }
  specialize (Hall _ Hin). cbn [fst] in Hall.
  destruct p; [congruence |].
  now destruct (fs !! Fs.parent (s :: p)) as [[|] |].
Qed.

Lemma well_namedb_spec (fs : store) : well_namedb fs = true -> well_named fs.
Proof.
  unfold well_namedb. rewrite forallb_forall. intros Hall p e Hp.
  assert (Hin : In (p, e) (map_to_list fs)).
  { apply list_elem_of_In, elem_of_map_to_list, Hp. }
  specialize (Hall _ Hin). cbn [fst] in Hall.
  apply List.Forall_forall. intros x Hx.
  rewrite forallb_forall in Hall. exact (Hall x Hx).
Qed.

(** A store is finite: its entries are at a bounded depth. *)
Lemma depth_bounded (fs : store) : exists n, shallow fs [] n.
Proof.
  induction fs as [| k e fs Hk IH] using map_ind.
  - exists 0. intros k _ [e He]. rewrite lookup_empty in He. discriminate.
  - destruct IH as [n IH]. exists (Nat.max n (length k)). intros q _ [x Hx].
    destruct (decide (q = k)) as [-> | Hne]; [cbn; lia |].
    rewrite lookup_insert_ne in Hx by congruence.
    specialize (IH q eq_refl (ex_intro _ x Hx)). cbn in *. lia.
Qed.

Lemma shallow_anywhere (fs : store) (p : fpath) (n m : nat) :
  shallow fs [] n -> n <= m -> shallow fs p m.
Proof. intros Hn Hle k _ Hk. specialize (Hn k eq_refl Hk). cbn in Hn. lia. Qed.

Lemma shallow_remove (fs : store) (q : fpath) (n : nat) :
  shallow fs [] n -> shallow (Fs.remove q fs) [] n.
Proof.
  intros Hn k Hu [e He]. rewrite lookup_remove in He.
  destruct (under q k); [discriminate |]. apply (Hn k Hu). eauto.
Qed.

(** [removeRecursive(targetPath)] completes and leaves the store without
    what was at [targetPath] and below, everything else as it was: when
    the operating system refuses no call, and the path names an entry or
    nothing with no regular file on the way to it.  (The model's fuel is
    no limit: beyond some amount every run is this one.) *)
Theorem removeRecursive_removes_tree (E : Env) (targetPath : string) (P : fpath) (st : state) :
  undisturbed E ->
  resolve E targetPath = Some P ->
  well_formed (files st) -> well_named (files st) ->
  is_Some (files st !! P) \/ clear_way (files st) (Fs.parent P) ->
  exists N, forall fuel, N <= fuel ->
    exists st', removeRecursive E fuel targetPath st = (OK (Some tt), st') /\
                files st' = Fs.remove P (files st).
Proof.
  intros Hquiet HP Hwf Hwn Hway.
  destruct (depth_bounded (files st)) as [n Hn]. exists (S n). intros fuel Hfuel.
  destruct fuel as [| fuel]; [lia |].
  apply removeRecursive_removes; try assumption.
  apply (shallow_anywhere _ _ n); [exact Hn | lia].
Qed.

(** The installation of the scenario, removed. *)
Lemma removeRecursive_removes_tree_witness :
  exists N, forall fuel, N <= fuel ->
    exists st', removeRecursive calm fuel ".lcagents" start = (OK (Some tt), st') /\
                files st' = Fs.remove lcagents (files start).
Proof.
  apply (removeRecursive_removes_tree calm ".lcagents" lcagents start).
  - intros n. reflexivity.
  - reflexivity.
  - apply well_formedb_spec. vm_compute. reflexivity.
  - apply well_namedb_spec. vm_compute. reflexivity.
  - left. exists Dir. reflexivity.
Defined.

(** ** The uninstaller: what is never removed *)

Lemma shrinks_refl (r : fpath -> bool) (fs : store) : shrinks r fs fs.
Proof. split; auto. Qed.

Lemma shrinks_trans (r : fpath -> bool) (a b c : store) :
  shrinks r a b -> shrinks r b c -> shrinks r a c.
Proof.
  intros [Hab1 Hab2] [Hbc1 Hbc2]. split.
  - auto.
  - intros k Hk. now rewrite Hbc2, Hab2.
Qed.

Lemma shrinks_mono (r r' : fpath -> bool) (a b : store) :
  (forall k, r k = true -> r' k = true) -> shrinks r a b -> shrinks r' a b.
Proof.
  intros Hsub [H1 H2]. split; [exact H1 |].
  intros k Hk. apply H2. destruct (r k) eqn:Hr; [| reflexivity].
  apply Hsub in Hr. congruence.
Qed.

Lemma shrinks_well_named (r : fpath -> bool) (a b : store) :
  shrinks r a b -> well_named a -> well_named b.
Proof. intros [H1 _] Hwn p e Hp. apply (Hwn p e), H1, Hp. Qed.

Lemma shrinks_delete (p : fpath) (fs : store) : shrinks (under p) fs (delete p fs).
Proof.
  split.
  - intros k e Hk. now apply lookup_delete_Some in Hk.
  - intros k Hk. apply lookup_delete_ne. intros <-. now rewrite under_refl in Hk.
Qed.

Lemma shrinks_remove (p : fpath) (fs : store) : shrinks (under p) fs (Fs.remove p fs).
Proof.
  split.
  - intros k e Hk. rewrite lookup_remove in Hk. now destruct (under p k).
  - intros k Hk. now rewrite lookup_remove, Hk.
Qed.

Section Confinement.

Context (E : Env).

Lemma fs_unlink_confined (tp : string) (p : fpath) (st : state) :
  resolve E tp = Some p ->
  shrinks (under p) (files st) (files (snd (fs_unlink E tp st))).
Proof.
  intros Hp. pose proof (fs_write_files E tp (NodeFs.unlink tp) st) as Hw.
  change (fs_write E tp (NodeFs.unlink tp) st) with (fs_unlink E tp st) in Hw.
  destruct Hw as [Heq | (q & Hq & Hop)]; [rewrite Heq; apply shrinks_refl |].
  rewrite Hp in Hq. injection Hq as <-. unfold NodeFs.unlink in Hop.
  destruct (files st !! p) as [[c |] |]; try discriminate.
  injection Hop as <-. apply shrinks_delete.
Qed.

Lemma fs_rmdir_confined (tp : string) (p : fpath) (st : state) :
  resolve E tp = Some p ->
  shrinks (under p) (files st) (files (snd (fs_rmdir E tp st))).
Proof.
  intros Hp. pose proof (fs_write_files E tp (NodeFs.rmdir tp) st) as Hw.
  change (fs_write E tp (NodeFs.rmdir tp) st) with (fs_rmdir E tp st) in Hw.
  destruct Hw as [Heq | (q & Hq & Hop)]; [rewrite Heq; apply shrinks_refl |].
  rewrite Hp in Hq. injection Hq as <-. unfold NodeFs.rmdir in Hop.
  destruct (files st !! p) as [[c |] |]; try discriminate.
  destruct (Fs.children (files st) p); [| discriminate].
  injection Hop as <-. apply shrinks_delete.
Qed.

Lemma below_child (p : fpath) (f : string) (k : fpath) :
  under (p ++ [f]) k = true -> under p k = true.
Proof. apply under_app_l. Qed.

(** Whether it completes, fails or runs out of fuel, [removeRecursive]
    takes nothing away but at its path and below, and adds nothing. *)
Lemma removeRecursive_shrinks (fuel : nat) :
  forall (tp : string) (p : fpath) (st : state),
    resolve E tp = Some p -> well_named (files st) ->
    shrinks (under p) (files st) (files (snd (removeRecursive E fuel tp st))).
Proof.
  induction fuel as [| fuel IH]; intros tp p st Hp Hwn; cbn [removeRecursive];
    [apply shrinks_refl |].
  assert (Htp : tp <> "") by (intros ->; discriminate).
  unfold try_catch.
  match goal with |- context [ bind ?m ?k st ] => set (body := bind m k) end.
  assert (Hbody : shrinks (under p) (files st) (files (snd (body st)))).
  { subst body. unfold bind at 1.
    destruct (fs_stat E tp st) as [[stats | e] s1] eqn:Hstat.
    2: { pose proof (proj1 (reads_only_fs_read E tp (NodeFs.stat tp) st)) as Hsame.
         change (fs_read E tp (NodeFs.stat tp) st) with (fs_stat E tp st) in Hsame.
         rewrite Hstat in Hsame. cbn [snd] in *. rewrite Hsame. apply shrinks_refl. }
    apply fs_read_OK in Hstat as (q & Hq & _ & Hsame1).
    destruct (is_dir stats).
    - unfold bind at 1.
      destruct (fs_readdir E tp s1) as [[names | e] s2] eqn:Hlist.
      2: { pose proof (proj1 (reads_only_fs_read E tp (Fs.readdir tp) s1)) as Hsame.
           change (fs_read E tp (Fs.readdir tp) s1) with (fs_readdir E tp s1) in Hsame.
           rewrite Hlist in Hsame. cbn [snd] in *. rewrite Hsame, Hsame1.
           apply shrinks_refl. }
      apply fs_read_OK in Hlist as (q' & Hq' & Hnames & Hsame2).
      rewrite Hp in Hq'. injection Hq' as <-.
      assert (Hsegs : Forall Path.is_segment names).
      { unfold Fs.readdir in Hnames. destruct (files s1 !! p) as [[c |] |]; try discriminate.
        injection Hnames as <-. apply List.Forall_forall. intros f [e He]%in_children.
        rewrite Hsame1 in He. apply Hwn in He. apply Forall_app in He as [_ He].
        now inversion He. }
      assert (Hloop : forall acc s, well_named (files s) ->
                shrinks (under p) (files s)
                  (files (snd (for_of names
                     (fun done file =>
                        match done with
                        | None => ret None
                        | Some _ => removeRecursive E fuel (Path.join [tp; file])
                        end) acc s)))).
      { clear Hnames. induction Hsegs as [| f names Hf _ IHn]; intros acc s Hs; cbn [for_of];
          [apply shrinks_refl |].
        unfold bind. destruct acc as [[] |]; [| now apply IHn].
        assert (Hround : shrinks (under p) (files s)
                  (files (snd (removeRecursive E fuel (Path.join [tp; f]) s)))).
        { apply (shrinks_mono (under (p ++ [f]))); [apply below_child |].
          apply IH; [| exact Hs].
          rewrite resolve_join_segment, Hp by assumption. reflexivity. }
        destruct (removeRecursive E fuel (Path.join [tp; f]) s) as [[acc' | e] s'];
          cbn [snd] in *; [| exact Hround].
        eapply shrinks_trans; [exact Hround |].
        apply IHn. eapply shrinks_well_named; eassumption. }
      specialize (Hloop (Some tt) s2). rewrite Hsame2, Hsame1 in Hloop. specialize (Hloop Hwn).
      unfold bind at 1.
      destruct (for_of names _ (Some tt) s2) as [[[[] |] | e] s3]; cbn [snd] in *;
        try exact Hloop.
      eapply shrinks_trans; [exact Hloop |].
      unfold bind. pose proof (fs_rmdir_confined tp p s3 Hp) as Hrm.
      destruct (fs_rmdir E tp s3) as [[[] | e] s4]; exact Hrm.
    - unfold bind. pose proof (fs_unlink_confined tp p s1 Hp) as Hrm.
      rewrite Hsame1 in Hrm.
      destruct (fs_unlink E tp s1) as [[[] | e] s4]; exact Hrm. }
  destruct (body st) as [[a | e] s1]; cbn [snd] in *; [exact Hbody |].
  now destruct (negb (code_is e "ENOENT")).
Qed.

End Confinement.

(** On a tree of regular files and directories, without symbolic links:
    whatever the operating system refuses, and whether it completes or
    throws, [removeRecursive(targetPath)] changes nothing that is not at
    [targetPath] or below, and what it leaves there was there before: it
    only removes.  (A symbolic link to a directory would be followed by
    [fs.stat], out of the tree; the store has none.) *)
Theorem removeRecursive_confined (E : Env) (fuel : nat) (targetPath : string) (P : fpath)
        (st : state) :
  resolve E targetPath = Some P -> well_named (files st) ->
  let st' := snd (removeRecursive E fuel targetPath st) in
  (forall k, under P k = false -> files st' !! k = files st !! k) /\
  (forall k e, files st' !! k = Some e -> files st !! k = Some e).
Proof.
  intros HP Hwn. destruct (removeRecursive_shrinks E fuel targetPath P st HP Hwn) as [H1 H2].
  split; assumption.
Qed.

(** The removal of the installation that the operating system stops on
    the way. *)
Lemma removeRecursive_confined_witness :
  let st' := snd (removeRecursive stormy 20 ".lcagents" start) in
  (forall k, under lcagents k = false -> files st' !! k = files start !! k) /\
  (forall k e, files st' !! k = Some e -> files start !! k = Some e).
Proof.
  apply (removeRecursive_confined stormy 20 ".lcagents" lcagents start).
  - reflexivity.
  - apply well_namedb_spec. vm_compute. reflexivity.
Defined.

(** ** The uninstaller: [main] *)

Lemma confined_ret {A} (r : fpath -> bool) (a : A) : confined r (retP a).
Proof. intros w _. apply shrinks_refl. Qed.

Lemma confined_log (r : fpath -> bool) (line : string) : confined r (console_log line).
Proof. intros w _. apply shrinks_refl. Qed.

Lemma confined_error (r : fpath -> bool) (line : string) : confined r (console_error line).
Proof. intros w _. apply shrinks_refl. Qed.

Lemma confined_bind {A B} (r : fpath -> bool) (m : P A) (k : A -> P B) :
  confined r m -> (forall a, confined r (k a)) -> confined r (bindP m k).
Proof.
  intros Hm Hk w Hw. unfold bindP. specialize (Hm w Hw).
  destruct (m w) as [[a | e] w1]; cbn [snd] in *; [| exact Hm].
  eapply shrinks_trans; [exact Hm |]. apply Hk. eapply shrinks_well_named; eassumption.
Qed.

Lemma confined_try_catch {A} (r : fpath -> bool) (m : P A) (h : error -> P A) :
  confined r m -> (forall e, confined r (h e)) -> confined r (try_catchP m h).
Proof.
  intros Hm Hh w Hw. unfold try_catchP. specialize (Hm w Hw).
  destruct (m w) as [[a | e] w1]; cbn [snd] in *; [exact Hm |].
  eapply shrinks_trans; [exact Hm |]. apply Hh. eapply shrinks_well_named; eassumption.
Qed.

Lemma confined_for_of {A B} (r : fpath -> bool) (xs : list A) (body : B -> A -> P B) (acc : B) :
  (forall b a, In a xs -> confined r (body b a)) -> confined r (for_ofP xs body acc).
Proof.
  revert acc. induction xs as [| x xs IH]; intros acc Hb; cbn [for_ofP].
  - apply confined_ret.
  - apply confined_bind; [apply Hb; now left |].
    intros b. apply IH. intros b' a Ha. apply Hb. now right.
Qed.

Lemma confined_lift {A} (r : fpath -> bool) (m : M A) :
  (forall st, well_named (files st) -> shrinks r (files st) (files (snd (m st)))) ->
  confined r (liftP m).
Proof.
  intros Hm [t st] Hw. unfold liftP. cbn [fst snd] in *. specialize (Hm st Hw).
  now destruct (m st) as [res st'].
Qed.

Lemma confined_reads {A} (r : fpath -> bool) (m : M A) : reads_only m -> confined r (liftP m).
Proof.
  intros Hm. apply confined_lift. intros st _. rewrite (proj1 (Hm st)). apply shrinks_refl.
Qed.

Lemma confined_mono {A} (r r' : fpath -> bool) (m : P A) :
  (forall k, r k = true -> r' k = true) -> confined r m -> confined r' m.
Proof. intros Hsub Hm w Hw. eapply shrinks_mono; [exact Hsub | now apply Hm]. Qed.

Lemma in_region_intro (ps : list fpath) (p k : fpath) :
  In p ps -> under p k = true -> in_region ps k = true.
Proof. intros Hp Hk. apply existsb_exists. eauto. Qed.

Lemma absolute_segments (l : list string) :
  Forall Path.is_segment l ->
  rev (Path.norm_segments false (Path.split (Path.render true l false)) []) = l.
Proof.
  intros Hall. destruct l as [| x l]; [reflexivity |].
  rewrite split_render.
  - change ((if true then [""] else []) ++ x :: l)
      with ((if false then [] else [""]) ++ x :: l).
    rewrite norm_segments_skip_empty, norm_segments_segments, app_nil_r by exact Hall.
    apply rev_involutive.
  - discriminate.
  - eapply Forall_impl; [exact Hall |]. intros s Hs. now apply segment_inv in Hs.
Qed.

Section Running.

Context (E : Env) (H : Host).

Lemma reads_only_pathExists (tp : string) : reads_only (pathExists E tp).
Proof.
  apply reads_only_try_catch.
  - apply reads_only_bind; [apply reads_only_fs_read | intros; apply reads_only_ret].
  - intros; apply reads_only_ret.
Qed.

Hypothesis cwd_named : Forall Path.is_segment (cwd E).

Lemma cwd_plain : Forall (fun s => s <> "" /\ Path.has_slash s = false) (cwd E).
Proof.
  eapply Forall_impl; [exact cwd_named |]. intros s Hs.
  apply segment_inv in Hs as (H1 & _ & _ & H4). now split.
Qed.

Lemma process_cwd_not_empty : process_cwd E <> "".
Proof. apply render_not_empty, cwd_plain. Qed.

Lemma process_cwd_resolves : resolve E (process_cwd E) = Some (cwd E).
Proof.
  rewrite (resolve_not_empty E _ process_cwd_not_empty). unfold process_cwd.
  rewrite isAbsolute_render by apply cwd_plain. f_equal.
  now apply absolute_segments.
Qed.

Lemma below_cwd (l : list string) :
  l <> [] -> Forall Path.is_segment l ->
  resolve E (Path.join (process_cwd E :: l)) = Some (cwd E ++ l).
Proof.
  intros Hl Hall.
  rewrite resolve_join_segments, process_cwd_resolves
    by (assumption || apply process_cwd_not_empty).
  reflexivity.
Qed.

Lemma below_dir (l : list string) (name : string) :
  l <> [] -> Forall Path.is_segment l -> Path.is_segment name ->
  resolve E (Path.join [Path.join (process_cwd E :: l); name]) = Some (cwd E ++ l ++ [name]).
Proof.
  intros Hl Hall Hname.
  rewrite resolve_join_segment, below_cwd by (assumption || apply join_not_empty).
  cbn. now rewrite app_assoc.
Qed.

Lemma remove_listed_confined (fuel : nat) (l : list string) (name : string) (done : option unit) :
  l <> [] -> Forall Path.is_segment l -> Path.is_segment name ->
  confined (under (cwd E ++ l ++ [name]))
    (remove_listed E fuel (Path.join (process_cwd E :: l)) done name).
Proof.
  intros Hl Hall Hname. unfold remove_listed. destruct done as [[] |]; [| apply confined_ret].
  apply confined_bind; [apply confined_reads, reads_only_pathExists |].
  intros [|]; [| apply confined_ret].
  apply confined_bind.
  - apply confined_lift. intros st Hst. apply removeRecursive_shrinks; [| exact Hst].
    now apply below_dir.
  - intros [[] |]; [| apply confined_ret].
    apply confined_bind; [apply confined_log | intros; apply confined_ret].
Qed.

Lemma main_shrinks (fuel : nat) : confined (in_region (removed_by_main E)) (main E H fuel).
Proof.
  unfold main.
  do 3 (apply confined_bind; [apply confined_log | intros _]).
  apply confined_bind; [apply confined_reads, reads_only_pathExists |].
  intros [|]; cbn [negb].
  2: { apply confined_bind; [apply confined_log | intros; apply confined_ret]. }
  destruct forceFlag; cbn [negb].
  2: { do 4 (apply confined_bind; [apply confined_log | intros _]). apply confined_ret. }
  apply confined_bind; [apply confined_log | intros _].
  apply confined_try_catch.
  2: { intros e. do 2 (apply confined_bind; [apply confined_log | intros _]).
       apply confined_bind; [apply confined_error | intros; apply confined_ret]. }
  apply confined_bind.
  { apply (confined_mono (under (cwd E ++ [".lcagents"]))).
    - intros k. apply in_region_intro. now left.
    - apply confined_lift. intros st Hst. apply removeRecursive_shrinks; [| exact Hst].
      apply (below_cwd [".lcagents"]); [discriminate |]. repeat constructor. }
  intros [[] |]; [| apply confined_ret].
  apply confined_bind; [apply confined_log | intros _].
  apply confined_bind.
  { apply confined_for_of. intros b a Ha.
    apply (confined_mono (under (cwd E ++ [".github"; "workflows"] ++ [a]))).
    - intros k. apply in_region_intro.
      destruct Ha as [<- | [<- | []]]; cbn; tauto.
    - apply (remove_listed_confined fuel [".github"; "workflows"]); [discriminate | |].
      + repeat constructor.
      + destruct Ha as [<- | [<- | []]]; reflexivity. }
  intros [[] |]; [| apply confined_ret].
  apply confined_bind.
  { apply confined_for_of. intros b a Ha.
    apply (confined_mono (under (cwd E ++ [".github"; "ISSUE_TEMPLATE"] ++ [a]))).
    - intros k. apply in_region_intro.
      destruct Ha as [<- | [<- | []]]; cbn; tauto.
    - apply (remove_listed_confined fuel [".github"; "ISSUE_TEMPLATE"]); [discriminate | |].
      + repeat constructor.
      + destruct Ha as [<- | [<- | []]]; reflexivity. }
  intros [[] |]; [| apply confined_ret].
  do 3 (apply confined_bind; [apply confined_log | intros _]).
  apply confined_bind.
  { intros w _. cbn [snd]. apply shrinks_refl. }
  intros url. apply confined_bind; [apply confined_log | intros; apply confined_ret].
Qed.

End Running.

Lemma pathExists_answers (E : Env) (tp : string) (st : state) :
  exists b, fst (pathExists E tp st) = OK b.
Proof.
  unfold pathExists, try_catch, bind.
  destruct (fs_stat E tp st) as [[e | e] st1]; cbn; eauto.
Qed.

Lemma pathExists_files (E : Env) (tp : string) (st : state) :
  files (snd (pathExists E tp st)) = files st.
Proof. apply (reads_only_pathExists E tp st). Qed.

(** Running a command of the terminal. *)
Lemma bindP_log {A} (line : string) (k : unit -> P A) (t : terminal) (st : state) :
  bindP (console_log line) k (t, st)
  = k tt ({| stdout := stdout t ++ [line]; stderr := stderr t |}, st).
Proof. reflexivity. Qed.

Lemma bindP_error {A} (line : string) (k : unit -> P A) (t : terminal) (st : state) :
  bindP (console_error line) k (t, st)
  = k tt ({| stdout := stdout t; stderr := stderr t ++ [line] |}, st).
Proof. reflexivity. Qed.

Lemma bindP_lift {A B} (m : M A) (k : A -> P B) (t : terminal) (st st' : state) (a : A) :
  m st = (OK a, st') -> bindP (liftP m) k (t, st) = k a (t, st').
Proof. intros Hm. unfold bindP, liftP. cbn [fst snd]. now rewrite Hm. Qed.

Lemma bindP_OK {A B} (m : P A) (k : A -> P B) (w w' : terminal * state) (a : A) :
  m w = (OK a, w') -> bindP m k w = k a w'.
Proof. intros Hm. unfold bindP. now rewrite Hm. Qed.

Ltac say := repeat (rewrite bindP_log; cbv beta).

Lemma main_unforced (E : Env) (H : Host) (fuel : nat) (w : terminal * state) :
  forceFlag H = false ->
  exists w', main E H fuel w = (OK (Some Returned), w') /\ files (snd w') = files (snd w).
Proof.
  intros Hforce. destruct w as [t st]. unfold main. say.
  pose proof (pathExists_files E (Path.join [process_cwd E; ".lcagents"]) st) as Hsame.
  destruct (pathExists_answers E (Path.join [process_cwd E; ".lcagents"]) st) as [b Hb].
  apply run_eq in Hb. rewrite (bindP_lift _ _ _ _ _ _ Hb).
  destruct b; cbn [negb]; rewrite ?Hforce; cbn [negb]; say;
    (eexists; split; [reflexivity | exact Hsame]).
Qed.

(** On a tree of regular files and directories, without symbolic links:
    whatever happens on the way, a run of [main] adds and changes no
    entry of the store and removes none outside the installation
    directory [.lcagents] and the four files of [.github] it names, all
    in the working directory; started without [--force] and [-f], it
    removes nothing at all and returns. *)
Theorem main_confined (E : Env) (H : Host) (fuel : nat) (w : terminal * state) :
  Forall Path.is_segment (cwd E) -> well_named (files (snd w)) ->
  let w' := snd (main E H fuel w) in
  (forall k e, files (snd w') !! k = Some e -> files (snd w) !! k = Some e) /\
  (forall k, (forall p, In p (removed_by_main E) -> under p k = false) ->
             files (snd w') !! k = files (snd w) !! k) /\
  (forceFlag H = false ->
   fst (main E H fuel w) = OK (Some Returned) /\ files (snd w') = files (snd w)).
Proof.
  intros Hcwd Hwn. destruct (main_shrinks E H Hcwd fuel w Hwn) as [Hsub Hout].
  split; [exact Hsub |]. split.
  - intros k Hk. apply Hout. apply not_true_is_false. intros Hin.
    apply existsb_exists in Hin as (p & Hp & Hu). rewrite (Hk p Hp) in Hu. discriminate.
  - intros Hforce. destruct (main_unforced E H fuel w Hforce) as (w1 & Hrun & Hsame).
    cbv zeta. rewrite Hrun. now split.
Qed.

(** A forced run that the operating system stops on the way. *)
Lemma main_confined_witness :
  let w' := snd (main stormy (Installed.host ["--force"]) 20
                   (Installed.silent, Installed.start)) in
  (forall k e, files (snd w') !! k = Some e -> files Installed.start !! k = Some e) /\
  (forall k, (forall p, In p (removed_by_main stormy) -> under p k = false) ->
             files (snd w') !! k = files Installed.start !! k) /\
  (forceFlag (Installed.host ["--force"]) = false ->
   fst (main stormy (Installed.host ["--force"]) 20 (Installed.silent, Installed.start))
   = OK (Some Returned) /\
   files (snd w') = files Installed.start).
Proof.
  apply (main_confined stormy (Installed.host ["--force"]) 20
           (Installed.silent, Installed.start)).
  - repeat constructor.
  - apply well_namedb_spec. vm_compute. reflexivity.
Defined.

(** ** The uninstaller: a forced run *)

Lemma try_catchP_OK {A} (body : P A) (h : error -> P A) (w w' : terminal * state) (a : A) :
  body w = (OK a, w') -> try_catchP body h w = (OK a, w').
Proof. intros Hb. unfold try_catchP. now rewrite Hb. Qed.

Lemma try_catchP_Err {A} (body : P A) (h : error -> P A) (w w' : terminal * state) (e : error) :
  body w = (Err e, w') -> try_catchP body h w = h e w'.
Proof. intros Hb. unfold try_catchP. now rewrite Hb. Qed.

Section Forced.

Context (E : Env) (H : Host).
Hypothesis quiet_io : undisturbed E.
Hypothesis cwd_named : Forall Path.is_segment (cwd E).

Lemma pathExists_present (tp : string) (p : fpath) (st : state) :
  resolve E tp = Some p -> is_Some (files st !! p) ->
  pathExists E tp st = (OK true, tick st).
Proof.
  intros Hp [e He]. unfold pathExists, try_catch.
  now rewrite (bind_OK _ _ _ _ _ (fs_stat_present E quiet_io tp p e st Hp He)).
Qed.

Lemma pathExists_absent (tp : string) (p : fpath) (st : state) :
  resolve E tp = Some p -> files st !! p = None ->
  pathExists E tp st = (OK false, tick st).
Proof.
  intros Hp He. unfold pathExists, try_catch, bind, fs_stat, fs_read, NodeFs.stat.
  now rewrite quiet_io, Hp, He.
Qed.

Lemma sound_tree_remove (n : nat) (fs : store) (p : fpath) : sound_tree n fs -> sound_tree n (Fs.remove p fs).
Proof.
  intros (Hwf & Hwn & Hn). split; [| split].
  - now apply well_formed_remove.
  - now apply well_named_remove.
  - now apply shallow_remove.
Qed.

Lemma removeRecursive_present (n fuel : nat) (tp : string) (p : fpath) (st : state) :
  n <= fuel -> sound_tree n (files st) -> resolve E tp = Some p -> is_Some (files st !! p) ->
  exists st', removeRecursive E (S fuel) tp st = (OK (Some tt), st') /\
              files st' = Fs.remove p (files st).
Proof.
  intros Hfuel (Hwf & Hwn & Hn) Hp Hsome.
  apply removeRecursive_removes; try assumption; [now left |].
  now apply (shallow_anywhere _ _ n).
Qed.

Lemma remove_listed_run (n fuel : nat) (l : list string) (name : string)
      (t : terminal) (st : state) :
  n <= fuel -> sound_tree n (files st) ->
  l <> [] -> Forall Path.is_segment l -> Path.is_segment name ->
  exists w', remove_listed E (S fuel) (Path.join (process_cwd E :: l)) (Some tt) name (t, st)
             = (OK (Some tt), w') /\
             files (snd w') = Fs.remove (cwd E ++ l ++ [name]) (files st).
Proof.
  intros Hfuel Hkept Hl Hall Hname. unfold remove_listed.
  pose proof (below_dir E cwd_named l name Hl Hall Hname) as Hp.
  destruct (files st !! (cwd E ++ l ++ [name])) as [e |] eqn:He.
  - rewrite (bindP_lift _ _ _ _ _ _
               (pathExists_present _ _ st Hp (ex_intro _ e He))).
    destruct (removeRecursive_present n fuel _ _ (tick st) Hfuel Hkept Hp (ex_intro _ e He))
      as (st' & Hrun & Hfiles).
    rewrite (bindP_lift _ _ _ _ _ _ Hrun). say.
    eexists. split; [reflexivity | exact Hfiles].
  - rewrite (bindP_lift _ _ _ _ _ _ (pathExists_absent _ _ st Hp He)).
    eexists. split; [reflexivity |]. cbn [snd files tick].
    symmetry. apply remove_absent; [apply Hkept | exact He].
Qed.

Lemma remove_two_listed (n fuel : nat) (l : list string) (a b : string)
      (t : terminal) (st : state) :
  n <= fuel -> sound_tree n (files st) ->
  l <> [] -> Forall Path.is_segment l -> Path.is_segment a -> Path.is_segment b ->
  exists w', for_ofP [a; b]
               (remove_listed E (S fuel) (Path.join (process_cwd E :: l))) (Some tt) (t, st)
             = (OK (Some tt), w') /\
             files (snd w') = Fs.remove (cwd E ++ l ++ [b])
                                (Fs.remove (cwd E ++ l ++ [a]) (files st)).
Proof.
  intros Hfuel Hkept Hl Hall Ha Hb. cbn [for_ofP].
  destruct (remove_listed_run n fuel l a t st Hfuel Hkept Hl Hall Ha) as ([t1 s1] & Hr1 & Hf1).
  rewrite (bindP_OK _ _ _ _ _ Hr1). cbn [snd] in Hf1.
  assert (Hkept1 : sound_tree n (files s1)) by (rewrite Hf1; now apply sound_tree_remove).
  destruct (remove_listed_run n fuel l b t1 s1 Hfuel Hkept1 Hl Hall Hb) as (w2 & Hr2 & Hf2).
  rewrite (bindP_OK _ _ _ _ _ Hr2). exists w2. split; [reflexivity |]. now rewrite Hf2, Hf1.
Qed.

Lemma main_forced (n fuel : nat) (t : terminal) (st : state) :
  n <= fuel -> sound_tree n (files st) ->
  is_Some (files st !! (cwd E ++ [".lcagents"])) -> forceFlag H = true ->
  exists w',
    main E H (S fuel) (t, st)
    = (OK (Some (match repoUrl H with OK _ => Returned | Err _ => Exited 1 end)), w') /\
    files (snd w') =
    fold_left (fun fs p => Fs.remove p fs) (removed_by_main E) (files st).
Proof.
  intros Hfuel Hkept Hthere Hforce. unfold main. say.
  assert (HL : resolve E (Path.join [process_cwd E; ".lcagents"])
               = Some (cwd E ++ [".lcagents"])).
  { apply (below_cwd E cwd_named [".lcagents"]); [discriminate |]. repeat constructor. }
  rewrite (bindP_lift _ _ _ _ _ _ (pathExists_present _ _ st HL Hthere)).
  cbn [negb]. rewrite Hforce. cbn [negb]. say.
  destruct (removeRecursive_present n fuel _ _ (tick st) Hfuel Hkept HL Hthere)
    as (s1 & Hrun1 & Hf1).
  assert (Hkept1 : sound_tree n (files s1)) by (rewrite Hf1; now apply sound_tree_remove).
  set (t1 := {| stdout := _; stderr := _ |}).
  set (t2 := {| stdout := stdout t1 ++ [colorize "gray" "   ✓ Removed .lcagents directory"];
                stderr := stderr t1 |}).
  destruct (remove_two_listed n fuel [".github"; "workflows"]
              "lcagents-validation.yml" "lcagents-docs.yml" t2 s1 Hfuel Hkept1)
    as ([t3 s2] & Hrun2 & Hf2); try (repeat constructor); try discriminate.
  cbn [snd] in Hf2.
  assert (Hkept2 : sound_tree n (files s2)) by (rewrite Hf2; now do 2 apply sound_tree_remove).
  destruct (remove_two_listed n fuel [".github"; "ISSUE_TEMPLATE"]
              "agent-request.md" "bug-report.md" t3 s2 Hfuel Hkept2)
    as ([t4 s3] & Hrun3 & Hf3); try (repeat constructor); try discriminate.
  cbn [snd] in Hf3.
  assert (Hfiles : files s3 = fold_left (fun fs p => Fs.remove p fs) (removed_by_main E)
                                (files st)).
  { rewrite Hf3, Hf2, Hf1. reflexivity. }
  destruct (repoUrl H) as [url | e] eqn:Hurl.
  - eexists. split.
    + apply try_catchP_OK.
      rewrite (bindP_lift _ _ _ _ _ _ Hrun1). say.
      rewrite (bindP_OK _ _ _ _ _ Hrun2).
      rewrite (bindP_OK _ _ _ _ _ Hrun3). say.
      unfold bindP at 1. cbv beta iota. say. reflexivity.
    + exact Hfiles.
  - eexists. split.
    + erewrite try_catchP_Err.
      2: { rewrite (bindP_lift _ _ _ _ _ _ Hrun1). say.
           rewrite (bindP_OK _ _ _ _ _ Hrun2).
           rewrite (bindP_OK _ _ _ _ _ Hrun3). say.
           unfold bindP at 1. cbv beta iota. reflexivity. }
      say. rewrite bindP_error. reflexivity.
    + exact Hfiles.
Qed.

End Forced.

Lemma lookup_removed (ps : list fpath) (fs : store) (k : fpath) :
  fold_left (fun fs p => Fs.remove p fs) ps fs !! k
  = if in_region ps k then None else fs !! k.
Proof.
  revert fs. induction ps as [| p ps IH]; intros fs; [reflexivity |].
  cbn [fold_left in_region existsb]. change (existsb _ ps) with (in_region ps k).
  rewrite IH, lookup_remove.
  destruct (under p k), (in_region ps k); reflexivity.
Qed.

(** Where the operating system refuses no call, [main] started with
    [--force] or [-f] in a working directory that holds [.lcagents]
    removes the installation directory and the four files of [.github] it
    names, each with all that is below, and leaves every other entry as it
    was.  It then returns if the repository address can be read, and
    otherwise ends with exit code 1, the removal done.  (The model's fuel
    is no limit: beyond some amount every run is this one.) *)
Theorem main_removes_installation (E : Env) (H : Host) (w : terminal * state) :
  undisturbed E -> Forall Path.is_segment (cwd E) ->
  well_formed (files (snd w)) -> well_named (files (snd w)) ->
  is_Some (files (snd w) !! (cwd E ++ [".lcagents"])) ->
  forceFlag H = true ->
  exists N, forall fuel, N <= fuel ->
    fst (main E H fuel w)
    = OK (Some (match repoUrl H with OK _ => Returned | Err _ => Exited 1 end)) /\
    forall k, files (snd (snd (main E H fuel w))) !! k
              = if in_region (removed_by_main E) k then None else files (snd w) !! k.
Proof.
  intros Hquiet Hcwd Hwf Hwn Hthere Hforce. destruct w as [t st]. cbn [snd] in *.
  destruct (depth_bounded (files st)) as [n Hn]. exists (S n). intros fuel Hfuel.
  destruct fuel as [| fuel]; [lia |].
  destruct (main_forced E H Hquiet Hcwd n fuel t st) as (w' & Hrun & Hfiles);
    [lia | now repeat split | assumption | assumption |].
  rewrite Hrun. cbn [fst snd]. split; [reflexivity |].
  intros k. rewrite Hfiles. apply lookup_removed.
Qed.

(** The forced run on the project of the scenario: all is removed, and
    the run ends with exit code 1 for want of the repository
    configuration. *)
Lemma main_removes_installation_witness :
  exists N, forall fuel, N <= fuel ->
    fst (main calm (Installed.host ["--force"]) fuel (Installed.silent, Installed.start))
    = OK (Some (Exited 1)) /\
    forall k,
      files (snd (snd (main calm (Installed.host ["--force"]) fuel
                         (Installed.silent, Installed.start)))) !! k
      = if in_region (removed_by_main calm) k then None else files Installed.start !! k.
Proof.
  apply (main_removes_installation calm (Installed.host ["--force"])
           (Installed.silent, Installed.start)).
  - intros n. reflexivity.
  - repeat constructor.
  - apply well_formedb_spec. vm_compute. reflexivity.
  - apply well_namedb_spec. vm_compute. reflexivity.
  - exists Dir. vm_compute. reflexivity.
  - reflexivity.
Defined.

(** ** The uninstaller: the shell alias *)









Section Alias.

Context (E : Env) (H : Host).
Hypothesis quiet_io : undisturbed E.









End Alias.



(** ** The uninstaller: the shell alias, when things go wrong *)

Lemma reads_only_shellConfig (E : Env) (H : Host) : reads_only (shellConfig E H).
Proof.
  unfold shellConfig.
  destruct (Js.includes _ "zsh"); [apply reads_only_ret |].
  destruct (Js.includes _ "bash"); [| apply reads_only_ret].
  apply reads_only_bind; [apply reads_only_pathExists | intros; apply reads_only_ret].
Qed.

(** A write touches the file it is given, whether it completes or is
    refused with the file open. *)
Lemma node_writeFile_touches (E : Env) (H : Host) (tp content : string) (st : state) :
  files (snd (node_writeFile E H tp content st)) = files st \/
  exists p written,
    resolve E tp = Some p /\
    files (snd (node_writeFile E H tp content st)) = <[p := File written]> (files st).
Proof.
  unfold node_writeFile. destruct (io_fault E (ticks st)) as [e |].
  - cbn [snd]. destruct (torn H (ticks st)) as [n |]; [| now left].
    destruct (resolve E tp) as [p |]; [| now left].
    destruct (Fs.writeFile tp p (take_chars n content) (files st)) as [fs' |] eqn:Hw;
      [| now left].
    apply writeFile_inv in Hw. right. exists p, (take_chars n content). now split.
  - unfold fs_writeFile.
    destruct (fs_write_files E tp (fun q => Fs.writeFile tp q content) st)
      as [Hsame | (p & Hp & Hw)]; [now left |].
    apply writeFile_inv in Hw. right. exists p, content. now split.
Qed.

(** [removeShellAlias] never throws, and touches nothing but the
    configuration file of the shell.  Whatever the shell, the store and
    the answers of the operating system, it returns a result; the store
    is as before unless the run got as far as writing the configuration
    file, and then every other entry is as before and the result is the
    success [Alias removed from ... configuration] or, the write having
    been refused, the failure [Failed to remove shell alias ...], with
    the file possibly left cut short. *)
Theorem removeShellAlias_harmless (E : Env) (H : Host) (st : state) :
  exists r st',
    removeShellAlias E H st = (OK r, st') /\
    (files st' = files st \/
     exists cfg name P,
       fst (shellConfig E H st) = OK (Some (cfg, name)) /\
       resolve E cfg = Some P /\
       (forall k, k <> P -> files st' !! k = files st !! k) /\
       (success r = true /\
        message r = "Alias removed from " +:+ name +:+ " configuration" \/
        success r = false /\
        message r = "Failed to remove shell alias - manually remove lcagent alias")).
Proof.
  unfold removeShellAlias, try_catch.
  pose proof (proj1 (reads_only_shellConfig E H st)) as Hs.
  unfold bind at 1.
  destruct (shellConfig E H st) as [[[[cfg name] |] | e] s] eqn:Hcfg; cbn [snd] in Hs.
  2, 3: do 2 eexists; (split; [reflexivity | now left]).
  pose proof (proj1 (reads_only_pathExists E cfg s)) as Hp.
  unfold bind at 1.
  destruct (pathExists E cfg s) as [[[|] | e] s1]; cbn [snd negb] in *.
  2, 3: do 2 eexists; (split; [reflexivity | left; congruence]).
  pose proof (proj1 (reads_only_fs_read E cfg (Fs.readFile cfg) s1)) as Hr.
  change (fs_read E cfg (Fs.readFile cfg) s1) with (fs_readFile E cfg s1) in Hr.
  unfold bind at 1.
  destruct (fs_readFile E cfg s1) as [[content | e] s2]; cbn [snd] in *.
  2: do 2 eexists; (split; [reflexivity | left; congruence]).
  destruct (Js.includes content "alias lcagent="); cbn [negb].
  2: do 2 eexists; (split; [reflexivity | left; congruence]).
  unfold bind at 1.
  set (text := Js.join nl _).
  assert (Hsame : files s2 = files st) by congruence.
  pose proof (node_writeFile_touches E H cfg text s2) as Hw.
  assert (Hdone : forall s3, files s3 = files (snd (node_writeFile E H cfg text s2)) ->
            forall r : AliasResult,
              (success r = true /\
               message r = "Alias removed from " +:+ name +:+ " configuration" \/
               success r = false /\
               message r = "Failed to remove shell alias - manually remove lcagent alias") ->
            files s3 = files st \/
            exists cfg0 name0 P,
              OK (Some (cfg, name)) = OK (Some (cfg0, name0)) /\
              resolve E cfg0 = Some P /\
              (forall k, k <> P -> files s3 !! k = files st !! k) /\
              (success r = true /\
               message r = "Alias removed from " +:+ name0 +:+ " configuration" \/
               success r = false /\
               message r
               = "Failed to remove shell alias - manually remove lcagent alias")).
  { intros s3 Hs3 r Hr'. destruct Hw as [Hw | (P & written & HP & Hw)].
    - left. congruence.
    - right. exists cfg, name, P. split; [reflexivity |]. split; [exact HP |].
      split; [| exact Hr'].
      intros k Hk. rewrite Hs3, Hw, Hsame. now apply lookup_insert_ne. }
  destruct (node_writeFile E H cfg text s2) as [[[] | e] s3]; cbn [snd] in Hdone.
  - do 2 eexists. split; [reflexivity |]. apply Hdone; [reflexivity |]. now left.
  - do 2 eexists. split; [reflexivity |]. apply Hdone; [reflexivity |]. now right.
Qed.
